(** * Invoice extraction front end: upload session and edit engine

    A shallow embedding of the client logic of
    [frontend/src/app/upload/page.tsx] and
    [frontend/src/app/invoices/page.tsx].

    - React state is a record; every [setX] call is a record update, and a
      functional update [setX(prev => ...)] is a function on the field.
    - JavaScript numbers are IEEE 754 binary64 values: primitive floats.
    - JavaScript objects live in a store addressed by locations, so that two
      references to one object see each other's writes. *)

From Stdlib Require Import PrimFloat ZArith Ascii String DecimalString DecimalNat.
From Stdlib Require Uint63.
From stdpp Require Import gmap strings list.

Open Scope string_scope.
Open Scope list_scope.

(** ** Processing steps ([Step], [updateStep]) *)

Inductive StepStatus := pending | active | complete | error.

#[global] Instance StepStatus_eq_dec : EqDecision StepStatus.
Proof. solve_decision. Defined.

Module Step.
(** [type Step = { id; label; status; message? }]; an absent [message] is
    [None]. *)
Record t := mk {
  id : string;
  label : string;
  status : StepStatus;
  message : option string;
}.
End Step.

(** A step event as [handleUpload] hands it to [updateStep]:
    [updateStep(data.step, data.status, data.message)]. *)
Module StepEvent.
Record t := mk {
  step : string;
  status : StepStatus;
  message : option string;
}.
End StepEvent.

(** Truthiness of an optional string: [undefined] and the empty string are
    falsy. *)
Definition truthy_str (m : option string) : bool :=
  match m with
  | None => false
  | Some s => negb (String.eqb s "")
  end.

(** [a || b] on optional strings. *)
Definition or_str (a b : option string) : option string :=
  if truthy_str a then a else b.

(** The [labels] table of [updateStep]. *)
Definition labels : gmap string string :=
  list_to_map
    [ ("validate", "Validating file");
      ("upload", "Reading image");
      ("analyze", "Analyzing with AI");
      ("extract", "Validating data");
      ("save", "Saving to database") ].

(** [labels[stepId] || stepId]: every label of the table is non-empty, so
    the right operand is taken exactly when the table has no entry.  (Keys
    naming members of [Object.prototype] are not modelled.) *)
Definition label_of (stepId : string) : string :=
  match labels !! stepId with
  | Some l => if String.eqb l "" then stepId else l
  | None => stepId
  end.

(** The updater that [updateStep] passes to [setSteps]. *)
Definition updateStep (stepId : string) (status : StepStatus)
    (message : option string) (prev : list Step.t) : list Step.t :=
  match List.find (λ s, bool_decide (Step.id s = stepId)) prev with
  | Some _ =>
      map (λ s,
             if bool_decide (Step.id s = stepId)
             then Step.mk (Step.id s) (Step.label s) status
                          (or_str message (Step.message s))
             else s)
          prev
  | None =>
      prev ++ [Step.mk stepId (label_of stepId) status message]
  end.

Definition apply_event (prev : list Step.t) (e : StepEvent.t) : list Step.t :=
  updateStep (StepEvent.step e) (StepEvent.status e) (StepEvent.message e) prev.

(** The step list after a sequence of step events, from the empty list a
    session starts with. *)
Definition run_steps (evs : list StepEvent.t) : list Step.t :=
  fold_left apply_event evs [].

(** The events of one step id, in arrival order. *)
Definition events_for (x : string) (evs : list StepEvent.t) : list StepEvent.t :=
  filter (λ e, StepEvent.step e = x) evs.

(** The message a step keeps after its events [e0 :: rest]: the latest
    non-empty message among the repeats, and the first event's message when
    no repeat carries one. *)
Definition retained_message (e0 : StepEvent.t) (rest : list StepEvent.t)
    : option string :=
  match last (filter (λ m, truthy_str m = true) (StepEvent.message <$> rest)) with
  | Some m => m
  | None => StepEvent.message e0
  end.

(** Each id once, in first-seen order. *)
Definition first_seen_order (evs : list StepEvent.t) (steps : list Step.t) : Prop :=
  let ids := Step.id <$> steps in
  let seen := StepEvent.step <$> evs in
  NoDup ids
  ∧ (∀ x, x ∈ ids ↔ x ∈ seen)
  ∧ (∀ i j a b, ids !! i = Some a → ids !! j = Some b → i < j →
       ∃ k, seen !! k = Some a ∧ b ∉ take k seen).

(** Every entry carries the status and the message of the latest event of
    its id. *)
Definition carries_latest (evs : list StepEvent.t) (steps : list Step.t) : Prop :=
  ∀ s, s ∈ steps →
    ∃ e, last (events_for (Step.id s) evs) = Some e
         ∧ Step.status s = StepEvent.status e
         ∧ Step.message s = StepEvent.message e.

(** Every entry carries the status of the latest event of its id, and the
    message [retained_message] describes. *)
Definition carries_latest_status_retained_message
    (evs : list StepEvent.t) (steps : list Step.t) : Prop :=
  ∀ s, s ∈ steps →
    ∃ e0 rest,
      events_for (Step.id s) evs = e0 :: rest
      ∧ Step.status s = StepEvent.status (List.last rest e0)
      ∧ Step.label s = label_of (Step.id s)
      ∧ Step.message s = retained_message e0 rest.

Definition repeated_upload_events : list StepEvent.t :=
  [ StepEvent.mk "upload" active (Some "Reading image...");
    StepEvent.mk "analyze" active None;
    StepEvent.mk "upload" complete None ].

(** ** Invoices listing: the [page] state *)

Module InvoicesPage.
(** [useState(1)] *)
Definition initial_page : Z := 1.

Inductive click := Previous | Next.

(** The two [setPage] updaters.  Page numbers are integers far below
    2^53, where binary64 arithmetic is exact, so they are modelled in
    [Z]. *)
Definition setPage (c : click) (p : Z) : Z :=
  match c with
  | Previous => Z.max 1 (p - 1)
  | Next => p + 1
  end.

Definition after_clicks (cs : list click) : Z :=
  fold_left (λ p c, setPage c p) cs initial_page.
End InvoicesPage.


(** ** JavaScript strings: [split], [includes], [parseInt], template
       literals

    Strings are sequences of characters; the functions below follow the
    ECMAScript definitions on them. *)

(** [s.split(sep)] for a non-empty separator: the pieces between the
    successive left-most occurrences of [sep].  [skip] counts the
    characters of a matched separator still to be passed over. *)
Fixpoint split_go (sep : string) (skip : nat) (s : string) : list string :=
  match s with
  | EmptyString => [""]
  | String c s' =>
      match skip with
      | S k => split_go sep k s'
      | O =>
          if String.prefix sep s
          then "" :: split_go sep (String.length sep - 1) s'
          else match split_go sep 0 s' with
               | p :: ps => String c p :: ps
               | [] => [String c ""]
               end
      end
  end.

Definition split (sep s : string) : list string := split_go sep 0 s.

(** [s.includes(sub)] *)
Fixpoint includes (sub s : string) : bool :=
  String.prefix sub s
  || match s with
     | EmptyString => false
     | String _ s' => includes sub s'
     end.

(** [s.slice(n)] for [0 <= n] *)
Fixpoint slice (n : nat) (s : string) : string :=
  match n, s with
  | O, _ => s
  | S k, String _ s' => slice k s'
  | S _, EmptyString => ""
  end.

(** White space skipped by [parseInt] (the ASCII part of [StrWhiteSpaceChar]). *)
Definition is_white_space (c : ascii) : bool :=
  let n := nat_of_ascii c in
  Nat.eqb n 32 || (Nat.leb 9 n && Nat.leb n 13).

Fixpoint skip_white_space (s : string) : string :=
  match s with
  | String c s' => if is_white_space c then skip_white_space s' else s
  | EmptyString => ""
  end.

Definition decimal_digit (c : ascii) : option nat :=
  let n := nat_of_ascii c in
  if Nat.leb 48 n && Nat.leb n 57 then Some (n - 48) else None.

Definition hex_digit (c : ascii) : option nat :=
  let n := nat_of_ascii c in
  if Nat.leb 48 n && Nat.leb n 57 then Some (n - 48)
  else if Nat.leb 97 n && Nat.leb n 102 then Some (n - 87)
  else if Nat.leb 65 n && Nat.leb n 70 then Some (n - 55)
  else None.

(** The value of the longest prefix of digits, continuing from [acc]. *)
Fixpoint digits_value (radix : nat) (digit : ascii → option nat)
    (s : string) (acc : nat) : nat :=
  match s with
  | String c s' =>
      match digit c with
      | Some d => digits_value radix digit s' (acc * radix + d)
      | None => acc
      end
  | EmptyString => acc
  end.

(** [None] is [NaN]: the string does not start with a digit. *)
Definition leading_digits (radix : nat) (digit : ascii → option nat)
    (s : string) : option nat :=
  match s with
  | String c _ =>
      match digit c with
      | Some _ => Some (digits_value radix digit s 0)
      | None => None
      end
  | EmptyString => None
  end.

(** [parseInt(s)] without a radix argument; [None] is [NaN].  The result is
    exact; JavaScript rounds it to binary64, which changes nothing below
    2^53. *)
Definition parseInt (s : string) : option Z :=
  let s := skip_white_space s in
  let '(sign, s) :=
    match s with
    | String "-"%char s' => ((-1)%Z, s')
    | String "+"%char s' => (1%Z, s')
    | _ => (1%Z, s)
    end in
  let magnitude :=
    match s with
    | String "0"%char (String "x"%char s')
    | String "0"%char (String "X"%char s') => leading_digits 16 hex_digit s'
    | _ => leading_digits 10 decimal_digit s
    end in
  (λ n, (sign * Z.of_nat n)%Z) <$> magnitude.

(** [`${i}`] for a non-negative integer [i]: its decimal digits. *)
Definition string_of_nat (i : nat) : string :=
  NilEmpty.string_of_uint (Nat.to_uint i).

(** [String(x)] for the result of [parseInt], as used for a property key. *)
Definition string_of_index (idx : option Z) : string :=
  match idx with
  | None => "NaN"
  | Some z =>
      if (z <? 0)%Z then String "-"%char (string_of_nat (Z.to_nat (- z)))
      else string_of_nat (Z.to_nat z)
  end.

(** A property key is an array index when it is the decimal text of a
    natural number. *)
Definition array_index (k : string) : option nat :=
  match parseInt k with
  | Some z =>
      if (0 <=? z)%Z && String.eqb (string_of_nat (Z.to_nat z)) k
      then Some (Z.to_nat z) else None
  | None => None
  end.

(** ** JavaScript values and the object store *)

Definition loc := positive.

Inductive val :=
| VUndef
| VNull
| VBool (b : bool)
| VNum (x : float)
| VStr (s : string)
| VRef (l : loc).

(** A plain object maps property keys to values; an array is the list of
    its elements.  Members inherited from [Object.prototype] and
    [Array.prototype] are not part of the model: a key that names one is
    read as any other absent key. *)
Inductive object :=
| Obj (props : gmap string val)
| Arr (elems : list val).

Abbreviation heap := (gmap loc object).

(** Truthiness. *)
Definition truthy (v : val) : bool :=
  match v with
  | VUndef | VNull => false
  | VBool b => b
  | VNum x => negb (PrimFloat.is_zero x || PrimFloat.is_nan x)
  | VStr s => negb (String.eqb s "")
  | VRef _ => true
  end.

(** ** Computations that can throw

    A computation over a state [S] ends normally with a value, throws
    (the state reached at the [throw] is kept, as the writes made before
    an exception stay made), or leaves the fragment of JavaScript that is
    modelled here. *)
Inductive outcome (S A : Type) :=
| Done (a : A) (s : S)
| Throw (s : S)
| Unmodelled.
Arguments Done {S A} a s.
Arguments Throw {S A} s.
Arguments Unmodelled {S A}.

Definition M (S A : Type) : Type := S → outcome S A.

Definition ret {S A} (a : A) : M S A := λ s, Done a s.

Definition bind {S A B} (k : A → M S B) (m : M S A) : M S B :=
  λ s, match m s with
       | Done a s' => k a s'
       | Throw s' => Throw s'
       | Unmodelled => Unmodelled
       end.

#[global] Instance M_ret {S} : MRet (M S) := λ A, ret.
#[global] Instance M_bind {S} : MBind (M S) := λ A B, bind.

Definition throw {S A} : M S A := λ s, Throw s.
Definition unmodelled {S A} : M S A := λ _, Unmodelled.
Definition get_state {S} : M S S := λ s, Done s s.
Definition modify {S} (f : S → S) : M S unit := λ s, Done tt (f s).

(** [try { body } catch { handler }] *)
Definition try_catch {S A} (body handler : M S A) : M S A :=
  λ s, match body s with
       | Throw s' => handler s'
       | r => r
       end.

(** [try { body } finally { final }], for a [final] that does not throw. *)
Definition try_finally {S A} (body : M S A) (final : M S unit) : M S A :=
  λ s, match body s with
       | Done a s' => bind (λ _, ret a) final s'
       | Throw s' => bind (λ _, throw) final s'
       | Unmodelled => Unmodelled
       end.

(** [for (const x of xs) body(x)] *)
Fixpoint for_each {S A} (body : A → M S unit) (xs : list A) : M S unit :=
  match xs with
  | [] => ret tt
  | x :: xs' => body x ;; for_each body xs'
  end.

(** [xs.map(f)] for an [f] with effects, left to right. *)
Fixpoint traverse {S A B} (f : A → M S B) (xs : list A) : M S (list B) :=
  match xs with
  | [] => mret []
  | x :: xs' => y ← f x; ys ← traverse f xs'; mret (y :: ys)
  end.

(** *** Property access *)

(** [v[k]] *)
Definition get_prop (v : val) (k : string) : M heap val :=
  match v with
  | VUndef | VNull => throw
  | VBool _ | VNum _ => ret VUndef
  | VStr _ => unmodelled
  | VRef l =>
      h ← get_state;
      match h !! l with
      | Some (Obj m) => ret (default VUndef (m !! k))
      | Some (Arr xs) =>
          match array_index k with
          | Some n => ret (default VUndef (xs !! n))
          | None => if String.eqb k "length" then unmodelled else ret VUndef
          end
      | None => unmodelled
      end
  end.

(** [v[k] = x].  The module is strict-mode code: a write to a property of a
    primitive throws.  A write that would grow an array leaves holes, which
    are not modelled. *)
Definition set_prop (v : val) (k : string) (x : val) : M heap unit :=
  match v with
  | VUndef | VNull | VBool _ | VNum _ | VStr _ => throw
  | VRef l =>
      h ← get_state;
      match h !! l with
      | Some (Obj m) => modify (λ h, <[l := Obj (<[k := x]> m)]> h)
      | Some (Arr xs) =>
          match array_index k with
          | Some n =>
              if decide (n < length xs)
              then modify (λ h, <[l := Arr (<[n := x]> xs)]> h)
              else unmodelled
          | None => unmodelled
          end
      | None => unmodelled
      end
  end.

(** A new object at a fresh location. *)
Definition alloc (o : object) : M heap val :=
  λ h, let l := fresh (dom h) in Done (VRef l) (<[l := o]> h).

(** [{ ...v }]: a new object with the own properties of [v]. *)
Definition spread (v : val) : M heap val :=
  match v with
  | VUndef | VNull | VBool _ | VNum _ => alloc (Obj ∅)
  | VStr _ => unmodelled
  | VRef l =>
      h ← get_state;
      match h !! l with
      | Some (Obj m) => alloc (Obj m)
      | _ => unmodelled
      end
  end.

(** The elements [v.reduce] runs over; [v.reduce] is not a function unless
    [v] is an array. *)
Definition array_elems (v : val) : M heap (list val) :=
  match v with
  | VRef l =>
      h ← get_state;
      match h !! l with
      | Some (Arr xs) => ret xs
      | Some (Obj _) => throw
      | None => unmodelled
      end
  | _ => throw
  end.

(** *** Arithmetic *)

(** [ToNumber] on the values that need no parsing. *)
Definition to_number (v : val) : option float :=
  match v with
  | VNum x => Some x
  | VUndef => Some PrimFloat.nan
  | VNull => Some PrimFloat.zero
  | VBool b => Some (if b then PrimFloat.one else PrimFloat.zero)
  | VStr _ | VRef _ => None
  end.

Definition arith {S} (op : float → float → float) (a b : val) : M S val :=
  match to_number a, to_number b with
  | Some x, Some y => ret (VNum (op x y))
  | _, _ => unmodelled
  end.

(** [a * b], [a / b] and [a + b]; an operand that is a string or an object
    (numeric parsing, concatenation) is not modelled. *)
Definition js_mul {S} : val → val → M S val := arith PrimFloat.mul.
Definition js_div {S} : val → val → M S val := arith PrimFloat.div.
Definition js_add {S} : val → val → M S val := arith PrimFloat.add.

(** ** The extracted invoice ([interface ExtractedData]) *)

Module Address.
Record t := mk {
  name : string;
  address : string;
  city : string;
  state : string;
  zip : string;
}.
End Address.

Module Header.
Record t := mk {
  invoice_number : string;
  date : string;
  customer_id : option string;   (* [string | null] *)
  company_name : string;
  bill_to : Address.t;
  ship_to : Address.t;
}.
End Header.

Module LineItem.
Record t := mk {
  item_number : string;
  description : string;
  quantity : float;
  unit_price : float;
  total : float;
}.
End LineItem.

Module Totals.
Record t := mk {
  subtotal : float;
  tax_rate : float;
  tax_amount : float;
  shipping : float;
  total : float;
}.
End Totals.

Module ExtractedData.
Record t := mk {
  header : Header.t;
  line_items : list LineItem.t;
  totals : Totals.t;
}.
End ExtractedData.

(** *** Reading a typed invoice out of the store *)

Definition object_at (h : heap) (l : loc) : option (gmap string val) :=
  match h !! l with
  | Some (Obj m) => Some m
  | _ => None
  end.

Definition array_at (h : heap) (l : loc) : option (list val) :=
  match h !! l with
  | Some (Arr xs) => Some xs
  | _ => None
  end.

Definition str_field (m : gmap string val) (k : string) : option string :=
  match m !! k with
  | Some (VStr s) => Some s
  | _ => None
  end.

Definition nullable_str_field (m : gmap string val) (k : string)
    : option (option string) :=
  match m !! k with
  | Some (VStr s) => Some (Some s)
  | Some VNull => Some None
  | _ => None
  end.

Definition num_field (m : gmap string val) (k : string) : option float :=
  match m !! k with
  | Some (VNum x) => Some x
  | _ => None
  end.

Definition ref_field (m : gmap string val) (k : string) : option loc :=
  match m !! k with
  | Some (VRef l) => Some l
  | _ => None
  end.

Definition as_ref (v : val) : option loc :=
  match v with
  | VRef l => Some l
  | _ => None
  end.

(** The typed reading of the properties of one object. *)
Definition address_of (m : gmap string val) : option Address.t :=
  name ← str_field m "name";
  address ← str_field m "address";
  city ← str_field m "city";
  state ← str_field m "state";
  zip ← str_field m "zip";
  Some (Address.mk name address city state zip).

Definition line_item_of (m : gmap string val) : option LineItem.t :=
  item_number ← str_field m "item_number";
  description ← str_field m "description";
  quantity ← num_field m "quantity";
  unit_price ← num_field m "unit_price";
  total ← num_field m "total";
  Some (LineItem.mk item_number description quantity unit_price total).

Definition totals_of (m : gmap string val) : option Totals.t :=
  subtotal ← num_field m "subtotal";
  tax_rate ← num_field m "tax_rate";
  tax_amount ← num_field m "tax_amount";
  shipping ← num_field m "shipping";
  total ← num_field m "total";
  Some (Totals.mk subtotal tax_rate tax_amount shipping total).

Definition load_address (h : heap) (l : loc) : option Address.t :=
  object_at h l ≫= address_of.

Definition header_of (h : heap) (m : gmap string val) : option Header.t :=
  invoice_number ← str_field m "invoice_number";
  date ← str_field m "date";
  customer_id ← nullable_str_field m "customer_id";
  company_name ← str_field m "company_name";
  bill_to ← ref_field m "bill_to" ≫= load_address h;
  ship_to ← ref_field m "ship_to" ≫= load_address h;
  Some (Header.mk invoice_number date customer_id company_name bill_to ship_to).

Definition load_header (h : heap) (l : loc) : option Header.t :=
  object_at h l ≫= header_of h.

Definition load_line_item (h : heap) (l : loc) : option LineItem.t :=
  object_at h l ≫= line_item_of.

Definition load_totals (h : heap) (l : loc) : option Totals.t :=
  object_at h l ≫= totals_of.

Definition load_line_items (h : heap) (l : loc) : option (list LineItem.t) :=
  xs ← array_at h l;
  mapM (λ v, as_ref v ≫= load_line_item h) xs.

(** The invoice a reference denotes in a store. *)
Definition load_snapshot (h : heap) (v : val) : option ExtractedData.t :=
  l ← as_ref v;
  m ← object_at h l;
  header ← ref_field m "header" ≫= load_header h;
  line_items ← ref_field m "line_items" ≫= load_line_items h;
  totals ← ref_field m "totals" ≫= load_totals h;
  Some (ExtractedData.mk header line_items totals).

(** The location of the object a reference points to (any location will do
    for a value that is no reference). *)
Definition root_of (v : val) : loc :=
  match v with
  | VRef l => l
  | _ => 1%positive
  end.

(** The locations an invoice occupies: the root object, the header with its
    two addresses, the array, the line items and the totals. *)
Definition snapshot_locs (h : heap) (v : val) : option (list loc) :=
  l ← as_ref v;
  m ← object_at h l;
  lh ← ref_field m "header";
  mh ← object_at h lh;
  lb ← ref_field mh "bill_to";
  ls ← ref_field mh "ship_to";
  la ← ref_field m "line_items";
  xs ← array_at h la;
  items ← mapM as_ref xs;
  lt ← ref_field m "totals";
  Some (l :: lh :: lb :: ls :: la :: lt :: items).

(** [v] denotes the invoice [d] and is laid out as a tree, the way
    [JSON.parse] builds it: no object of the invoice is reached twice. *)
Definition snapshot_at (h : heap) (v : val) (d : ExtractedData.t) : Prop :=
  load_snapshot h v = Some d
  ∧ ∃ ls, snapshot_locs h v = Some ls ∧ NoDup ls.

(** The totals of an order recomputed from its line totals, as the body of
    [if (field.includes('line_items'))] writes them. *)
Definition sum_totals (items : list LineItem.t) : float :=
  fold_left (λ sum li, PrimFloat.add sum (LineItem.total li)) items PrimFloat.zero.

Definition totals_consistent (d : ExtractedData.t) : Prop :=
  let t := ExtractedData.totals d in
  Totals.subtotal t = sum_totals (ExtractedData.line_items d)
  ∧ Totals.tax_amount t =
      PrimFloat.mul (Totals.subtotal t) (PrimFloat.div (Totals.tax_rate t) 100%float)
  ∧ Totals.total t =
      PrimFloat.add (PrimFloat.add (Totals.subtotal t) (Totals.tax_amount t))
                    (Totals.shipping t).

Definition line_consistent (li : LineItem.t) : Prop :=
  LineItem.total li = PrimFloat.mul (LineItem.quantity li) (LineItem.unit_price li).

(** *** What an edit of a line item leaves

    The invoice read back after [handleEditField] has changed line [i] by
    [change] and recalculated: the line total from its quantity and unit
    price, then the totals of the order. *)
Definition with_line_total (li : LineItem.t) : LineItem.t :=
  LineItem.mk (LineItem.item_number li) (LineItem.description li)
    (LineItem.quantity li) (LineItem.unit_price li)
    (PrimFloat.mul (LineItem.quantity li) (LineItem.unit_price li)).

Definition with_order_totals (items : list LineItem.t) (t : Totals.t) : Totals.t :=
  let subtotal := sum_totals items in
  let tax_amount := PrimFloat.mul subtotal (PrimFloat.div (Totals.tax_rate t) 100%float) in
  Totals.mk subtotal (Totals.tax_rate t) tax_amount (Totals.shipping t)
    (PrimFloat.add (PrimFloat.add subtotal tax_amount) (Totals.shipping t)).

Definition recalculated (i : nat) (change : LineItem.t → LineItem.t)
    (d : ExtractedData.t) : ExtractedData.t :=
  let items := alter (λ li, with_line_total (change li)) i (ExtractedData.line_items d) in
  ExtractedData.mk (ExtractedData.header d) items
    (with_order_totals items (ExtractedData.totals d)).

Definition set_quantity (x : float) (li : LineItem.t) : LineItem.t :=
  LineItem.mk (LineItem.item_number li) (LineItem.description li) x
    (LineItem.unit_price li) (LineItem.total li).

Definition set_unit_price (x : float) (li : LineItem.t) : LineItem.t :=
  LineItem.mk (LineItem.item_number li) (LineItem.description li)
    (LineItem.quantity li) x (LineItem.total li).

Definition set_description (s : string) (li : LineItem.t) : LineItem.t :=
  LineItem.mk (LineItem.item_number li) s (LineItem.quantity li)
    (LineItem.unit_price li) (LineItem.total li).

Definition set_item_number (s : string) (li : LineItem.t) : LineItem.t :=
  LineItem.mk s (LineItem.description li) (LineItem.quantity li)
    (LineItem.unit_price li) (LineItem.total li).

(** The typed edits of a line item the form makes: the key, the value
    passed, and the change of the line. *)
Inductive item_edit : string → val → (LineItem.t → LineItem.t) → Prop :=
| edit_quantity x : item_edit "quantity" (VNum x) (set_quantity x)
| edit_unit_price x : item_edit "unit_price" (VNum x) (set_unit_price x)
| edit_description s : item_edit "description" (VStr s) (set_description s)
| edit_item_number s : item_edit "item_number" (VStr s) (set_item_number s).

(** The typed edits of a header field the form makes: the key, the text
    passed, and the change of the header. *)
Definition set_invoice_number (s : string) (hd : Header.t) : Header.t :=
  Header.mk s (Header.date hd) (Header.customer_id hd) (Header.company_name hd)
    (Header.bill_to hd) (Header.ship_to hd).

Definition set_date (s : string) (hd : Header.t) : Header.t :=
  Header.mk (Header.invoice_number hd) s (Header.customer_id hd)
    (Header.company_name hd) (Header.bill_to hd) (Header.ship_to hd).

Definition set_customer_id (s : string) (hd : Header.t) : Header.t :=
  Header.mk (Header.invoice_number hd) (Header.date hd) (Some s)
    (Header.company_name hd) (Header.bill_to hd) (Header.ship_to hd).

Definition set_company_name (s : string) (hd : Header.t) : Header.t :=
  Header.mk (Header.invoice_number hd) (Header.date hd) (Header.customer_id hd) s
    (Header.bill_to hd) (Header.ship_to hd).

Inductive header_edit : string → string → (Header.t → Header.t) → Prop :=
| edit_invoice_number s : header_edit "invoice_number" s (set_invoice_number s)
| edit_date s : header_edit "date" s (set_date s)
| edit_customer_id s : header_edit "customer_id" s (set_customer_id s)
| edit_company_name s : header_edit "company_name" s (set_company_name s).

(** ** The upload page: state *)

(** What [JSON.parse] returns. *)
#[local] Set Warnings "-register-all".
Inductive json :=
| JNull
| JBool (b : bool)
| JNum (x : float)
| JStr (s : string)
| JArr (elems : list json)
| JObj (fields : list (string * json)).
#[local] Set Warnings "register-all".

(** [interface ExtractionResponse], as the three [setResult] calls build it:
    [{ success: true, data }] and [{ success: false, error }]; [None] is
    [undefined]. *)
Inductive ExtractionResponse :=
| Success (data : option json)
| Failure (error : option json).

(** The state variables of [UploadPage] that the handlers below read or
    write, with the object store, the number of [console.error] calls and
    the number of [fetchStats] calls.  ([preview], [isDragging], the two
    other modal flags and [stats] are touched by none of them.) *)
Record page := mkPage {
  file : option string;
  isLoading : bool;
  result : option ExtractionResponse;
  saveToDb : bool;
  steps : list Step.t;
  showProcessingModal : bool;
  editedData : val;
  processingComplete : bool;
  store : heap;
  console_errors : nat;
  stats_requests : nat;
}.

Definition setIsLoading (b : bool) (p : page) : page :=
  mkPage (file p) b (result p) (saveToDb p) (steps p) (showProcessingModal p)
         (editedData p) (processingComplete p) (store p) (console_errors p)
         (stats_requests p).

Definition setResult (r : option ExtractionResponse) (p : page) : page :=
  mkPage (file p) (isLoading p) r (saveToDb p) (steps p) (showProcessingModal p)
         (editedData p) (processingComplete p) (store p) (console_errors p)
         (stats_requests p).

Definition setSteps (f : list Step.t → list Step.t) (p : page) : page :=
  mkPage (file p) (isLoading p) (result p) (saveToDb p) (f (steps p))
         (showProcessingModal p) (editedData p) (processingComplete p) (store p)
         (console_errors p) (stats_requests p).

Definition setShowProcessingModal (b : bool) (p : page) : page :=
  mkPage (file p) (isLoading p) (result p) (saveToDb p) (steps p) b
         (editedData p) (processingComplete p) (store p) (console_errors p)
         (stats_requests p).

Definition setEditedData (v : val) (p : page) : page :=
  mkPage (file p) (isLoading p) (result p) (saveToDb p) (steps p)
         (showProcessingModal p) v (processingComplete p) (store p)
         (console_errors p) (stats_requests p).

Definition setProcessingComplete (b : bool) (p : page) : page :=
  mkPage (file p) (isLoading p) (result p) (saveToDb p) (steps p)
         (showProcessingModal p) (editedData p) b (store p) (console_errors p)
         (stats_requests p).

Definition set_store (h : heap) (p : page) : page :=
  mkPage (file p) (isLoading p) (result p) (saveToDb p) (steps p)
         (showProcessingModal p) (editedData p) (processingComplete p) h
         (console_errors p) (stats_requests p).

(** [console.error(...)] *)
Definition console_error (p : page) : page :=
  mkPage (file p) (isLoading p) (result p) (saveToDb p) (steps p)
         (showProcessingModal p) (editedData p) (processingComplete p) (store p)
         (S (console_errors p)) (stats_requests p).

(** [fetchStats()], not awaited: the request is counted, its reply only
    sets [stats]. *)
Definition fetchStats (p : page) : page :=
  mkPage (file p) (isLoading p) (result p) (saveToDb p) (steps p)
         (showProcessingModal p) (editedData p) (processingComplete p) (store p)
         (console_errors p) (S (stats_requests p)).

(** A computation on the object store, run on the store of the page. *)
Definition on_store {A} (m : M heap A) : M page A :=
  λ p, match m (store p) with
       | Done a h => Done a (set_store h p)
       | Throw h => Throw (set_store h p)
       | Unmodelled => Unmodelled
       end.

(** ** The edit engine ([handleEditField]) *)

(** [for (let i = 0; i < keys.length - 1; i++) obj = obj[keys[i]]] *)
Fixpoint walk (obj : val) (keys : list string) : M heap val :=
  match keys with
  | k :: (_ :: _) as rest => obj' ← get_prop obj k; walk obj' rest
  | _ => mret obj
  end.

(** [keys[keys.length - 1]] as a property key *)
Definition last_key (keys : list string) : string :=
  default "undefined" (last keys).

(** [elems.reduce((sum, li) => sum + li.total, sum0)] *)
Fixpoint reduce_totals (elems : list val) (sum : val) : M heap val :=
  match elems with
  | [] => mret sum
  | li :: rest =>
      total ← get_prop li "total";
      sum' ← js_add sum total;
      reduce_totals rest sum'
  end.

(** The body of [if (field.includes('line_items'))]. *)
Definition recalculate (updated : val) (keys : list string) : M heap unit :=
  (* const idx = parseInt(keys[1]); const item = updated.line_items[idx]; *)
  let idx := parseInt (default "undefined" (keys !! 1)) in
  line_items ← get_prop updated "line_items";
  item ← get_prop line_items (string_of_index idx);
  (* item.total = item.quantity * item.unit_price; *)
  quantity ← get_prop item "quantity";
  unit_price ← get_prop item "unit_price";
  total ← js_mul quantity unit_price;
  set_prop item "total" total;;
  (* updated.totals.subtotal = updated.line_items.reduce(..., 0); *)
  totals ← get_prop updated "totals";
  line_items ← get_prop updated "line_items";
  elems ← array_elems line_items;
  subtotal ← reduce_totals elems (VNum PrimFloat.zero);
  set_prop totals "subtotal" subtotal;;
  (* updated.totals.tax_amount =
       updated.totals.subtotal * (updated.totals.tax_rate / 100); *)
  totals ← get_prop updated "totals";
  totals1 ← get_prop updated "totals";
  subtotal ← get_prop totals1 "subtotal";
  totals2 ← get_prop updated "totals";
  tax_rate ← get_prop totals2 "tax_rate";
  rate ← js_div tax_rate (VNum 100%float);
  tax_amount ← js_mul subtotal rate;
  set_prop totals "tax_amount" tax_amount;;
  (* updated.totals.total = updated.totals.subtotal
       + updated.totals.tax_amount + updated.totals.shipping; *)
  totals ← get_prop updated "totals";
  totals1 ← get_prop updated "totals";
  subtotal ← get_prop totals1 "subtotal";
  totals2 ← get_prop updated "totals";
  tax_amount ← get_prop totals2 "tax_amount";
  sum ← js_add subtotal tax_amount;
  totals3 ← get_prop updated "totals";
  shipping ← get_prop totals3 "shipping";
  total ← js_add sum shipping;
  set_prop totals "total" total.

Definition handleEditField (field : string) (value : val) : M page unit :=
  p ← get_state;
  (* if (!editedData) return; *)
  if negb (truthy (editedData p)) then mret tt
  else
    (* const updated = { ...editedData }; *)
    updated ← on_store (spread (editedData p));
    let keys := split "." field in
    on_store (obj ← walk updated keys;
              set_prop obj (last_key keys) value);;
    (if includes "line_items" field
     then on_store (recalculate updated keys)
     else mret tt);;
    modify (setEditedData updated).

(** The paths the edit form passes: [header.<key>] and
    [`line_items.${i}.<key>`]. *)
Definition header_path (key : string) : string := "header." +:+ key.
Definition item_path (i : nat) (key : string) : string :=
  "line_items." +:+ string_of_nat i +:+ "." +:+ key.

(** *** Successive edits

    One call of the form, as a change of the invoice: a header field is
    replaced, or a line is changed and the invoice recalculated. *)
Definition with_header (change : Header.t → Header.t) (d : ExtractedData.t)
    : ExtractedData.t :=
  ExtractedData.mk (change (ExtractedData.header d)) (ExtractedData.line_items d)
    (ExtractedData.totals d).

Inductive edit_denotes
    : string → val → ExtractedData.t → ExtractedData.t → Prop :=
| denotes_header key s change d :
    header_edit key s change →
    edit_denotes (header_path key) (VStr s) d (with_header change d)
| denotes_item i key value change d :
    i < length (ExtractedData.line_items d) →
    item_edit key value change →
    edit_denotes (item_path i key) value d (recalculated i change d).

Inductive edits_denote
    : list (string * val) → ExtractedData.t → ExtractedData.t → Prop :=
| denote_nil d : edits_denote [] d d
| denote_cons field value es d d' d'' :
    edit_denotes field value d d' →
    edits_denote es d' d'' →
    edits_denote ((field, value) :: es) d d''.

(** The calls [handleEditField(field, value)] of several changes of the
    form, one after the other. *)
Definition handleEdits (es : list (string * val)) : M page unit :=
  for_each (λ e, handleEditField e.1 e.2) es.

(** Every line total is quantity × unit price and the totals are the ones
    recomputed from the lines. *)
Definition invoice_consistent (d : ExtractedData.t) : Prop :=
  Forall line_consistent (ExtractedData.line_items d) ∧ totals_consistent d.

(** ** Parsed JSON *)

(** Induction on parsed JSON, through arrays and objects. *)
Section json_induction.
Variable P : json → Prop.
Hypothesis Hnull : P JNull.
Hypothesis Hbool : ∀ b, P (JBool b).
Hypothesis Hnum : ∀ x, P (JNum x).
Hypothesis Hstr : ∀ s, P (JStr s).
Hypothesis Harr : ∀ elems, Forall P elems → P (JArr elems).
Hypothesis Hobj : ∀ fields, Forall (λ kv, P kv.2) fields → P (JObj fields).

Fixpoint json_nested_ind (j : json) : P j :=
  match j with
  | JNull => Hnull
  | JBool b => Hbool b
  | JNum x => Hnum x
  | JStr s => Hstr s
  | JArr elems =>
      Harr elems
        ((fix go (l : list json) : Forall P l :=
            match l with
            | [] => @List.Forall_nil _ P
            | x :: l' => @List.Forall_cons _ P x l' (json_nested_ind x) (go l')
            end) elems)
  | JObj fields =>
      Hobj fields
        ((fix go (l : list (string * json)) : Forall (λ kv, P kv.2) l :=
            match l with
            | [] => @List.Forall_nil _ _
            | kv :: l' => @List.Forall_cons _ _ kv l' (json_nested_ind kv.2) (go l')
            end) fields)
  end.
End json_induction.

(** [JSON.parse(JSON.stringify(j))] on a parsed value: a structural copy.
    [JSON.stringify] writes [null] for a number that is not finite and [0]
    for a negative zero; every finite number is read back exactly. *)
Fixpoint json_roundtrip (j : json) : json :=
  match j with
  | JNum x =>
      if PrimFloat.is_nan x || PrimFloat.is_infinity x then JNull
      else if PrimFloat.is_zero x then JNum PrimFloat.zero
      else JNum x
  | JArr elems => JArr (map json_roundtrip elems)
  | JObj fields => JObj (map (λ kv, (kv.1, json_roundtrip kv.2)) fields)
  | JNull | JBool _ | JStr _ => j
  end.

(** The objects [JSON.parse] builds for a value: each array and each object
    is a new one, the children before their parent. *)
Fixpoint alloc_json (j : json) : M heap val :=
  match j with
  | JNull => mret VNull
  | JBool b => mret (VBool b)
  | JNum x => mret (VNum x)
  | JStr s => mret (VStr s)
  | JArr elems =>
      vs ← traverse alloc_json elems;
      alloc (Arr vs)
  | JObj fields =>
      props ← traverse (λ kv, v ← alloc_json kv.2; mret (kv.1, v)) fields;
      alloc (Obj (list_to_map props))
  end.

(** The JSON form of an invoice, field by field as [interface
    ExtractedData] declares it. *)
Definition json_of_address (a : Address.t) : json :=
  JObj [ ("name", JStr (Address.name a));
         ("address", JStr (Address.address a));
         ("city", JStr (Address.city a));
         ("state", JStr (Address.state a));
         ("zip", JStr (Address.zip a)) ].

Definition json_of_header (hd : Header.t) : json :=
  JObj [ ("invoice_number", JStr (Header.invoice_number hd));
         ("date", JStr (Header.date hd));
         ("customer_id", from_option JStr JNull (Header.customer_id hd));
         ("company_name", JStr (Header.company_name hd));
         ("bill_to", json_of_address (Header.bill_to hd));
         ("ship_to", json_of_address (Header.ship_to hd)) ].

Definition json_of_line_item (li : LineItem.t) : json :=
  JObj [ ("item_number", JStr (LineItem.item_number li));
         ("description", JStr (LineItem.description li));
         ("quantity", JNum (LineItem.quantity li));
         ("unit_price", JNum (LineItem.unit_price li));
         ("total", JNum (LineItem.total li)) ].

Definition json_of_totals (t : Totals.t) : json :=
  JObj [ ("subtotal", JNum (Totals.subtotal t));
         ("tax_rate", JNum (Totals.tax_rate t));
         ("tax_amount", JNum (Totals.tax_amount t));
         ("shipping", JNum (Totals.shipping t));
         ("total", JNum (Totals.total t)) ].

Definition json_of_invoice (d : ExtractedData.t) : json :=
  JObj [ ("header", json_of_header (ExtractedData.header d));
         ("line_items", JArr (json_of_line_item <$> ExtractedData.line_items d));
         ("totals", json_of_totals (ExtractedData.totals d)) ].

(** The result event of a successful extraction of [invoice]:
    [{ type: "result", success: true,
       data: { extraction: { data: invoice } } }]. *)
Definition success_result (invoice : json) : json :=
  JObj [ ("type", JStr "result"); ("success", JBool true);
         ("data", JObj [ ("extraction", JObj [ ("data", invoice) ]) ]) ].

(** *** Sample data *)

Definition sample_address : Address.t :=
  Address.mk "Acme Corp" "1 Main St" "Springfield" "IL" "62701".

Definition sample_header : Header.t :=
  Header.mk "INV-1" "2024-01-15" None "Acme Corp" sample_address sample_address.

(** One line of 5 at 10.00 and one of 2 at 25.00: subtotal 100.00, tax 8 %,
    shipping 5.00. *)
Definition sample_invoice : ExtractedData.t :=
  ExtractedData.mk sample_header
    [ LineItem.mk "A-1" "Widget" 5%float 10%float 50%float;
      LineItem.mk "B-2" "Gadget" 2%float 25%float 50%float ]
    (Totals.mk 100%float 8%float 8%float 5%float 113%float).

(** An extraction whose first line total (45.00) is not 5 × 10.00. *)
Definition inconsistent_invoice : ExtractedData.t :=
  ExtractedData.mk sample_header
    [ LineItem.mk "A-1" "Widget" 5%float 10%float 45%float;
      LineItem.mk "B-2" "Gadget" 2%float 25%float 50%float ]
    (Totals.mk 95%float 10%float 9.5%float 5%float 109.5%float).

Definition empty_page : page :=
  mkPage None false None false [] false VNull false ∅ 0 0.

(** Line 2 still has quantity 1: 5 at 10.00 and 1 at 25.00. *)
Definition draft_invoice : ExtractedData.t :=
  ExtractedData.mk sample_header
    [ LineItem.mk "A-1" "Widget" 5%float 10%float 50%float;
      LineItem.mk "B-2" "Gadget" 1%float 25%float 25%float ]
    (Totals.mk 75%float 8%float 6%float 5%float 86%float).

(** A page whose [editedData] is a fresh copy of the invoice [d]. *)
Definition page_editing (d : ExtractedData.t) : page :=
  match alloc_json (json_of_invoice d) ∅ with
  | Done v h => setEditedData v (set_store h empty_page)
  | _ => empty_page
  end.

(** ** The upload session ([handleUpload]) *)

(** [j[k]] on parsed JSON, for the keys the handler reads ([type],
    [success], [data], [error], [step], [status], [message], [extraction]):
    none is an index, [length] or an inherited member, so only an object
    can hold them.  [None] is [undefined]. *)
Definition json_field (j : json) (k : string) : option json :=
  match j with
  | JObj fields => snd <$> List.find (λ kv, String.eqb kv.1 k) fields
  | JNull | JBool _ | JNum _ | JStr _ | JArr _ => None
  end.

(** [v[k]], which throws when [v] is [undefined] or [null]. *)
Definition json_get {S} (v : option json) (k : string) : M S (option json) :=
  match v with
  | None | Some JNull => throw
  | Some j => mret (json_field j k)
  end.

Definition json_truthy (v : option json) : bool :=
  match v with
  | None | Some JNull => false
  | Some (JBool b) => b
  | Some (JNum x) => negb (PrimFloat.is_zero x || PrimFloat.is_nan x)
  | Some (JStr s) => negb (String.eqb s "")
  | Some (JArr _ | JObj _) => true
  end.

(** [v === "result"] *)
Definition is_result_tag (v : option json) : bool :=
  match v with
  | Some (JStr s) => String.eqb s "result"
  | _ => false
  end.

(** The arguments of [updateStep] at their declared types
    [(stepId: string, status: Step["status"], message?: string)]; a
    [null] message counts as an absent one. *)
Definition as_step_id (v : option json) : option string :=
  match v with
  | Some (JStr s) => Some s
  | _ => None
  end.

Definition as_status (v : option json) : option StepStatus :=
  match v with
  | Some (JStr s) =>
      if String.eqb s "pending" then Some pending
      else if String.eqb s "active" then Some active
      else if String.eqb s "complete" then Some complete
      else if String.eqb s "error" then Some error
      else None
  | _ => None
  end.

Definition as_message (v : option json) : option (option string) :=
  match v with
  | None | Some JNull => Some None
  | Some (JStr s) => Some (Some s)
  | _ => None
  end.

(** The result [handleUpload] synthesizes in its [catch]. *)
Definition network_error : ExtractionResponse :=
  Failure (Some (JObj [ ("code", JStr "ERR_NETWORK");
                        ("message", JStr "Failed to connect to server") ])).

(** What the response delivers: [fetch] rejects, the response has no body,
    or the body yields chunks of text until the stream ends or a read
    rejects.  (The chunks are the decoded text of each [reader.read()].) *)
Inductive read_end := stream_ends | read_rejects.

Inductive transport :=
| fetch_rejects
| no_body
| streams (chunks : list string) (ending : read_end).

(** The frame delimiter: two line feeds. *)
Definition blank_line : string := String "010"%char (String "010"%char "").

Section upload.
(** [JSON.parse], a built-in; [None] is a thrown [SyntaxError]. *)
Variable JSON_parse : string → option json.

(** The body of the inner [try], after [const data = JSON.parse(...)]. *)
Definition handle_data (data : option json) : M page unit :=
  type ← json_get data "type";
  if is_result_tag type then
    success ← json_get data "success";
    if json_truthy success then
      payload ← json_get data "data";
      modify (setResult (Some (Success payload)));;
      extraction ← json_get payload "extraction";
      extracted ← json_get extraction "data";
      (* JSON.parse(JSON.stringify(undefined)) throws a SyntaxError *)
      copy ← match extracted with
             | Some j => on_store (alloc_json (json_roundtrip j))
             | None => throw
             end;
      modify (setEditedData copy);;
      modify (setProcessingComplete true);;
      modify fetchStats
    else
      err ← json_get data "error";
      modify (setResult (Some (Failure err)))
  else
    step ← json_get data "step";
    if json_truthy step then
      status ← json_get data "status";
      message ← json_get data "message";
      match as_step_id step, as_status status, as_message message with
      | Some stepId, Some st, Some msg => modify (setSteps (updateStep stepId st msg))
      | _, _, _ => unmodelled
      end
    else mret tt.

(** The body of [for (const line of lines)]. *)
Definition handle_line (line : string) : M page unit :=
  if String.prefix "data: " line then
    try_catch
      (match JSON_parse (slice 6 line) with
       | Some data => handle_data (Some data)
       | None => throw
       end)
      (modify console_error)
  else mret tt.

(** The [while (true)] loop over [reader.read()]. *)
Fixpoint read_loop (chunks : list string) (ending : read_end) (buffer : string)
    : M page unit :=
  match chunks with
  | [] =>
      match ending with
      | stream_ends => mret tt      (* if (done) break; *)
      | read_rejects => throw
      end
  | value :: rest =>
      let buffer := buffer +:+ value in
      let lines := split blank_line buffer in
      (* buffer = lines.pop() || ""; *)
      let buffer := default "" (last lines) in
      for_each handle_line (removelast lines);;
      read_loop rest ending buffer
  end.

(** [try { ... } catch { setResult(ERR_NETWORK) } finally { setIsLoading(false) }] *)
Definition consume (t : transport) : M page unit :=
  try_finally
    (try_catch
       (match t with
        | fetch_rejects => throw
        | no_body => throw     (* throw new Error("No response body") *)
        | streams chunks ending => read_loop chunks ending ""
        end)
       (modify (setResult (Some network_error))))
    (modify (setIsLoading false)).

Definition handleUpload (t : transport) : M page unit :=
  p ← get_state;
  match file p with
  | None => mret tt                 (* if (!file) return; *)
  | Some _ =>
      modify (setIsLoading true);;
      modify (setResult None);;
      modify (setSteps (λ _, []));;
      modify (setProcessingComplete false);;
      modify (setShowProcessingModal true);;
      consume t
  end.

(** The frames the read loop hands to [handle_line], in order. *)
Fixpoint frames (chunks : list string) (buffer : string) : list string :=
  match chunks with
  | [] => []
  | value :: rest =>
      let lines := split blank_line (buffer +:+ value) in
      removelast lines ++ frames rest (default "" (last lines))
  end.

(** The whole text received: the chunks, one after the other. *)
Definition received (chunks : list string) : string :=
  foldr String.append "" chunks.

(** The parsed payload of a frame; a frame without the [data: ] prefix is
    skipped, and a frame whose payload does not parse is malformed. *)
Definition payload (line : string) : option (option json) :=
  if String.prefix "data: " line then Some (JSON_parse (slice 6 line)) else None.

Definition malformed (line : string) : Prop := payload line = Some None.

End upload.

(** *** Events *)

(** What a frame asks for: a step update or a result. *)
Inductive event :=
| step_event (e : StepEvent.t)
| result_event (r : ExtractionResponse).

(** A parsed payload is a result event when its [type] is ["result"], and
    otherwise a step event when its [step] is truthy. *)
Definition is_result (j : json) : bool := is_result_tag (json_field j "type").

Definition is_step (j : json) : bool :=
  negb (is_result j) && json_truthy (json_field j "step").

Definition step_args (j : json) : option StepEvent.t :=
  stepId ← as_step_id (json_field j "step");
  st ← as_status (json_field j "status");
  msg ← as_message (json_field j "message");
  Some (StepEvent.mk stepId st msg).

(** A step event is well typed when its fields have the types [updateStep]
    declares for its arguments. *)
Definition well_typed (j : json) : bool :=
  if is_step j then bool_decide (is_Some (step_args j)) else true.

Definition event_of (j : json) : option event :=
  if is_result j then
    Some (result_event
            (if json_truthy (json_field j "success")
             then Success (json_field j "data")
             else Failure (json_field j "error")))
  else if json_truthy (json_field j "step") then step_event <$> step_args j
  else None.

Definition step_of (e : event) : option StepEvent.t :=
  match e with
  | step_event s => Some s
  | result_event _ => None
  end.

Definition result_of (e : event) : option ExtractionResponse :=
  match e with
  | result_event r => Some r
  | step_event _ => None
  end.

Section events.
Variable JSON_parse : string → option json.

Definition frame_event (line : string) : option event :=
  match payload JSON_parse line with
  | Some (Some j) => event_of j
  | _ => None
  end.

Definition frame_typed (line : string) : Prop :=
  match payload JSON_parse line with
  | Some (Some j) => well_typed j = true
  | _ => True
  end.

(** The events of a stream, in arrival order. *)
Definition events (chunks : list string) : list event :=
  omap frame_event (frames chunks "").

Definition stream_typed (t : transport) : Prop :=
  match t with
  | streams chunks _ => Forall frame_typed (frames chunks "")
  | fetch_rejects | no_body => True
  end.

End events.

Definition outcome_map {S A} (f : S → S) (o : outcome S A) : outcome S A :=
  match o with
  | Done a s => Done a (f s)
  | Throw s => Throw (f s)
  | Unmodelled => Unmodelled
  end.

(** The step list and the result after one more event. *)
Definition event_steps (e : option event) (prev : list Step.t) : list Step.t :=
  match e with
  | Some (step_event s) => apply_event prev s
  | _ => prev
  end.

Definition event_result (e : option event) (prev : option ExtractionResponse) :=
  match e with
  | Some (result_event r) => Some r
  | _ => prev
  end.

Definition step_events (evs : list event) : list StepEvent.t := omap step_of evs.
Definition result_events (evs : list event) : list ExtractionResponse :=
  omap result_of evs.

Section session_views.
Variable JSON_parse : string → option json.

Definition is_result_frame (line : string) : bool :=
  match frame_event JSON_parse line with
  | Some (result_event _) => true
  | _ => false
  end.

(** The step list and the result a finished session shows. *)
Definition session_view (o : outcome page unit)
    : option (list Step.t * option ExtractionResponse) :=
  match o with
  | Done _ p => Some (steps p, result p)
  | _ => None
  end.

(** The first result event ends the session: the frames after it change
    neither the step list nor the result, so the session shows what it
    would show had the stream stopped at that frame. *)
Definition first_result_ends_session (chunks : list string) (p : page) : Prop :=
  ∀ n line chunks',
    frames chunks "" !! n = Some line →
    is_result_frame line = true →
    (∀ m line', m < n → frames chunks "" !! m = Some line' →
                is_result_frame line' = false) →
    frames chunks' "" = take (S n) (frames chunks "") →
    session_view (handleUpload JSON_parse (streams chunks stream_ends) p) =
      session_view (handleUpload JSON_parse (streams chunks' stream_ends) p).

End session_views.

(** The state [handleUpload] sets up before it sends the request. *)
Definition begin_session (p : page) : page :=
  setShowProcessingModal true
    (setProcessingComplete false
       (setSteps (λ _, []) (setResult None (setIsLoading true p)))).

(** The transport fails: no response, no body, or a read that rejects. *)
Definition transport_fails (t : transport) : Prop :=
  match t with
  | fetch_rejects | no_body => True
  | streams _ ending => ending = read_rejects
  end.

Definition error_code (r : ExtractionResponse) : option json :=
  match r with
  | Failure (Some e) => json_field e "code"
  | _ => None
  end.

(** *** Sample streams *)

Definition quoted (s : string) : string :=
  String "034"%char s +:+ String "034"%char "".

(** One frame on the wire: [data: <json>] and a blank line. *)
Definition sse (text : string) : string := "data: " +:+ text +:+ blank_line.

(** [{"type":"result","success":true,"data":{"extraction":{"data":{}}}}] *)
Definition success_text : string :=
  "{" +:+ quoted "type" +:+ ":" +:+ quoted "result" +:+ ","
  +:+ quoted "success" +:+ ":true,"
  +:+ quoted "data" +:+ ":{" +:+ quoted "extraction" +:+ ":{"
  +:+ quoted "data" +:+ ":{}}}}".

Definition success_json : json :=
  JObj [ ("type", JStr "result"); ("success", JBool true);
         ("data", JObj [ ("extraction", JObj [ ("data", JObj []) ]) ]) ].

(** [{"type":"result","success":false,"error":{"code":"ERR_EXTRACTION"}}] *)
Definition failure_text : string :=
  "{" +:+ quoted "type" +:+ ":" +:+ quoted "result" +:+ ","
  +:+ quoted "success" +:+ ":false,"
  +:+ quoted "error" +:+ ":{" +:+ quoted "code" +:+ ":"
  +:+ quoted "ERR_EXTRACTION" +:+ "}}".

Definition failure_json : json :=
  JObj [ ("type", JStr "result"); ("success", JBool false);
         ("error", JObj [ ("code", JStr "ERR_EXTRACTION") ]) ].

(** [{"step":<id>,"status":<status>}] *)
Definition step_text (stepId status : string) : string :=
  "{" +:+ quoted "step" +:+ ":" +:+ quoted stepId +:+ ","
  +:+ quoted "status" +:+ ":" +:+ quoted status +:+ "}".

Definition step_json (stepId status : string) : json :=
  JObj [ ("step", JStr stepId); ("status", JStr status) ].

(** A payload cut short: [{"step":] *)
Definition truncated_text : string := "{" +:+ quoted "step" +:+ ":".

(** [JSON.parse] on the sample texts; it throws on [truncated_text], as on
    every text that is not listed. *)
Definition sample_texts : list (string * json) :=
  [ (success_text, success_json);
    (failure_text, failure_json);
    (step_text "upload" "active", step_json "upload" "active");
    (step_text "upload" "complete", step_json "upload" "complete");
    (step_text "save" "active", step_json "save" "active") ].

Definition sample_parse (text : string) : option json :=
  snd <$> List.find (λ kv, String.eqb kv.1 text) sample_texts.

Definition page_with_file : page :=
  mkPage (Some "invoice.png") false None false [] false VNull false ∅ 0 0.

(** A success result followed, in a later chunk, by a step event and a
    failure result. *)
Definition late_frames : list string :=
  [ sse success_text;
    sse (step_text "save" "active") +:+ sse failure_text ].

(** Two step events with a truncated frame between them; the second chunk
    starts in the middle of the truncated frame. *)
Definition stream_with_malformed_frame : list string :=
  [ sse (step_text "upload" "active") +:+ "data: {";
    quoted "step" +:+ ":" +:+ blank_line +:+ sse (step_text "upload" "complete") ].

Definition stream_without_malformed_frame : list string :=
  [ sse (step_text "upload" "active");
    sse (step_text "upload" "complete") ].

(** *** Readings of the edit claims *)

(** The edit changes no line total and none of the totals. *)
Definition leaves_totals_unchanged (field : string) (value : val) (p : page) : Prop :=
  ∀ d, load_snapshot (store p) (editedData p) = Some d →
    ∃ p' d',
      handleEditField field value p = Done tt p'
      ∧ load_snapshot (store p') (editedData p') = Some d'
      ∧ LineItem.total <$> ExtractedData.line_items d' =
          LineItem.total <$> ExtractedData.line_items d
      ∧ ExtractedData.totals d' = ExtractedData.totals d.

(** The edit is not visible through the caller's reference: the snapshot
    the caller holds reads after the call as it read before. *)
Definition leaves_original_untouched (field : string) (value : val) (p : page) : Prop :=
  ∀ p', handleEditField field value p = Done tt p' →
    load_snapshot (store p') (editedData p) = load_snapshot (store p) (editedData p).

(** ** The upload session: what the frames leave alone *)

(** A result event that reports success. *)
Definition is_success (e : event) : bool :=
  match e with
  | result_event (Success _) => true
  | _ => false
  end.

(** [data.data.extraction.data] of a result payload; [None] when one of the
    three reads meets [undefined] or [null], or when the last one yields
    [undefined]. *)
Definition extracted_invoice (j : json) : option json :=
  payload ← json_field j "data";
  extraction ← json_field payload "extraction";
  json_field extraction "data".

Section stream_views.
Variable JSON_parse : string → option json.

(** The frame is a success result whose [data.extraction.data] is the
    invoice [d]. *)
Definition carries_invoice (line : string) (d : ExtractedData.t) : Prop :=
  ∃ j, payload JSON_parse line = Some (Some j)
       ∧ is_result j = true
       ∧ json_truthy (json_field j "success") = true
       ∧ extracted_invoice j = Some (json_of_invoice d).

(** No frame of the stream is a result event that reports success. *)
Definition without_success (t : transport) : Prop :=
  match t with
  | streams chunks _ =>
      Forall (λ e, is_success e = false) (events JSON_parse chunks)
  | fetch_rejects | no_body => True
  end.

End stream_views.

(** The line feed, and a text that holds none. *)
Definition line_feed : string := String "010"%char "".

Definition without_line_feed (text : string) : Prop :=
  includes line_feed text = false.

(** A comment frame of the event stream, as servers send to keep the
    connection open. *)
Definition keep_alive : string := ": keep-alive".

(** *** More sample streams *)

Definition setFile (f : option string) (p : page) : page :=
  mkPage f (isLoading p) (result p) (saveToDb p) (steps p) (showProcessingModal p)
         (editedData p) (processingComplete p) (store p) (console_errors p)
         (stats_requests p).

(** JSON text, piece by piece. *)
Definition member (k v : string) : string := quoted k +:+ ":" +:+ v.

Fixpoint joined (sep : string) (xs : list string) : string :=
  match xs with
  | [] => ""
  | [x] => x
  | x :: rest => x +:+ sep +:+ joined sep rest
  end.

Definition object_text (members : list string) : string :=
  "{" +:+ joined "," members +:+ "}".

Definition array_text (elems : list string) : string :=
  "[" +:+ joined "," elems +:+ "]".

(** [{"type":"result","success":true}]: a success result without data. *)
Definition bare_success_text : string :=
  object_text [ member "type" (quoted "result"); member "success" "true" ].

Definition bare_success_json : json :=
  JObj [ ("type", JStr "result"); ("success", JBool true) ].

(** The text of the result event that carries [sample_invoice]. *)
Definition sample_address_text : string :=
  object_text [ member "name" (quoted "Acme Corp");
                member "address" (quoted "1 Main St");
                member "city" (quoted "Springfield");
                member "state" (quoted "IL");
                member "zip" (quoted "62701") ].

Definition sample_invoice_text : string :=
  object_text
    [ member "header"
        (object_text [ member "invoice_number" (quoted "INV-1");
                       member "date" (quoted "2024-01-15");
                       member "customer_id" "null";
                       member "company_name" (quoted "Acme Corp");
                       member "bill_to" sample_address_text;
                       member "ship_to" sample_address_text ]);
      member "line_items"
        (array_text
           [ object_text [ member "item_number" (quoted "A-1");
                           member "description" (quoted "Widget");
                           member "quantity" "5";
                           member "unit_price" "10";
                           member "total" "50" ];
             object_text [ member "item_number" (quoted "B-2");
                           member "description" (quoted "Gadget");
                           member "quantity" "2";
                           member "unit_price" "25";
                           member "total" "50" ] ]);
      member "totals"
        (object_text [ member "subtotal" "100";
                       member "tax_rate" "8";
                       member "tax_amount" "8";
                       member "shipping" "5";
                       member "total" "113" ]) ].

Definition sample_result_text : string :=
  object_text
    [ member "type" (quoted "result");
      member "success" "true";
      member "data"
        (object_text
           [ member "extraction"
               (object_text [ member "success" "true";
                              member "provider" (quoted "openai");
                              member "confidence" "0.875";
                              member "data" sample_invoice_text ]);
             member "validation"
               (object_text [ member "is_valid" "true";
                              member "issues" (array_text []) ]);
             member "database"
               (object_text [ member "saved" "false";
                              member "order_id" "null" ]) ]) ].

Definition sample_result_json : json :=
  JObj [ ("type", JStr "result");
         ("success", JBool true);
         ("data",
          JObj [ ("extraction",
                  JObj [ ("success", JBool true);
                         ("provider", JStr "openai");
                         ("confidence", JNum 0.875%float);
                         ("data", json_of_invoice sample_invoice) ]);
                 ("validation",
                  JObj [ ("is_valid", JBool true); ("issues", JArr []) ]);
                 ("database",
                  JObj [ ("saved", JBool false); ("order_id", JNull) ]) ]) ].

(** [JSON.parse] on the sample texts and the two above. *)
Definition more_texts : list (string * json) :=
  sample_texts
  ++ [ (bare_success_text, bare_success_json);
       (sample_result_text, sample_result_json) ].

Definition more_parse (text : string) : option json :=
  snd <$> List.find (λ kv, String.eqb kv.1 text) more_texts.

(** A page with a file selected that still holds the invoice of an earlier
    session. *)
Definition page_with_earlier_invoice : page :=
  setFile (Some "second.png") (page_editing draft_invoice).

(** A session that reports one step and then fails. *)
Definition failing_stream : list string :=
  [ sse (step_text "upload" "active"); sse failure_text ].

(** The stream of a successful extraction of [sample_invoice]: a step,
    the result, a closing step. *)
Definition successful_stream : list string :=
  [ sse (step_text "upload" "active");
    sse sample_result_text +:+ sse (step_text "save" "active") ].

(** [successful_stream] cut at other places, and with a keep-alive comment
    between the frames. *)
Definition successful_stream_recut : list string :=
  [ sse (step_text "upload" "active") +:+ "data: ";
    sample_result_text +:+ blank_line;
    sse (step_text "save" "active") ].

Definition successful_stream_with_comment : list string :=
  [ sse (step_text "upload" "active") +:+ keep_alive +:+ blank_line;
    sse sample_result_text +:+ sse (step_text "save" "active") ].

(** ** The quantity box of the edit form *)

(** The number value of an integer that [parseInt] returns: the integer
    rounded to binary64.  (Integers of magnitude 2^63 and more are not
    modelled.) *)
Definition number_of_int (z : Z) : option float :=
  if (Z.abs z <? 2 ^ 63)%Z
  then let x := PrimFloat.of_uint63 (Uint63.of_Z (Z.abs z)) in
       Some (if (z <? 0)%Z then PrimFloat.opp x else x)
  else None.

(** [parseInt(text) || 0]; [None] is an integer that is not modelled. *)
Definition parseInt_or_zero (text : string) : option val :=
  match parseInt text with
  | None => Some (VNum PrimFloat.zero)          (* NaN || 0 *)
  | Some z =>
      x ← number_of_int z;
      Some (VNum (if PrimFloat.is_zero x then PrimFloat.zero else x))
  end.

(** [onChange] of the quantity box of line [i]:
    [handleEditField(`line_items.${i}.quantity`, parseInt(e.target.value) || 0)]. *)
Definition onQuantityChange (i : nat) (text : string) : M page unit :=
  match parseInt_or_zero text with
  | Some value => handleEditField (item_path i "quantity") value
  | None => unmodelled
  end.

(** ** Saving the edits ([handleSaveEdits]) *)

(** [v.k1.k2...] read from the store, without effect; [None] when a step
    does not meet an object that holds the key. *)
Fixpoint read (h : heap) (v : val) (keys : list string) : option val :=
  match keys with
  | [] => Some v
  | k :: rest =>
      match v with
      | VRef l =>
          match h !! l with
          | Some (Obj m) => v' ← m !! k; read h v' rest
          | _ => None
          end
      | _ => None
      end
  end.

(** [{ ...base, k: v }] *)
Definition extend (base : val) (k : string) (v : val) : M heap val :=
  o ← spread base;
  set_prop o k v;;
  mret o.

(** A primitive of a parsed reply as a value; [None] is [undefined] on the
    left, and an array or an object on the right. *)
Definition prim (v : option json) : option val :=
  match v with
  | None => Some VUndef
  | Some JNull => Some VNull
  | Some (JBool b) => Some (VBool b)
  | Some (JNum x) => Some (VNum x)
  | Some (JStr s) => Some (VStr s)
  | Some (JArr _ | JObj _) => None
  end.

(** What an updater passed to a state setter throws is thrown while React
    renders, outside the [try] of the handler that queued it: it is not
    modelled. *)
Definition at_render {S A} (m : M S A) : M S A :=
  λ s, match m s with
       | Throw _ => Unmodelled
       | r => r
       end.

Module SaveEdits.

(** The state variables [handleSaveEdits] reads or writes, with the object
    store and the counters of [console.error] and [fetchStats] calls.
    [result] is a value in the store here: the handler builds the new
    result from the objects of the previous one and from [editedData]. *)
Record state := mkState {
  isLoading : bool;
  result : val;
  editedData : val;
  showEditModal : bool;
  showResultsModal : bool;
  store : heap;
  console_errors : nat;
  stats_requests : nat;
}.

Definition setIsLoading (b : bool) (s : state) : state :=
  mkState b (result s) (editedData s) (showEditModal s) (showResultsModal s)
          (store s) (console_errors s) (stats_requests s).

Definition setResult (v : val) (s : state) : state :=
  mkState (isLoading s) v (editedData s) (showEditModal s) (showResultsModal s)
          (store s) (console_errors s) (stats_requests s).

Definition setShowEditModal (b : bool) (s : state) : state :=
  mkState (isLoading s) (result s) (editedData s) b (showResultsModal s)
          (store s) (console_errors s) (stats_requests s).

Definition setShowResultsModal (b : bool) (s : state) : state :=
  mkState (isLoading s) (result s) (editedData s) (showEditModal s) b
          (store s) (console_errors s) (stats_requests s).

Definition set_store (h : heap) (s : state) : state :=
  mkState (isLoading s) (result s) (editedData s) (showEditModal s)
          (showResultsModal s) h (console_errors s) (stats_requests s).

Definition console_error (s : state) : state :=
  mkState (isLoading s) (result s) (editedData s) (showEditModal s)
          (showResultsModal s) (store s) (S (console_errors s)) (stats_requests s).

Definition fetchStats (s : state) : state :=
  mkState (isLoading s) (result s) (editedData s) (showEditModal s)
          (showResultsModal s) (store s) (console_errors s) (S (stats_requests s)).

Definition on_store {A} (m : M heap A) : M state A :=
  λ s, match m (store s) with
       | Done a h => Done a (set_store h s)
       | Throw h => Throw (set_store h s)
       | Unmodelled => Unmodelled
       end.

(** What the save request comes to: [fetch] rejects, [response.json()]
    rejects, or the body parses to [data]. *)
Inductive reply :=
| request_rejects
| body_rejects
| replies (data : json).

(** The updater passed to [setResult]:
    [prev => prev ? { ...prev, data: { ...prev.data!,
       extraction: { ...prev.data!.extraction, data: editedData },
       database: { saved: true, order_id: data.data.order_id } } } : null].
    The objects of the inner literals are made before the outer ones. *)
Definition saved_result (edited : val) (data : json) (prev : val) : M heap val :=
  if negb (truthy prev) then mret VNull
  else
    prev_data ← get_prop prev "data";
    prev_extraction ← get_prop prev_data "extraction";
    extraction ← extend prev_extraction "data" edited;
    reply_data ← json_get (Some data) "data";
    order_id ← json_get reply_data "order_id";
    database ← match prim order_id with
               | Some oid =>
                   alloc (Obj (list_to_map [ ("saved", VBool true);
                                             ("order_id", oid) ]))
               | None => unmodelled
               end;
    new_data ← spread prev_data;
    set_prop new_data "extraction" extraction;;
    set_prop new_data "database" database;;
    extend prev "data" new_data.

Definition handleSaveEdits (r : reply) : M state unit :=
  s ← get_state;
  (* if (!editedData) return; *)
  if negb (truthy (editedData s)) then mret tt
  else
    modify (setIsLoading true);;
    try_finally
      (try_catch
         (data ← match r with
                 | request_rejects | body_rejects => throw
                 | replies data => mret data
                 end;
          success ← json_get (Some data) "success";
          if json_truthy success then
            new ← at_render (on_store (saved_result (editedData s) data (result s)));
            modify (setResult new);;
            modify (setShowEditModal false);;
            modify (setShowResultsModal true);;
            modify fetchStats
          else mret tt)
         (modify console_error))
      (modify (setIsLoading false)).

(** [result] is an object whose [data] and [data.extraction] are objects,
    as a result event of a successful extraction has them. *)
Definition holds_extraction (h : heap) (v : val) : Prop :=
  ∃ r m ld md le me,
    v = VRef r
    ∧ h !! r = Some (Obj m)
    ∧ m !! "data" = Some (VRef ld)
    ∧ h !! ld = Some (Obj md)
    ∧ md !! "extraction" = Some (VRef le)
    ∧ h !! le = Some (Obj me).

(** The reply reports success and carries the primitive [oid] as
    [data.order_id]. *)
Definition reports_order (data : json) (oid : val) : Prop :=
  json_truthy (json_field data "success") = true
  ∧ ∃ rd, json_field data "data" = Some rd
          ∧ rd ≠ JNull
          ∧ prim (json_field rd "order_id") = Some oid.

(** The save did not go through: no reply, a body that is no JSON, the
    body [null], or a reply whose [success] is falsy. *)
Definition refused (r : reply) : Prop :=
  match r with
  | request_rejects | body_rejects => True
  | replies data => data = JNull ∨ json_truthy (json_field data "success") = false
  end.

(** The [console.error] calls of a save that did not go through. *)
Definition errors_logged (r : reply) : nat :=
  match r with
  | request_rejects | body_rejects | replies JNull => 1
  | replies _ => 0
  end.

(** [{"success":false,"error":{"code":"ERR_SAVE"}}] *)
Definition refusal : json :=
  JObj [ ("success", JBool false); ("error", JObj [ ("code", JStr "ERR_SAVE") ]) ].

(** [{"success":true,"data":{"order_id":n}}] *)
Definition saved_reply (n : float) : json :=
  JObj [ ("success", JBool true); ("data", JObj [ ("order_id", JNum n) ]) ].

(** The result of a successful extraction of [d], not saved. *)
Definition extraction_payload (d : ExtractedData.t) : json :=
  JObj [ ("success", JBool true);
         ("data",
          JObj [ ("extraction",
                  JObj [ ("success", JBool true);
                         ("provider", JStr "openai");
                         ("confidence", JNum 0.875%float);
                         ("data", json_of_invoice d) ]);
                 ("validation",
                  JObj [ ("is_valid", JBool true); ("issues", JArr []) ]);
                 ("database",
                  JObj [ ("saved", JBool false); ("order_id", JNull) ]) ]) ].

(** The state after the extraction of [d]: the result, and apart from it
    the copy that is edited. *)
Definition after_extraction (d : ExtractedData.t) : state :=
  match alloc_json (extraction_payload d) ∅ with
  | Done r h =>
      match alloc_json (json_of_invoice d) h with
      | Done e h' => mkState false r e true false h' 0 0
      | _ => mkState false VNull VNull false false ∅ 0 0
      end
  | _ => mkState false VNull VNull false false ∅ 0 0
  end.

End SaveEdits.

(** [handleEditField] in the state of the save flow: it reads and writes
    [editedData] and the store, and leaves the other variables as they
    are. *)
Definition page_of_save_state (s : SaveEdits.state) : page :=
  mkPage None (SaveEdits.isLoading s) None false [] false (SaveEdits.editedData s)
         false (SaveEdits.store s) (SaveEdits.console_errors s)
         (SaveEdits.stats_requests s).

Definition edited_save_state (p : page) (s : SaveEdits.state) : SaveEdits.state :=
  SaveEdits.mkState (SaveEdits.isLoading s) (SaveEdits.result s) (editedData p)
    (SaveEdits.showEditModal s) (SaveEdits.showResultsModal s) (store p)
    (SaveEdits.console_errors s) (SaveEdits.stats_requests s).

Definition handleEditField_after_save (field : string) (value : val)
    : M SaveEdits.state unit :=
  λ s, match handleEditField field value (page_of_save_state s) with
       | Done a p => Done a (edited_save_state p s)
       | Throw p => Throw (edited_save_state p s)
       | Unmodelled => Unmodelled
       end.

(** ** The invoices listing ([InvoicesPage]) *)

Module Orders.

(** The requests of the page:
    [/api/database/orders?page=${page}&per_page=15],
    [/api/database/stats?extracted_only=true] and
    [/api/database/details?order_id=${orderId}]. *)
Inductive request :=
| orders_page (page : Z)
| stats_request
| details (orderId : Z).

(** What a request comes to: [fetch] rejects, [res.json()] rejects, or the
    body parses to [data]. *)
Inductive reply :=
| request_rejects
| body_rejects
| replies (data : json).

(** The state variables of [InvoicesPage], with the number of
    [console.error] calls and the requests made so far.  Order ids and
    page numbers are integers, modelled in [Z]; what the server sends is
    kept as parsed JSON, [None] being [undefined].  [orderDetails] is keyed
    by order id. *)
Record state := mkState {
  orders : option json;
  pagination : option json;
  page : Z;
  isLoading : bool;
  stats : option json;
  expandedOrder : option Z;
  orderDetails : gmap Z (option json);
  loadingDetails : option Z;
  console_errors : nat;
  requests : list request;
}.

Definition setOrders (v : option json) (s : state) : state :=
  mkState v (pagination s) (page s) (isLoading s) (stats s) (expandedOrder s)
          (orderDetails s) (loadingDetails s) (console_errors s) (requests s).

Definition setPagination (v : option json) (s : state) : state :=
  mkState (orders s) v (page s) (isLoading s) (stats s) (expandedOrder s)
          (orderDetails s) (loadingDetails s) (console_errors s) (requests s).

Definition setPage (f : Z → Z) (s : state) : state :=
  mkState (orders s) (pagination s) (f (page s)) (isLoading s) (stats s)
          (expandedOrder s) (orderDetails s) (loadingDetails s) (console_errors s)
          (requests s).

Definition setIsLoading (b : bool) (s : state) : state :=
  mkState (orders s) (pagination s) (page s) b (stats s) (expandedOrder s)
          (orderDetails s) (loadingDetails s) (console_errors s) (requests s).

Definition setStats (v : option json) (s : state) : state :=
  mkState (orders s) (pagination s) (page s) (isLoading s) v (expandedOrder s)
          (orderDetails s) (loadingDetails s) (console_errors s) (requests s).

Definition setExpandedOrder (v : option Z) (s : state) : state :=
  mkState (orders s) (pagination s) (page s) (isLoading s) (stats s) v
          (orderDetails s) (loadingDetails s) (console_errors s) (requests s).

Definition setOrderDetails (f : gmap Z (option json) → gmap Z (option json))
    (s : state) : state :=
  mkState (orders s) (pagination s) (page s) (isLoading s) (stats s)
          (expandedOrder s) (f (orderDetails s)) (loadingDetails s)
          (console_errors s) (requests s).

Definition setLoadingDetails (v : option Z) (s : state) : state :=
  mkState (orders s) (pagination s) (page s) (isLoading s) (stats s)
          (expandedOrder s) (orderDetails s) v (console_errors s) (requests s).

Definition console_error (s : state) : state :=
  mkState (orders s) (pagination s) (page s) (isLoading s) (stats s)
          (expandedOrder s) (orderDetails s) (loadingDetails s)
          (S (console_errors s)) (requests s).

Definition sent (req : request) (s : state) : state :=
  mkState (orders s) (pagination s) (page s) (isLoading s) (stats s)
          (expandedOrder s) (orderDetails s) (loadingDetails s) (console_errors s)
          (requests s ++ [req]).

Section handlers.
(** The server: what each request comes to. *)
Variable server : request → reply.

(** [const res = await fetch(url); const data = await res.json();] *)
Definition fetch_json (req : request) : M state json :=
  modify (sent req);;
  match server req with
  | request_rejects | body_rejects => throw
  | replies data => mret data
  end.

Definition fetchOrders : M state unit :=
  modify (setIsLoading true);;
  try_finally
    (try_catch
       (s ← get_state;
        data ← fetch_json (orders_page (page s));
        (* if (data.success && data.data) *)
        success ← json_get (Some data) "success";
        if json_truthy success then
          payload ← json_get (Some data) "data";
          if json_truthy payload then
            items ← json_get payload "items";
            modify (setOrders items);;
            meta ← json_get (Some data) "meta";
            modify (setPagination meta)
          else mret tt
        else mret tt)
       (modify console_error))
    (modify (setIsLoading false)).

Definition fetchStats : M state unit :=
  try_catch
    (data ← fetch_json stats_request;
     success ← json_get (Some data) "success";
     if json_truthy success then
       payload ← json_get (Some data) "data";
       modify (setStats payload)
     else mret tt)
    (modify console_error).

(** [orderDetails[orderId]] *)
Definition details_of (s : state) (orderId : Z) : option json :=
  default None (orderDetails s !! orderId).

Definition fetchOrderDetails (orderId : Z) : M state unit :=
  s ← get_state;
  if json_truthy (details_of s orderId) then
    (* Already loaded *)
    modify (setExpandedOrder
              (if bool_decide (expandedOrder s = Some orderId)
               then None else Some orderId))
  else
    modify (setLoadingDetails (Some orderId));;
    try_finally
      (try_catch
         (data ← fetch_json (details orderId);
          success ← json_get (Some data) "success";
          if json_truthy success then
            payload ← json_get (Some data) "data";
            if json_truthy payload then
              items ← json_get payload "items";
              modify (setOrderDetails (λ prev, <[orderId := items]> prev));;
              modify (setExpandedOrder (Some orderId))
            else mret tt
          else mret tt)
         (modify console_error))
      (modify (setLoadingDetails None)).

(** [useEffect(() => { fetchOrders(); fetchStats(); }, [page])]: the two
    requests touch different state variables, so the order in which they
    settle plays no part; here the orders settle first. *)
Definition page_effect : M state unit :=
  fetchOrders;; fetchStats.

(** A click on [Previous] or [Next]: the [setPage] updater, and the effect
    when the page number has changed.  (Each click is handled after the
    requests of the one before have settled.) *)
Definition click (c : InvoicesPage.click) : M state unit :=
  s ← get_state;
  let p := InvoicesPage.setPage c (page s) in
  if bool_decide (p = page s) then mret tt
  else modify (setPage (λ _, p));; page_effect.

(** Clicks on order rows, one after the other, each handled after the
    request of the one before has settled. *)
Definition row_clicks (ids : list Z) : M state unit :=
  for_each fetchOrderDetails ids.

End handlers.

(** The reply does not deliver: no reply, no JSON, [null], or a body whose
    [success] or [data] is falsy. *)
Definition refused (r : reply) : Prop :=
  match r with
  | request_rejects | body_rejects => True
  | replies data =>
      json_truthy (json_field data "success") = false
      ∨ json_truthy (json_field data "data") = false
  end.

(** The reply delivers [items]: [success] and [data] are truthy and
    [data.items] is [items]. *)
Definition delivers (r : reply) (items : json) : Prop :=
  ∃ data payload,
    r = replies data
    ∧ json_truthy (json_field data "success") = true
    ∧ json_field data "data" = Some payload
    ∧ json_truthy (Some payload) = true
    ∧ json_field payload "items" = Some items.

(** The requests made from [s] on. *)
Definition requests_since (s s' : state) : list request :=
  drop (length (requests s)) (requests s').

End Orders.

(** *** A sample listing *)

Module OrdersSample.

(** [{"success":true,"data":{"items":[{"SalesOrderDetailID":1}]}}] *)
Definition details_reply : json :=
  JObj [ ("success", JBool true);
         ("data", JObj [ ("items", JArr [ JObj [ ("SalesOrderDetailID", JNum 1%float) ] ]) ]) ].

(** [{"success":true,"data":{"items":[]},"meta":{"pagination":{"page":n}}}] *)
Definition page_reply (n : float) : json :=
  JObj [ ("success", JBool true);
         ("data", JObj [ ("items", JArr []) ]);
         ("meta", JObj [ ("pagination", JObj [ ("page", JNum n) ]) ]) ].

(** A server that knows order 71 and no other, and that fails on page 2
    of the listing. *)
Definition server (req : Orders.request) : Orders.reply :=
  match req with
  | Orders.details 71 => Orders.replies details_reply
  | Orders.details _ => Orders.request_rejects
  | Orders.orders_page 2 => Orders.request_rejects
  | Orders.orders_page 3 => Orders.replies (page_reply 3%float)
  | Orders.orders_page _ => Orders.replies (page_reply 1%float)
  | Orders.stats_request => Orders.body_rejects
  end.

(** The page after its first load: page 1, nothing expanded. *)
Definition loaded : Orders.state :=
  Orders.mkState (Some (JArr [])) (Some (JObj [ ("pagination", JObj [ ("page", JNum 1%float) ]) ]))
    1 false None None ∅ None 0 [].

(** The same page with the details of order 71 loaded. *)
Definition with_details : Orders.state :=
  Orders.setOrderDetails
    (λ prev, <[71%Z := Some (JArr [ JObj [ ("SalesOrderDetailID", JNum 1%float) ] ])]> prev)
    loaded.

End OrdersSample.
(** * Properties *)

Section steps.
Implicit Types (evs : list StepEvent.t) (prev : list Step.t).

Lemma run_steps_snoc evs e :
  run_steps (evs ++ [e]) = apply_event (run_steps evs) e.
Proof. unfold run_steps. by rewrite fold_left_app. Qed.

Lemma find_step_None x prev :
  List.find (λ s, bool_decide (Step.id s = x)) prev = None ↔ x ∉ Step.id <$> prev.
Proof.
  induction prev as [|s prev IH]; simpl.
  - split; [intros _; apply not_elem_of_nil | done].
  - case_bool_decide as Hs.
    + split; [done |]. intros Hn. exfalso. apply Hn. subst x. apply elem_of_cons; by left.
    + rewrite IH, not_elem_of_cons. split; [by intros ? | by intros [_ ?]].
Qed.

Lemma updateStep_ids x st m prev :
  Step.id <$> updateStep x st m prev =
    if decide (x ∈ Step.id <$> prev) then Step.id <$> prev
    else (Step.id <$> prev) ++ [x].
Proof.
  unfold updateStep.
  destruct (List.find _ prev) eqn:Hf.
  - rewrite decide_True.
    + rewrite <- list_fmap_compose. apply list_fmap_ext.
      intros i s _. simpl. by case_bool_decide.
    + destruct (decide (x ∈ Step.id <$> prev)) as [|Hn]; [done |].
      apply find_step_None in Hn. congruence.
  - apply find_step_None in Hf. rewrite decide_False by done.
    by rewrite fmap_app.
Qed.
End steps.

Section steps_results.
Implicit Types (evs : list StepEvent.t) (prev : list Step.t).

Lemma run_steps_ids_snoc evs e :
  Step.id <$> run_steps (evs ++ [e]) =
    if decide (StepEvent.step e ∈ Step.id <$> run_steps evs)
    then Step.id <$> run_steps evs
    else (Step.id <$> run_steps evs) ++ [StepEvent.step e].
Proof. rewrite run_steps_snoc. apply updateStep_ids. Qed.

Lemma run_steps_first_seen evs : first_seen_order evs (run_steps evs).
Proof.
  unfold first_seen_order.
  induction evs as [|e evs (Hnd & Hmem & Hord)] using rev_ind.
  { split_and!; [constructor | done |]. intros i j a b Hi. by destruct i. }
  rewrite run_steps_ids_snoc, fmap_app. simpl.
  set (ids := Step.id <$> run_steps evs) in *.
  set (seen := StepEvent.step <$> evs) in *.
  set (x := StepEvent.step e).
  destruct (decide (x ∈ ids)) as [Hin|Hout].
  - split_and!; [done | |].
    + intros y. rewrite Hmem, elem_of_app, list_elem_of_singleton.
      split; [by left |]. intros [?| ->]; [done | by apply Hmem].
    + intros i j a b Hi Hj Hij.
      destruct (Hord i j a b Hi Hj Hij) as (k & Hk & Hb).
      pose proof (lookup_lt_Some _ _ _ Hk) as Hlt.
      exists k. split; [by rewrite lookup_app_l |].
      by rewrite take_app_le by lia.
  - assert (x ∉ seen) as Hfresh by (by rewrite <- Hmem).
    split_and!.
    + apply NoDup_app. split_and!; [done | | apply NoDup_singleton].
      intros y Hy ->%list_elem_of_singleton. done.
    + intros y. rewrite !elem_of_app, Hmem. done.
    + intros i j a b Hi Hj Hij.
      destruct (decide (j < length ids)) as [Hj'|Hj'].
      * rewrite lookup_app_l in Hi, Hj by lia.
        destruct (Hord i j a b Hi Hj Hij) as (k & Hk & Hb).
        pose proof (lookup_lt_Some _ _ _ Hk) as Hlt.
        exists k. split; [by rewrite lookup_app_l |].
        by rewrite take_app_le by lia.
      * pose proof (lookup_lt_Some _ _ _ Hj) as Hlt.
        rewrite length_app in Hlt. simpl in Hlt.
        assert (j = length ids) as -> by lia.
        rewrite lookup_app_l in Hi by lia.
        rewrite list_lookup_middle in Hj by done. injection Hj as <-.
        assert (a ∈ seen) as Ha.
        { apply Hmem. by eapply list_elem_of_lookup_2. }
        apply list_elem_of_lookup in Ha as [k Hk].
        pose proof (lookup_lt_Some _ _ _ Hk) as Hlt'.
        exists k. split; [by rewrite lookup_app_l |].
        rewrite take_app_le by lia.
        intros Hx%elem_of_take. destruct Hx as (k' & Hk' & _).
        apply Hfresh. by eapply list_elem_of_lookup_2.
Qed.

Lemma events_for_snoc x evs e :
  events_for x (evs ++ [e]) =
    events_for x evs ++ (if decide (StepEvent.step e = x) then [e] else []).
Proof.
  unfold events_for. by rewrite filter_app.
Qed.

Lemma events_for_nil x evs :
  x ∉ StepEvent.step <$> evs → events_for x evs = [].
Proof.
  intros Hx. induction evs as [|e evs IH]; [done |].
  rewrite fmap_cons, not_elem_of_cons in Hx. destruct Hx as [Hne Hx].
  unfold events_for. rewrite filter_cons, decide_False by done. by apply IH.
Qed.

Lemma retained_message_snoc e0 rest e :
  retained_message e0 (rest ++ [e]) =
    or_str (StepEvent.message e) (retained_message e0 rest).
Proof.
  unfold retained_message, or_str.
  rewrite fmap_app, filter_app. simpl. rewrite filter_cons, filter_nil.
  destruct (truthy_str (StepEvent.message e)) eqn:Ht.
  - rewrite decide_True by done. by rewrite last_snoc.
  - rewrite decide_False by congruence. by rewrite app_nil_r.
Qed.

Lemma run_steps_entries evs :
  carries_latest_status_retained_message evs (run_steps evs).
Proof.
  unfold carries_latest_status_retained_message.
  induction evs as [|e evs IH] using rev_ind.
  { intros s Hs. by apply elem_of_nil in Hs. }
  pose proof (run_steps_first_seen evs) as (_ & Hmem & _).
  rewrite run_steps_snoc. unfold apply_event, updateStep.
  set (x := StepEvent.step e).
  destruct (List.find _ (run_steps evs)) eqn:Hf.
  - intros s (s0 & -> & Hs0)%list_elem_of_fmap.
    destruct (IH s0 Hs0) as (e0 & rest & Hev & Hst & Hlab & Hmsg).
    case_bool_decide as Hid; simpl.
    + exists e0, (rest ++ [e]). rewrite events_for_snoc, Hev.
      rewrite decide_True by done.
      split_and!; [done | by rewrite List.last_last | done |].
      by rewrite retained_message_snoc, Hmsg.
    + exists e0, rest. rewrite events_for_snoc, Hev.
      rewrite decide_False by done. by rewrite app_nil_r.
  - apply find_step_None in Hf.
    intros s [Hs| ->%list_elem_of_singleton]%elem_of_app.
    + destruct (IH s Hs) as (e0 & rest & Hev & Hst & Hlab & Hmsg).
      assert (x ≠ Step.id s) as Hne.
      { intros Heq. apply Hf. rewrite Heq. apply list_elem_of_fmap. eauto. }
      exists e0, rest. rewrite events_for_snoc, Hev.
      rewrite decide_False by done. by rewrite app_nil_r.
    + simpl. exists e, []. rewrite events_for_snoc.
      rewrite events_for_nil by (by rewrite <- Hmem).
      by rewrite decide_True.
Qed.

End steps_results.

(** C2 (as amended).  For every sequence of step events processed by
    [updateStep] from the empty list, the step list holds each step id
    exactly once, in the order the ids were first seen; each entry carries
    the status of the most recent event of its id, the label of its id, and
    the most recent non-empty message among the repeats of that id (the
    first event's message when no repeat carries one). *)
Theorem updateStep_upsert_first_seen_latest_status (evs : list StepEvent.t) :
  first_seen_order evs (run_steps evs)
  ∧ carries_latest_status_retained_message evs (run_steps evs).
Proof. split; [apply run_steps_first_seen | apply run_steps_entries]. Qed.

(** C2 fails as stated: after [upload] is reported active with a message and
    then complete without one, the entry still shows the old message, not
    the (absent) message of the most recent event. *)
Lemma updateStep_latest_message_counterexample :
  run_steps repeated_upload_events =
    [ Step.mk "upload" "Reading image" complete (Some "Reading image...");
      Step.mk "analyze" "Analyzing with AI" active None ]
  ∧ ¬ carries_latest repeated_upload_events (run_steps repeated_upload_events).
Proof.
  split; [by vm_compute |].
  intros H.
  destruct (H (Step.mk "upload" "Reading image" complete (Some "Reading image...")))
    as (e & He & _ & Hm).
  { vm_compute. apply elem_of_cons; by left. }
  vm_compute in He. injection He as <-. discriminate Hm.
Qed.

(** C9.  A repeated step event whose message is absent or empty keeps the
    stored message of the step and replaces its status; every other entry,
    and the length of the list, are unchanged. *)
Theorem updateStep_repeat_without_message_keeps_message
    (x : string) (st : StepStatus) (m : option string) (prev : list Step.t) :
  x ∈ Step.id <$> prev →
  m = None ∨ m = Some "" →
  length (updateStep x st m prev) = length prev
  ∧ ∀ i s, prev !! i = Some s →
      updateStep x st m prev !! i =
        Some (if decide (Step.id s = x)
              then Step.mk (Step.id s) (Step.label s) st (Step.message s)
              else s).
Proof.
  intros Hin Hm. unfold updateStep.
  destruct (List.find _ prev) eqn:Hf.
  2:{ apply find_step_None in Hf. done. }
  split; [by rewrite length_map |].
  intros i s Hi. change (map ?f prev) with (f <$> prev).
  rewrite list_lookup_fmap, Hi. simpl.
  assert (or_str m (Step.message s) = Step.message s) as ->.
  { by destruct Hm as [-> | ->]. }
  case_bool_decide; [by rewrite decide_True | by rewrite decide_False].
Qed.

Lemma updateStep_repeat_without_message_keeps_message_witness :
  length (updateStep "upload" complete (Some "")
            [Step.mk "upload" "Reading image" active (Some "Reading image...")]) = 1
  ∧ ∀ i s,
      [Step.mk "upload" "Reading image" active (Some "Reading image...")] !! i = Some s →
      updateStep "upload" complete (Some "")
        [Step.mk "upload" "Reading image" active (Some "Reading image...")] !! i =
        Some (if decide (Step.id s = "upload")
              then Step.mk (Step.id s) (Step.label s) complete (Step.message s)
              else s).
Proof.
  apply (updateStep_repeat_without_message_keeps_message "upload" complete (Some "")
           [Step.mk "upload" "Reading image" active (Some "Reading image...")]).
  - simpl. apply elem_of_cons; by left.
  - by right.
Defined.

(** C10.  The page number of the invoices listing starts at 1, [Previous]
    sets it to [max 1 (page - 1)], [Next] sets it to [page + 1], and after
    any sequence of clicks it is at least 1. *)
Theorem page_number_at_least_one :
  InvoicesPage.initial_page = 1%Z
  ∧ (∀ p, InvoicesPage.setPage InvoicesPage.Previous p = Z.max 1 (p - 1))
  ∧ (∀ p, InvoicesPage.setPage InvoicesPage.Next p = (p + 1)%Z)
  ∧ ∀ cs, (1 ≤ InvoicesPage.after_clicks cs)%Z.
Proof.
  split_and!; [done | done | done |].
  intros cs. unfold InvoicesPage.after_clicks.
  assert (∀ p, (1 ≤ p)%Z →
            (1 ≤ fold_left (λ p c, InvoicesPage.setPage c p) cs p)%Z) as Hinv.
  { induction cs as [|c cs IH]; intros p Hp; [done |].
    simpl. apply IH. destruct c; simpl; lia. }
  by apply Hinv.
Qed.

(** ** Strings: paths, indices and [parseInt] *)

Lemma digits_value_string_of_uint d acc :
  digits_value 10 decimal_digit (NilEmpty.string_of_uint d) acc =
    Nat.of_uint_acc d acc.
Proof.
  revert acc. induction d; intros acc; simpl; [done | rewrite IHd, Nat.tail_mul_spec; f_equal; lia ..].
Qed.

Lemma to_uint_not_nil i : Nat.to_uint i ≠ Decimal.Nil.
Proof.
  rewrite <- (DecimalNat.Unsigned.of_to i) at 1.
  rewrite DecimalNat.Unsigned.to_of. unfold Decimal.unorm.
  by destruct (Decimal.nzhead _).
Qed.

Ltac eval_char_tests :=
  repeat match goal with
    | |- context [is_white_space (Ascii ?a ?b ?c ?d ?e ?f ?g ?h)] =>
        let r := eval vm_compute in (is_white_space (Ascii a b c d e f g h)) in
        change (is_white_space (Ascii a b c d e f g h)) with r
    | |- context [decimal_digit (Ascii ?a ?b ?c ?d ?e ?f ?g ?h)] =>
        let r := eval vm_compute in (decimal_digit (Ascii a b c d e f g h)) in
        change (decimal_digit (Ascii a b c d e f g h)) with r
    end.

Lemma parseInt_string_of_uint d :
  d ≠ Decimal.Nil →
  parseInt (NilEmpty.string_of_uint d) = Some (Z.of_nat (Nat.of_uint d)).
Proof.
  intros Hd. unfold Nat.of_uint. rewrite <- digits_value_string_of_uint.
  unfold parseInt.
  destruct d as [|d|d|d|d|d|d|d|d|d|d]; try done;
    cbn [NilEmpty.string_of_uint skip_white_space]; eval_char_tests; cbv iota beta.
  2-10: unfold leading_digits; eval_char_tests; cbn [fmap option_fmap option_map];
    f_equal; lia.
  destruct d; cbn [NilEmpty.string_of_uint]; cbv iota beta;
    unfold leading_digits; eval_char_tests; cbn [fmap option_fmap option_map];
    f_equal; lia.
Qed.

Lemma parseInt_string_of_nat i : parseInt (string_of_nat i) = Some (Z.of_nat i).
Proof.
  unfold string_of_nat. rewrite parseInt_string_of_uint by apply to_uint_not_nil.
  by rewrite DecimalNat.Unsigned.of_to.
Qed.

Lemma array_index_string_of_nat i : array_index (string_of_nat i) = Some i.
Proof.
  unfold array_index. rewrite parseInt_string_of_nat.
  rewrite Nat2Z.id, String.eqb_refl.
  destruct (Z.leb_spec 0 (Z.of_nat i)); [done | lia].
Qed.

Lemma string_of_index_nat i : string_of_index (Some (Z.of_nat i)) = string_of_nat i.
Proof.
  unfold string_of_index. destruct (Z.ltb_spec (Z.of_nat i) 0); [lia |].
  by rewrite Nat2Z.id.
Qed.

Lemma append_cons c s t : String c s +:+ t = String c (s +:+ t).
Proof. done. Qed.

Lemma append_nil_l t : "" +:+ t = t.
Proof. done. Qed.

Lemma append_nil_r s : s +:+ "" = s.
Proof. induction s as [|c s IH]; [done |]. by rewrite append_cons, IH. Qed.

Lemma prefix_empty s : String.prefix "" s = true.
Proof. by destruct s. Qed.

Lemma prefix_dot c s : String.prefix "." (String c s) = bool_decide (c = "."%char).
Proof.
  cbn [String.prefix]. destruct (ascii_dec "." c) as [<-|Hne].
  - by rewrite prefix_empty.
  - by rewrite bool_decide_eq_false_2.
Qed.

(** [split] never returns the empty list. *)
Lemma split_go_not_nil sep skip s : split_go sep skip s ≠ [].
Proof.
  revert skip. induction s as [|c s IH]; intros skip; [done |].
  cbn [split_go]. destruct skip as [|k]; [| apply IH].
  destruct (String.prefix sep _); [done |].
  by destruct (split_go sep 0 s).
Qed.

(** [split] on a dot. *)
Lemma split_go_dotless s rest :
  includes "." s = false →
  split_go "." 0 (s +:+ rest) =
    match split_go "." 0 rest with
    | p :: ps => (s +:+ p) :: ps
    | [] => [s]
    end.
Proof.
  induction s as [|c s IH]; intros Hs.
  { rewrite append_nil_l.
    pose proof (split_go_not_nil "." 0 rest).
    by destruct (split_go "." 0 rest). }
  cbn [includes] in Hs. apply orb_false_iff in Hs as [Hc Hs].
  rewrite append_cons. cbn [split_go]. rewrite prefix_dot in *. rewrite Hc.
  rewrite IH by done. by destruct (split_go "." 0 rest).
Qed.

Lemma split_dotless s : includes "." s = false → split "." s = [s].
Proof.
  intros Hs. unfold split. rewrite <- (append_nil_r s) at 1.
  rewrite split_go_dotless by done. cbn [split_go]. by rewrite append_nil_r.
Qed.

Lemma string_of_uint_dotless d : includes "." (NilEmpty.string_of_uint d) = false.
Proof. induction d; [done | cbn [NilEmpty.string_of_uint includes]; by rewrite IHd ..]. Qed.

Lemma split_item_path i key :
  includes "." key = false →
  split "." (item_path i key) = ["line_items"; string_of_nat i; key].
Proof.
  intros Hkey. unfold item_path, split.
  change (split_go "." 0
            ("line_items" +:+
             String "."%char (string_of_nat i +:+ String "."%char key)) =
          ["line_items"; string_of_nat i; key]).
  rewrite split_go_dotless by done. cbn [split_go].
  rewrite prefix_dot, bool_decide_eq_true_2 by done. cbn [String.length Nat.sub].
  rewrite split_go_dotless by apply string_of_uint_dotless. cbn [split_go].
  rewrite prefix_dot, bool_decide_eq_true_2 by done. cbn [String.length Nat.sub].
  fold (split "." key). rewrite split_dotless by done.
  by rewrite !append_nil_r.
Qed.

Lemma includes_item_path i key : includes "line_items" (item_path i key) = true.
Proof. done. Qed.

(** *** [split] and appended text *)

Section split_facts.
Variable sep : string.

Lemma prefix_length s : String.prefix sep s = true → (String.length sep ≤ String.length s)%nat.
Proof.
  revert s. induction sep as [|a sep' IH]; intros s Hs; [simpl; lia |].
  destruct s as [|b s]; [done |]. cbn [String.prefix] in Hs.
  destruct (ascii_dec a b); [| done]. apply IH in Hs. simpl. lia.
Qed.

Lemma prefix_app s t : String.prefix sep s = true → String.prefix sep (s +:+ t) = true.
Proof.
  revert s. induction sep as [|a sep' IH]; intros s Hs.
  { apply prefix_empty. }
  destruct s as [|b s]; [done |]. rewrite append_cons. cbn [String.prefix] in *.
  destruct (ascii_dec a b); [by apply IH | done].
Qed.

Lemma prefix_app_inv s t :
  String.prefix sep (s +:+ t) = true → String.prefix sep s = false →
  (String.length s < String.length sep)%nat.
Proof.
  revert s. induction sep as [|a sep' IH]; intros s Hst Hs.
  { by rewrite prefix_empty in Hs. }
  destruct s as [|b s]; [simpl; lia |]. rewrite append_cons in Hst.
  cbn [String.prefix] in *. destruct (ascii_dec a b); [| done].
  specialize (IH s Hst Hs). simpl. lia.
Qed.

(** A text shorter than the separator is one piece. *)
Lemma split_go_short s :
  (String.length s < String.length sep)%nat → split_go sep 0 s = [s].
Proof.
  induction s as [|c s IH]; intros Hlen; [done |].
  cbn [split_go]. destruct (String.prefix sep (String c s)) eqn:Hp.
  { apply prefix_length in Hp. lia. }
  rewrite IH; [done |]. simpl in Hlen. lia.
Qed.

(** The text of a split with a single piece is that piece. *)
Lemma split_go_singleton s p : split_go sep 0 s = [p] → p = s.
Proof.
  revert p. induction s as [|c s IH]; intros p Hp.
  { cbn [split_go] in Hp. congruence. }
  cbn [split_go] in Hp. destruct (String.prefix sep (String c s)).
  { injection Hp as _ Hnil. by apply split_go_not_nil in Hnil. }
  destruct (split_go sep 0 s) as [|p0 [|p1 ps]] eqn:Hs;
    [by apply split_go_not_nil in Hs | | done].
  injection Hp as <-. by rewrite (IH p0).
Qed.

(** Splitting a text followed by more text: the pieces before the last one
    stay, and the last piece is split again with the text that follows. *)
Lemma split_go_app s t k :
  (k ≤ String.length s)%nat →
  split_go sep k (s +:+ t) =
    removelast (split_go sep k s)
    ++ split_go sep 0 (List.last (split_go sep k s) "" +:+ t).
Proof.
  revert k. induction s as [|c s IH]; intros k Hk.
  { simpl in Hk. assert (k = 0) as -> by lia. done. }
  rewrite append_cons. destruct k as [|k].
  2:{ cbn [split_go]. apply IH. simpl in Hk. lia. }
  cbn [split_go]. rewrite <- append_cons.
  destruct (String.prefix sep (String c s)) eqn:Hp.
  - rewrite (prefix_app _ t Hp).
    pose proof (prefix_length _ Hp) as Hlen. simpl in Hlen.
    rewrite IH by lia.
    pose proof (split_go_not_nil sep (String.length sep - 1) s) as Hne.
    destruct (split_go sep (String.length sep - 1) s) as [|q qs]; [done |]. done.
  - destruct (String.prefix sep (String c s +:+ t)) eqn:Hpt.
    + pose proof (prefix_app_inv _ _ Hpt Hp) as Hshort.
      assert (split_go sep 0 s = [s]) as Hs.
      { apply split_go_short. simpl in Hshort. lia. }
      rewrite Hs. cbn [removelast List.last app].
      rewrite append_cons. cbn [split_go]. rewrite <- append_cons. by rewrite Hpt.
    + rewrite IH by lia.
      pose proof (split_go_not_nil sep 0 s) as Hne.
      destruct (split_go sep 0 s) as [|p [|p1 ps]] eqn:Hs; [done | |].
      * cbn [removelast List.last app].
        apply split_go_singleton in Hs as ->.
        rewrite append_cons. cbn [split_go]. rewrite <- append_cons. by rewrite Hpt.
      * done.
Qed.

Lemma split_app s t :
  split sep (s +:+ t) =
    removelast (split sep s) ++ split sep (List.last (split sep s) "" +:+ t).
Proof. unfold split. apply split_go_app. lia. Qed.

(** The last piece of a split holds no separator. *)
Lemma split_last_piece s :
  split sep (List.last (split sep s) "") = [List.last (split sep s) ""].
Proof.
  pose proof (split_app s "") as Happ. rewrite !append_nil_r in Happ.
  pose proof (split_go_not_nil sep 0 s) as Hne. fold (split sep s) in Hne.
  rewrite (app_removelast_last "" Hne) in Happ at 1.
  by apply app_inv_head in Happ.
Qed.
End split_facts.


Lemma last_default (l : list string) : default "" (last l) = List.last l "".
Proof.
  induction l as [|x [|y l] IH]; [done | done |].
  rewrite last_cons_cons. exact IH.
Qed.

Lemma append_assoc s t u : (s +:+ t) +:+ u = s +:+ t +:+ u.
Proof. induction s as [|c s IH]; [done |]. by rewrite !append_cons, IH. Qed.


(** ** The upload session *)

Ltac unfold_monad :=
  unfold mbind, M_bind, bind, mret, M_ret, ret, throw, unmodelled, modify,
    get_state, try_catch, try_finally in *.

Section monad_facts.
Context {S A : Type}.

Lemma for_each_app (body : A → M S unit) (xs ys : list A) (s : S) :
  for_each body (xs ++ ys) s = (for_each body xs ;; for_each body ys) s.
Proof.
  revert s. induction xs as [|x xs IH]; intros s; [done |].
  simpl. unfold_monad. destruct (body x s); [apply IH | done | done].
Qed.

Lemma for_each_map_state (f : S → S) (body : A → M S unit) (xs : list A) :
  (∀ x s, body x (f s) = outcome_map f (body x s)) →
  ∀ s, for_each body xs (f s) = outcome_map f (for_each body xs s).
Proof.
  intros Hbody. induction xs as [|x xs IH]; intros s; [done |].
  simpl. unfold_monad. rewrite Hbody.
  destruct (body x s); simpl; [apply IH | done | done].
Qed.
End monad_facts.


Section session.
Variable JSON_parse : string → option json.

Lemma read_loop_frames chunks ending buffer p :
  read_loop JSON_parse chunks ending buffer p =
    (for_each (handle_line JSON_parse) (frames chunks buffer) ;;
     match ending with
     | stream_ends => mret tt
     | read_rejects => throw
     end) p.
Proof.
  revert buffer p. induction chunks as [|value rest IH]; intros buffer p.
  { simpl. by destruct ending. }
  simpl. unfold mbind, M_bind, bind. rewrite for_each_app.
  unfold mbind, M_bind, bind.
  destruct (for_each _ (removelast _) p); [| done | done].
  by rewrite IH.
Qed.

Lemma handle_line_malformed line p :
  malformed JSON_parse line →
  handle_line JSON_parse line p = Done tt (console_error p).
Proof.
  unfold malformed, payload, handle_line.
  destruct (String.prefix _ _); [| done]. intros Hm.
  assert (JSON_parse (slice 6 line) = None) as -> by congruence. done.
Qed.

Lemma handle_data_console data p :
  handle_data data (console_error p) =
    outcome_map console_error (handle_data data p).
Proof.
  unfold handle_data, json_get, on_store. unfold_monad.
  repeat (case_match; simplify_eq/=; try done).
Qed.

Lemma handle_line_console line p :
  handle_line JSON_parse line (console_error p) =
    outcome_map console_error (handle_line JSON_parse line p).
Proof.
  unfold handle_line. destruct (String.prefix _ _); [| done].
  unfold_monad. destruct (JSON_parse _); [| done].
  rewrite handle_data_console. by destruct (handle_data _ p).
Qed.


Lemma traverse_total {S A B} (f : A → M S B) xs :
  Forall (λ x, ∀ s, ∃ y s', f x s = Done y s') xs →
  ∀ s, ∃ ys s', traverse f xs s = Done ys s'.
Proof.
  induction 1 as [|x xs Hx _ IH]; intros s; [by eexists _, _ |].
  simpl. unfold mbind, M_bind, bind.
  destruct (Hx s) as (y & s1 & ->). destruct (IH s1) as (ys & s2 & ->).
  by eexists _, _.
Qed.

Lemma alloc_json_total j : ∀ h, ∃ v h', alloc_json j h = Done v h'.
Proof.
  induction j as [| | | |elems IH|fields IH] using json_nested_ind; intros h;
    try (by eexists _, _).
  - simpl. unfold mbind, M_bind, bind.
    destruct (traverse_total alloc_json elems IH h) as (vs & h' & ->).
    by eexists _, _.
  - simpl. unfold mbind, M_bind, bind.
    match goal with
    | |- context [traverse ?f fields h] =>
        destruct (traverse_total f fields) with (s := h) as (vs & h' & ->)
    end; [| by eexists _, _].
    eapply Forall_impl; [exact IH |].
    intros [k j] Hj s. simpl in *.
    destruct (Hj s) as (v & s' & ->). by eexists _, _.
Qed.

Ltac alloc_total :=
  match goal with
  | H : alloc_json ?j ?h = Throw _ |- _ =>
      destruct (alloc_json_total j h) as (? & ? & ?); congruence
  | H : alloc_json ?j ?h = Unmodelled |- _ =>
      destruct (alloc_json_total j h) as (? & ? & ?); congruence
  end.

Lemma handle_data_event j p :
  well_typed j = true →
  ∃ p', (handle_data (Some j) p = Done tt p' ∨ handle_data (Some j) p = Throw p')
    ∧ steps p' = event_steps (event_of j) (steps p)
    ∧ result p' = event_result (event_of j) (result p)
    ∧ file p' = file p
    ∧ isLoading p' = isLoading p.
Proof.
  unfold well_typed, is_step, event_of, is_result, step_args.
  unfold handle_data, json_get, on_store. unfold_monad.
  intros Ht.
  repeat (case_match; simplify_eq/=; try alloc_total);
    try (eexists; split_and!; [by (left + right) | done..]).
Qed.
Lemma handle_line_event line p :
  frame_typed JSON_parse line →
  ∃ p', handle_line JSON_parse line p = Done tt p'
    ∧ steps p' = event_steps (frame_event JSON_parse line) (steps p)
    ∧ result p' = event_result (frame_event JSON_parse line) (result p)
    ∧ file p' = file p
    ∧ isLoading p' = isLoading p.
Proof.
  unfold frame_typed, frame_event, payload, handle_line.
  destruct (String.prefix _ _); [| by eexists].
  destruct (JSON_parse _) as [j|]; [| by eexists].
  intros Ht. unfold try_catch.
  destruct (handle_data_event j p Ht)
    as (p' & [-> | ->] & Hs & Hr & Hf & Hl); by eexists.
Qed.

Lemma for_each_events ls p :
  Forall (frame_typed JSON_parse) ls →
  ∃ p', for_each (handle_line JSON_parse) ls p = Done tt p'
    ∧ steps p' = fold_left apply_event
                   (step_events (omap (frame_event JSON_parse) ls)) (steps p)
    ∧ result p' = from_option Some (result p)
                    (last (result_events (omap (frame_event JSON_parse) ls)))
    ∧ file p' = file p
    ∧ isLoading p' = isLoading p.
Proof.
  intros Hty. revert p. induction Hty as [|l ls Hl _ IH]; intros p.
  { by eexists. }
  destruct (handle_line_event l p Hl) as (p1 & Hrun & Hs & Hr & Hf & Hld).
  destruct (IH p1) as (p2 & Hrun2 & Hs2 & Hr2 & Hf2 & Hld2).
  exists p2. simpl. unfold mbind, M_bind, bind. rewrite Hrun.
  split_and!; [done | | | congruence | congruence].
  - rewrite Hs2, Hs. unfold step_events.
    destruct (frame_event JSON_parse l) as [[e|r]|]; done.
  - rewrite Hr2, Hr. unfold result_events.
    destruct (frame_event JSON_parse l) as [[e|r]|]; simpl; try done.
    rewrite last_cons. by destruct (last _).
Qed.
Lemma handleUpload_begin t p f :
  file p = Some f →
  handleUpload JSON_parse t p = consume JSON_parse t (begin_session p).
Proof. intros Hf. unfold handleUpload. unfold_monad. by rewrite Hf. Qed.

Lemma consume_typed_stream chunks ending p :
  Forall (frame_typed JSON_parse) (frames chunks "") →
  ∃ p', consume JSON_parse (streams chunks ending) p = Done tt p'
    ∧ steps p' = fold_left apply_event (step_events (events JSON_parse chunks)) (steps p)
    ∧ result p' =
        match ending with
        | stream_ends =>
            from_option Some (result p) (last (result_events (events JSON_parse chunks)))
        | read_rejects => Some network_error
        end
    ∧ isLoading p' = false.
Proof.
  intros Hty. unfold consume. unfold_monad.
  rewrite read_loop_frames. unfold_monad.
  destruct (for_each_events _ p Hty) as (p1 & -> & Hs & Hr & _).
  destruct ending; by eexists.
Qed.

(** C3 (as amended).  A result event does not end the read loop: the loop
    runs until the stream ends and hands every frame to the handler.  The
    step list is the one [updateStep] builds from all step events of the
    stream, those after a result event included, and every result event
    replaces the stored result, so the session keeps the last one received
    (or the network error, when a read rejects). *)
Theorem upload_processes_every_frame chunks ending p :
  is_Some (file p) →
  stream_typed JSON_parse (streams chunks ending) →
  ∃ p', handleUpload JSON_parse (streams chunks ending) p = Done tt p'
    ∧ steps p' = run_steps (step_events (events JSON_parse chunks))
    ∧ result p' =
        match ending with
        | stream_ends => last (result_events (events JSON_parse chunks))
        | read_rejects => Some network_error
        end.
Proof.
  intros [f Hf] Hty. rewrite (handleUpload_begin _ _ f Hf).
  destruct (consume_typed_stream chunks ending (begin_session p) Hty)
    as (p' & -> & Hs & Hr & _).
  exists p'. split_and!; [done | done |].
  rewrite Hr. destruct ending; [| done]. simpl. by destruct (last _).
Qed.

Lemma handle_line_not_throw line p q :
  handle_line JSON_parse line p ≠ Throw q.
Proof.
  unfold handle_line. destruct (String.prefix _ _); [| done].
  unfold_monad. destruct (JSON_parse _); [| done].
  by destruct (handle_data _ p).
Qed.

Lemma for_each_not_throw ls p q :
  for_each (handle_line JSON_parse) ls p ≠ Throw q.
Proof.
  revert p. induction ls as [|l ls IH]; intros p; [done |].
  simpl. unfold_monad.
  destruct (handle_line JSON_parse l p) eqn:Hl; [apply IH | | done].
  by apply handle_line_not_throw in Hl.
Qed.

(** C6.  A frame whose payload does not parse is logged and skipped: the
    session ends as it does on the stream without that frame, with one more
    [console.error] call. *)
Theorem malformed_frame_is_skipped chunks chunks' ending pre bad post p :
  is_Some (file p) →
  frames chunks "" = pre ++ bad :: post →
  frames chunks' "" = pre ++ post →
  malformed JSON_parse bad →
  handleUpload JSON_parse (streams chunks ending) p =
    outcome_map console_error (handleUpload JSON_parse (streams chunks' ending) p).
Proof.
  intros [f Hf] Hfr Hfr' Hbad. rewrite !(handleUpload_begin _ _ f Hf).
  unfold consume. unfold_monad. rewrite !read_loop_frames. unfold_monad.
  rewrite Hfr, Hfr', !for_each_app. unfold_monad.
  destruct (for_each _ pre _) as [[] p1|p1|] eqn:Hpre; [| | done].
  2:{ by apply for_each_not_throw in Hpre. }
  simpl. unfold_monad. rewrite (handle_line_malformed _ _ Hbad).
  rewrite (for_each_map_state console_error) by apply handle_line_console.
  destruct (for_each _ post p1) as [[] p2|p2|] eqn:Hpost; simpl; [| | done].
  2:{ by apply for_each_not_throw in Hpost. }
  by destruct ending.
Qed.

(** C7.  When [fetch] rejects, the response has no body or a read rejects,
    [handleUpload] ends with the failure result whose code is
    ["ERR_NETWORK"], and with [isLoading] cleared. *)
Theorem transport_failure_yields_network_error t p :
  is_Some (file p) →
  transport_fails t →
  stream_typed JSON_parse t →
  ∃ p', handleUpload JSON_parse t p = Done tt p'
    ∧ result p' = Some network_error
    ∧ error_code network_error = Some (JStr "ERR_NETWORK")
    ∧ isLoading p' = false.
Proof.
  intros [f Hf] Hfail Hty. rewrite (handleUpload_begin _ _ f Hf).
  destruct t as [| |chunks ending]; [by eexists | by eexists |].
  simpl in Hfail. subst ending.
  destruct (consume_typed_stream chunks read_rejects (begin_session p) Hty)
    as (p' & -> & _ & Hr & Hl).
  by exists p'.
Qed.

(** C8.  With a file selected, [handleUpload] first empties the step list,
    clears the result and clears the completion flag; the stream is consumed
    from that state, so what the session shows does not depend on the steps,
    the result or the completion flag of the previous session. *)
Theorem new_upload_discards_previous_session t p f :
  file p = Some f →
  handleUpload JSON_parse t p = consume JSON_parse t (begin_session p)
  ∧ steps (begin_session p) = []
  ∧ result (begin_session p) = None
  ∧ processingComplete (begin_session p) = false
  ∧ ∀ s r c,
      handleUpload JSON_parse t
        (setProcessingComplete c (setSteps (λ _, s) (setResult r p))) =
      handleUpload JSON_parse t p.
Proof.
  intros Hf. split_and!; [by apply (handleUpload_begin t p f) | done | done | done |].
  intros s r c. rewrite (handleUpload_begin t p f Hf).
  exact (handleUpload_begin t
           (setProcessingComplete c (setSteps (λ _, s) (setResult r p))) f Hf).
Qed.
End session.

Lemma upload_processes_every_frame_witness :
  ∃ p', handleUpload sample_parse (streams late_frames stream_ends) page_with_file
          = Done tt p'
    ∧ steps p' = run_steps (step_events (events sample_parse late_frames))
    ∧ result p' = last (result_events (events sample_parse late_frames)).
Proof.
  apply (upload_processes_every_frame sample_parse late_frames stream_ends
           page_with_file).
  - by eexists.
  - vm_compute. repeat constructor.
Defined.

(** C3 fails as stated: after a success result, a later chunk brings a step
    event and a failure result; the step list gains the step and the stored
    result becomes the failure, while the stream cut after the first result
    shows no step and the success. *)
Lemma late_frames_counterexample :
  session_view
    (handleUpload sample_parse (streams late_frames stream_ends) page_with_file) =
    Some ([Step.mk "save" "Saving to database" active None],
          Some (Failure (Some (JObj [("code", JStr "ERR_EXTRACTION")]))))
  ∧ session_view
      (handleUpload sample_parse (streams [sse success_text] stream_ends)
         page_with_file) =
      Some ([], Some (Success (Some (JObj [("extraction", JObj [("data", JObj [])])]))))
  ∧ ¬ first_result_ends_session sample_parse late_frames page_with_file.
Proof.
  split_and!; [by vm_compute | by vm_compute |].
  intros H.
  specialize (H 0 ("data: " +:+ success_text) [sse success_text]).
  assert (session_view
            (handleUpload sample_parse (streams late_frames stream_ends) page_with_file) =
          session_view
            (handleUpload sample_parse (streams [sse success_text] stream_ends)
               page_with_file)) as Heq.
  { apply H.
    - by vm_compute.
    - by vm_compute.
    - intros m line' Hm. lia.
    - by vm_compute. }
  vm_compute in Heq. discriminate Heq.
Qed.

Lemma malformed_frame_is_skipped_witness :
  handleUpload sample_parse (streams stream_with_malformed_frame stream_ends)
    page_with_file =
  outcome_map console_error
    (handleUpload sample_parse (streams stream_without_malformed_frame stream_ends)
       page_with_file).
Proof.
  apply (malformed_frame_is_skipped sample_parse
           stream_with_malformed_frame stream_without_malformed_frame stream_ends
           ["data: " +:+ step_text "upload" "active"]
           ("data: " +:+ truncated_text)
           ["data: " +:+ step_text "upload" "complete"]
           page_with_file).
  - by eexists.
  - by vm_compute.
  - by vm_compute.
  - by vm_compute.
Defined.

Lemma transport_failure_yields_network_error_witness :
  ∃ p', handleUpload sample_parse
          (streams stream_without_malformed_frame read_rejects) page_with_file
          = Done tt p'
    ∧ result p' = Some network_error
    ∧ error_code network_error = Some (JStr "ERR_NETWORK")
    ∧ isLoading p' = false.
Proof.
  apply (transport_failure_yields_network_error sample_parse
           (streams stream_without_malformed_frame read_rejects) page_with_file).
  - by eexists.
  - reflexivity.
  - vm_compute. repeat constructor.
Defined.

Lemma new_upload_discards_previous_session_witness :
  handleUpload sample_parse (streams late_frames stream_ends) page_with_file =
    consume sample_parse (streams late_frames stream_ends)
      (begin_session page_with_file)
  ∧ steps (begin_session page_with_file) = []
  ∧ result (begin_session page_with_file) = None
  ∧ processingComplete (begin_session page_with_file) = false
  ∧ ∀ s r c,
      handleUpload sample_parse (streams late_frames stream_ends)
        (setProcessingComplete c (setSteps (λ _, s) (setResult r page_with_file))) =
      handleUpload sample_parse (streams late_frames stream_ends) page_with_file.
Proof.
  apply (new_upload_discards_previous_session sample_parse
           (streams late_frames stream_ends) page_with_file "invoice.png").
  reflexivity.
Defined.

(** *** Chunk boundaries *)

(** The frames the read loop dispatches are the pieces of the whole text
    received, but the last: where the chunks are cut plays no part. *)
Lemma frames_of_received_text chunks buffer :
  split blank_line buffer = [buffer] →
  frames chunks buffer =
    removelast (split blank_line (buffer +:+ received chunks)).
Proof.
  revert buffer. induction chunks as [|value rest IH]; intros buffer Hbuf.
  { simpl. by rewrite append_nil_r, Hbuf. }
  cbn [frames received foldr]. fold (received rest).
  rewrite last_default, IH by apply split_last_piece.
  rewrite <- append_assoc, (split_app _ (buffer +:+ value)).
  rewrite removelast_app; [done |]. apply split_go_not_nil.
Qed.

Lemma frames_of_stream chunks :
  frames chunks "" = removelast (split blank_line (received chunks)).
Proof. by apply frames_of_received_text. Qed.

(** X1.  Where the transport cuts the text into chunks plays no part: two
    streams that deliver the same text, cut at different places, end the
    upload in the same state. *)
Lemma upload_depends_on_received_text JSON_parse chunks chunks' ending p :
  received chunks = received chunks' →
  handleUpload JSON_parse (streams chunks ending) p =
    handleUpload JSON_parse (streams chunks' ending) p.
Proof.
  intros Heq. unfold handleUpload, consume. unfold_monad.
  destruct (file p); [| done].
  by rewrite !read_loop_frames, !frames_of_stream, Heq.
Qed.

(** ** The object store and the typed readings *)

Section store_facts.
Implicit Types (h : heap) (l : loc) (m : gmap string val).

Lemma get_prop_object h l m k :
  h !! l = Some (Obj m) →
  get_prop (VRef l) k h = Done (default VUndef (m !! k)) h.
Proof. intros Hl. unfold get_prop. unfold_monad. by rewrite Hl. Qed.

Lemma get_prop_array h l xs k n :
  h !! l = Some (Arr xs) → array_index k = Some n →
  get_prop (VRef l) k h = Done (default VUndef (xs !! n)) h.
Proof. intros Hl Hk. unfold get_prop. unfold_monad. by rewrite Hl, Hk. Qed.

Lemma set_prop_object h l m k x :
  h !! l = Some (Obj m) →
  set_prop (VRef l) k x h = Done tt (<[l := Obj (<[k := x]> m)]> h).
Proof. intros Hl. unfold set_prop. unfold_monad. by rewrite Hl. Qed.

Lemma array_elems_array h l xs :
  h !! l = Some (Arr xs) → array_elems (VRef l) h = Done xs h.
Proof. intros Hl. unfold array_elems. unfold_monad. by rewrite Hl. Qed.

Lemma spread_object h l m :
  h !! l = Some (Obj m) →
  spread (VRef l) h = Done (VRef (fresh (dom h))) (<[fresh (dom h) := Obj m]> h).
Proof. intros Hl. unfold spread. unfold_monad. by rewrite Hl. Qed.

Lemma fresh_loc_unused h : h !! fresh (dom h) = None.
Proof. apply not_elem_of_dom, is_fresh. Qed.

(** *** Typed readings *)

Lemma str_field_Some m k s : str_field m k = Some s ↔ m !! k = Some (VStr s).
Proof. unfold str_field. destruct (m !! k) as [[]|]; naive_solver. Qed.

Lemma num_field_Some m k x : num_field m k = Some x ↔ m !! k = Some (VNum x).
Proof. unfold num_field. destruct (m !! k) as [[]|]; naive_solver. Qed.

Lemma ref_field_Some m k l : ref_field m k = Some l ↔ m !! k = Some (VRef l).
Proof. unfold ref_field. destruct (m !! k) as [[]|]; naive_solver. Qed.

Lemma object_at_Some h l m : object_at h l = Some m ↔ h !! l = Some (Obj m).
Proof. unfold object_at. destruct (h !! l) as [[]|]; naive_solver. Qed.

Lemma array_at_Some h l xs : array_at h l = Some xs ↔ h !! l = Some (Arr xs).
Proof. unfold array_at. destruct (h !! l) as [[]|]; naive_solver. Qed.

Lemma line_item_of_Some m li :
  line_item_of m = Some li ↔
    m !! "item_number" = Some (VStr (LineItem.item_number li))
    ∧ m !! "description" = Some (VStr (LineItem.description li))
    ∧ m !! "quantity" = Some (VNum (LineItem.quantity li))
    ∧ m !! "unit_price" = Some (VNum (LineItem.unit_price li))
    ∧ m !! "total" = Some (VNum (LineItem.total li)).
Proof.
  unfold line_item_of. rewrite <- !str_field_Some, <- !num_field_Some.
  destruct li. simpl. split.
  - intros. by simplify_option_eq.
  - intros (-> & -> & -> & -> & ->). done.
Qed.

Lemma totals_of_Some m t :
  totals_of m = Some t ↔
    m !! "subtotal" = Some (VNum (Totals.subtotal t))
    ∧ m !! "tax_rate" = Some (VNum (Totals.tax_rate t))
    ∧ m !! "tax_amount" = Some (VNum (Totals.tax_amount t))
    ∧ m !! "shipping" = Some (VNum (Totals.shipping t))
    ∧ m !! "total" = Some (VNum (Totals.total t)).
Proof.
  unfold totals_of. rewrite <- !num_field_Some.
  destruct t. simpl. split.
  - intros. by simplify_option_eq.
  - intros (-> & -> & -> & -> & ->). done.
Qed.

Lemma item_edit_applies key value change m li :
  item_edit key value change →
  line_item_of m = Some li →
  line_item_of (<[key := value]> m) = Some (change li)
  ∧ includes "." key = false.
Proof.
  intros Hedit Hli. apply line_item_of_Some in Hli as (H1 & H2 & H3 & H4 & H5).
  split; [| by destruct Hedit].
  apply line_item_of_Some.
  destruct Hedit; simpl; split_and!;
    (by rewrite lookup_insert_eq) || (by rewrite lookup_insert_ne).
Qed.

Lemma line_item_of_total m li t :
  line_item_of m = Some li →
  line_item_of (<["total" := VNum t]> m) =
    Some (LineItem.mk (LineItem.item_number li) (LineItem.description li)
            (LineItem.quantity li) (LineItem.unit_price li) t).
Proof.
  intros Hli. apply line_item_of_Some in Hli as (H1 & H2 & H3 & H4 & H5).
  apply line_item_of_Some. simpl. split_and!;
    (by rewrite lookup_insert_eq) || (by rewrite lookup_insert_ne).
Qed.
End store_facts.

(** ** The edit engine *)

Ltac solve_lookup :=
  repeat first
    [ rewrite lookup_insert_eq
    | rewrite lookup_insert_ne by congruence ];
  first [ reflexivity | eassumption ].

Ltac run_get :=
  erewrite get_prop_object by solve_lookup;
  repeat first
    [ rewrite lookup_insert_eq
    | rewrite lookup_insert_ne by (intros ?; discriminate) ];
  repeat match goal with
    | H : ?m !! ?k = Some _ |- context [?m !! ?k] => rewrite H
    end;
  cbn [default from_option id].

Ltac run_set := erewrite set_prop_object by solve_lookup; cbn [default from_option id].

Section edit_engine.
Implicit Types (h : heap) (l : loc) (m : gmap string val).

Lemma load_line_item_Some h l li :
  load_line_item h l = Some li ↔
    ∃ m, h !! l = Some (Obj m) ∧ line_item_of m = Some li.
Proof.
  unfold load_line_item. setoid_rewrite <- object_at_Some.
  destruct (object_at h l) as [m|]; simpl.
  - split; [by eexists | by intros (? & [= <-] & ?)].
  - split; [done | by intros (? & [=] & ?)].
Qed.

Lemma load_totals_Some h l t :
  load_totals h l = Some t ↔ ∃ m, h !! l = Some (Obj m) ∧ totals_of m = Some t.
Proof.
  unfold load_totals. setoid_rewrite <- object_at_Some.
  destruct (object_at h l) as [m|]; simpl.
  - split; [by eexists | by intros (? & [= <-] & ?)].
  - split; [done | by intros (? & [=] & ?)].
Qed.

Lemma reduce_totals_items h ils items acc :
  Forall2 (λ l li, load_line_item h l = Some li) ils items →
  reduce_totals (VRef <$> ils) (VNum acc) h =
    Done (VNum (fold_left (λ sum li, PrimFloat.add sum (LineItem.total li)) items acc)) h.
Proof.
  intros Hall. revert acc. induction Hall as [|l li ils items Hl _ IH]; intros acc.
  { done. }
  apply load_line_item_Some in Hl as (m & Hm & Hli).
  apply line_item_of_Some in Hli as (_ & _ & _ & _ & Ht).
  cbn [fmap list_fmap reduce_totals fold_left]. unfold mbind, M_bind, bind.
  rewrite (get_prop_object h l m) by done. rewrite Ht. cbn.
  apply IH.
Qed.

(** The walk to [line_items[i]] and the write of the edited key. *)
Lemma assign_item h r m la ils i l mi key value :
  h !! r = Some (Obj m) →
  m !! "line_items" = Some (VRef la) →
  h !! la = Some (Arr (VRef <$> ils)) →
  ils !! i = Some l →
  h !! l = Some (Obj mi) →
  includes "." key = false →
  (obj ← walk (VRef r) (split "." (item_path i key));
   set_prop obj (last_key (split "." (item_path i key))) value) h =
    Done tt (<[l := Obj (<[key := value]> mi)]> h).
Proof.
  intros Hr Hm Hla Hi Hl Hkey. rewrite split_item_path by done.
  cbn [walk last_key last default from_option id]. unfold mbind, M_bind, bind.
  run_get.
  rewrite (get_prop_array h la _ _ i Hla) by apply array_index_string_of_nat.
  rewrite list_lookup_fmap, Hi. cbn [fmap option_fmap option_map default from_option id].
  unfold mret, M_ret, ret.
  by apply set_prop_object.
Qed.

Lemma load_line_item_frame h h' l :
  h' !! l = h !! l → load_line_item h' l = load_line_item h l.
Proof. intros Heq. unfold load_line_item, object_at. by rewrite Heq. Qed.

Lemma items_after_write h ils items i l o new :
  Forall2 (λ l li, load_line_item h l = Some li) ils items →
  NoDup ils →
  ils !! i = Some l →
  load_line_item (<[l := o]> h) l = Some new →
  Forall2 (λ l' li, load_line_item (<[l := o]> h) l' = Some li) ils
    (<[i := new]> items).
Proof.
  intros Hall Hnd Hi Hnew.
  assert (i < length items) as Hlen.
  { rewrite <- (Forall2_length _ _ _ Hall). by eapply lookup_lt_Some. }
  apply Forall2_same_length_lookup_2.
  { rewrite length_insert. exact (Forall2_length _ _ _ Hall). }
  intros j l' li' Hj Hli'. cbv beta.
  destruct (decide (j = i)) as [->|Hne].
  - assert (l' = l) as -> by congruence.
    rewrite list_lookup_insert_eq in Hli' by done. congruence.
  - rewrite list_lookup_insert_ne in Hli' by done.
    assert (l' ≠ l) as Hl'.
    { intros ->. apply Hne. by eapply NoDup_lookup. }
    rewrite (load_line_item_frame h (<[l := o]> h) l')
      by (by rewrite lookup_insert_ne).
    exact (Forall2_lookup_lr _ _ _ _ _ _ Hall Hj Hli').
Qed.

Lemma items_frame h h' ils items :
  Forall2 (λ l li, load_line_item h l = Some li) ils items →
  (∀ l, l ∈ ils → h' !! l = h !! l) →
  Forall2 (λ l li, load_line_item h' l = Some li) ils items.
Proof.
  intros Hall Hsame. induction Hall as [|l li ils items Hl _ IH]; [done |].
  constructor.
  - rewrite (load_line_item_frame h); [done |]. apply Hsame, elem_of_cons; by left.
  - apply IH. intros l' Hl'. apply Hsame, elem_of_cons; by right.
Qed.

(** The recalculation after the write, on a store where line [i] reads
    [li]. *)
Lemma recalculate_item h r m la lt ils items i l mi li mt t key :
  h !! r = Some (Obj m) →
  m !! "line_items" = Some (VRef la) →
  m !! "totals" = Some (VRef lt) →
  h !! la = Some (Arr (VRef <$> ils)) →
  Forall2 (λ l li, load_line_item h l = Some li) ils items →
  NoDup ils →
  ils !! i = Some l →
  h !! l = Some (Obj mi) →
  line_item_of mi = Some li →
  h !! lt = Some (Obj mt) →
  totals_of mt = Some t →
  lt ∉ ils → r ≠ l → r ≠ lt → la ≠ l → la ≠ lt →
  ∃ mi' mt',
    recalculate (VRef r) ["line_items"; string_of_nat i; key] h =
      Done tt (<[lt := Obj mt']> (<[l := Obj mi']> h))
    ∧ line_item_of mi' = Some (with_line_total li)
    ∧ totals_of mt' =
        Some (with_order_totals (<[i := with_line_total li]> items) t).
Proof.
  intros Hr Hmla Hmlt Hla Hall Hnd Hi Hl Hli Hlt Ht Hlt_items Hrl Hrlt Hlal Hlalt.
  assert (l ≠ lt) as Hllt.
  { intros ->. apply Hlt_items. by eapply list_elem_of_lookup_2. }
  pose proof Hli as (_ & _ & Hq & Hp & _)%line_item_of_Some.
  pose proof Ht as (_ & Hrate & _ & Hship & _)%totals_of_Some.
  set (mi' := <["total" := VNum (PrimFloat.mul (LineItem.quantity li) (LineItem.unit_price li))]> mi).
  assert (line_item_of mi' = Some (with_line_total li)) as Hli'.
  { by apply line_item_of_total. }
  set (h1 := <[l := Obj mi']> h).
  assert (Forall2 (λ l li, load_line_item h1 l = Some li) ils
            (<[i := with_line_total li]> items)) as Hall1.
  { apply items_after_write; [done | done | done |].
    apply load_line_item_Some. exists mi'. by rewrite lookup_insert_eq. }
  subst h1. exists mi'. eexists. split_and!; [| done |].
  - unfold recalculate. cbn [lookup list_lookup default from_option id].
    rewrite parseInt_string_of_nat, string_of_index_nat.
    unfold mbind, M_bind, bind.
    run_get.
    rewrite (get_prop_array h la _ _ i Hla) by apply array_index_string_of_nat.
    rewrite list_lookup_fmap, Hi.
    cbn [fmap option_fmap option_map default from_option id].
    run_get. run_get. cbn [js_mul arith to_number mret M_ret ret].
    run_set. fold mi'.
    run_get. run_get.
    rewrite (array_elems_array _ la (VRef <$> ils)) by solve_lookup.
    rewrite (reduce_totals_items _ ils _ _ Hall1).
    run_set.
    repeat run_get. cbn [js_div js_mul arith to_number mret M_ret ret].
    run_set.
    repeat run_get. cbn [js_add arith to_number mret M_ret ret].
    repeat run_get. cbn [js_add arith to_number mret M_ret ret].
    run_set.
    rewrite !insert_insert_eq. reflexivity.
  - apply totals_of_Some. unfold with_order_totals. simpl.
    split_and!; solve_lookup.
Qed.

Lemma load_header_frame h h' lh mh lb lsh :
  h !! lh = Some (Obj mh) →
  mh !! "bill_to" = Some (VRef lb) →
  mh !! "ship_to" = Some (VRef lsh) →
  h' !! lh = h !! lh → h' !! lb = h !! lb → h' !! lsh = h !! lsh →
  load_header h' lh = load_header h lh.
Proof.
  intros Hlh Hb Hs Elh Elb Els.
  unfold load_header, object_at. rewrite Elh, Hlh. simpl.
  unfold header_of, ref_field. rewrite Hb, Hs. simpl.
  unfold load_address, object_at. by rewrite Elb, Els.
Qed.

(** What [snapshot_at] says about the store. *)
Lemma snapshot_at_inv h v d :
  snapshot_at h v d →
  ∃ r m lh mh lb lsh la ils lt mt,
    v = VRef r
    ∧ h !! r = Some (Obj m)
    ∧ m !! "header" = Some (VRef lh)
    ∧ m !! "line_items" = Some (VRef la)
    ∧ m !! "totals" = Some (VRef lt)
    ∧ h !! lh = Some (Obj mh)
    ∧ mh !! "bill_to" = Some (VRef lb)
    ∧ mh !! "ship_to" = Some (VRef lsh)
    ∧ load_header h lh = Some (ExtractedData.header d)
    ∧ h !! la = Some (Arr (VRef <$> ils))
    ∧ Forall2 (λ l li, load_line_item h l = Some li) ils (ExtractedData.line_items d)
    ∧ h !! lt = Some (Obj mt)
    ∧ totals_of mt = Some (ExtractedData.totals d)
    ∧ NoDup (r :: lh :: lb :: lsh :: la :: lt :: ils).
Proof.
  intros (Hload & ls & Hlocs & Hnd).
  unfold load_snapshot in Hload. unfold snapshot_locs in Hlocs.
  destruct v as [| | | | |r]; try done. simpl in *.
  destruct (object_at h r) as [m|] eqn:Hr; [| done]. simpl in *.
  destruct (ref_field m "header") as [lh|] eqn:Hmh; [| done]. simpl in *.
  destruct (load_header h lh) as [hd|] eqn:Hhd; [| done]. simpl in *.
  destruct (ref_field m "line_items") as [la|] eqn:Hma; [| done]. simpl in *.
  destruct (load_line_items h la) as [items|] eqn:Hitems; [| done]. simpl in *.
  destruct (ref_field m "totals") as [lt|] eqn:Hmt; [| done]. simpl in *.
  destruct (load_totals h lt) as [t|] eqn:Ht; [| done]. simpl in *.
  injection Hload as <-.
  destruct (object_at h lh) as [mh|] eqn:Hlh; [| done]. simpl in *.
  destruct (ref_field mh "bill_to") as [lb|] eqn:Hb; [| done]. simpl in *.
  destruct (ref_field mh "ship_to") as [lsh|] eqn:Hs; [| done]. simpl in *.
  unfold load_line_items in Hitems.
  destruct (array_at h la) as [xs|] eqn:Hla; [| done]. simpl in *.
  destruct (mapM as_ref xs) as [ils|] eqn:Hils; [| done]. simpl in *.
  injection Hlocs as <-.
  apply mapM_Some in Hils, Hitems.
  assert (xs = VRef <$> ils) as ->.
  { clear -Hils. induction Hils as [|v l xs ils Hv _ IH]; [done |].
    destruct v; try done. simpl in Hv. injection Hv as ->. by rewrite IH. }
  apply Forall2_fmap_l in Hitems.
  apply load_totals_Some in Ht as (mt & Hlt & Ht).
  exists r, m, lh, mh, lb, lsh, la, ils, lt, mt.
  rewrite <- !ref_field_Some, <- !object_at_Some, <- array_at_Some.
  split_and!; try done. by apply object_at_Some.
Qed.

Lemma mapM_as_ref ils : mapM as_ref (VRef <$> ils) = Some ils.
Proof. apply mapM_Some. induction ils; by constructor. Qed.

(** The locations of an invoice, from the shape of the store. *)
Lemma snapshot_locs_Some h r m lh mh lb lsh la ils lt :
  h !! r = Some (Obj m) →
  m !! "header" = Some (VRef lh) →
  m !! "line_items" = Some (VRef la) →
  m !! "totals" = Some (VRef lt) →
  h !! lh = Some (Obj mh) →
  mh !! "bill_to" = Some (VRef lb) →
  mh !! "ship_to" = Some (VRef lsh) →
  h !! la = Some (Arr (VRef <$> ils)) →
  snapshot_locs h (VRef r) = Some (r :: lh :: lb :: lsh :: la :: lt :: ils).
Proof.
  intros Hr Hmh Hma Hmt Hlh Hb Hs Hla.
  apply object_at_Some in Hr, Hlh. apply array_at_Some in Hla.
  apply ref_field_Some in Hmh, Hma, Hmt, Hb, Hs.
  unfold snapshot_locs. cbn [as_ref mbind option_bind].
  rewrite Hr. cbn [mbind option_bind]. rewrite Hmh. cbn [mbind option_bind].
  rewrite Hlh. cbn [mbind option_bind]. rewrite Hb, Hs, Hma. cbn [mbind option_bind].
  rewrite Hla. cbn [mbind option_bind]. by rewrite mapM_as_ref, Hmt.
Qed.
End edit_engine.

Section edit_results.
Implicit Types (h : heap) (l : loc) (m : gmap string val).

Lemma alter_as_insert {A} (f : A → A) (xs : list A) i x :
  xs !! i = Some x → alter f i xs = <[i := f x]> xs.
Proof.
  intros Hi. apply list_eq. intros j.
  destruct (decide (j = i)) as [->|Hne].
  - rewrite list_lookup_alter_eq, Hi.
    rewrite list_lookup_insert_eq by (by eapply lookup_lt_Some). done.
  - by rewrite list_lookup_alter_ne, list_lookup_insert_ne.
Qed.

Lemma bind_Done {S A B} (m : M S A) (k : A → M S B) s a s' :
  m s = Done a s' → (m ≫= k) s = k a s'.
Proof. intros Hm. unfold mbind, M_bind, bind. by rewrite Hm. Qed.

Lemma on_store_Done {A} (m : M heap A) p a h' :
  m (store p) = Done a h' → on_store m p = Done a (set_store h' p).
Proof. intros Hm. unfold on_store. by rewrite Hm. Qed.

Lemma load_header_addresses h lh mh lb lsh hd :
  h !! lh = Some (Obj mh) →
  mh !! "bill_to" = Some (VRef lb) →
  mh !! "ship_to" = Some (VRef lsh) →
  load_header h lh = Some hd →
  is_Some (h !! lb) ∧ is_Some (h !! lsh).
Proof.
  intros Hlh Hb Hs Hhd. unfold load_header, object_at in Hhd.
  rewrite Hlh in Hhd. simpl in Hhd. unfold header_of, ref_field in Hhd.
  rewrite Hb, Hs in Hhd. simpl in Hhd. unfold load_address, object_at in Hhd.
  destruct (h !! lb) as [ob|], (h !! lsh) as [os|]; [by split | exfalso ..];
    repeat match type of Hhd with
      | context [str_field ?m ?k] => destruct (str_field m k); simpl in Hhd
      | context [nullable_str_field ?m ?k] =>
          destruct (nullable_str_field m k); simpl in Hhd
      | context [match ?o with Obj _ => _ | Arr _ => _ end] =>
          destruct o; simpl in Hhd
      | context [address_of ?m] => destruct (address_of m); simpl in Hhd
      end; done.
Qed.

Lemma load_line_items_Some h la ils items :
  h !! la = Some (Arr (VRef <$> ils)) →
  Forall2 (λ l li, load_line_item h l = Some li) ils items →
  load_line_items h la = Some items.
Proof.
  intros Hla Hall. unfold load_line_items, array_at. rewrite Hla. simpl.
  apply mapM_Some. by apply Forall2_fmap_l.
Qed.

Lemma handleEditField_item p d i key value change :
  snapshot_at (store p) (editedData p) d →
  i < length (ExtractedData.line_items d) →
  item_edit key value change →
  ∃ p', handleEditField (item_path i key) value p = Done tt p'
    ∧ snapshot_at (store p') (editedData p') (recalculated i change d)
    ∧ store p' !! fresh (dom (store p)) = store p' !! root_of (editedData p)
    ∧ editedData p' = VRef (fresh (dom (store p))).
Proof.
  intros Hsnap Hi Hedit.
  destruct (snapshot_at_inv _ _ _ Hsnap)
    as (r & m & lh & mh & lb & lsh & la & ils & lt & mt & Hv & Hr & Hmh & Hma
        & Hmt & Hlh & Hb & Hs & Hhd & Hla & Hall & Hlt & Ht & Hnd).
  assert (NoDup (lh :: lb :: lsh :: la :: lt :: ils)) as Htree
    by (by apply NoDup_cons in Hnd as [_ ?]).
  destruct (lookup_lt_is_Some_2 _ _ Hi) as [li Hli].
  destruct (Forall2_lookup_r _ _ _ _ _ Hall Hli) as (l & Hl & Hload).
  apply load_line_item_Some in Hload as (mi & Hmi & Hmili).
  destruct (item_edit_applies key value change mi li Hedit Hmili) as [Hmi1 Hkey].
  (* the locations are distinct *)
  set (h := store p) in *. set (r' := fresh (dom h)).
  assert (h !! r' = None) as Hfresh by apply fresh_loc_unused.
  assert (l ∈ ils) as Hlin by (by eapply list_elem_of_lookup_2).
  apply NoDup_cons in Hnd as [Hr_out Hnd]. apply NoDup_cons in Hnd as [Hlh_out Hnd].
  apply NoDup_cons in Hnd as [Hlb_out Hnd]. apply NoDup_cons in Hnd as [Hls_out Hnd].
  apply NoDup_cons in Hnd as [Hla_out Hnd]. apply NoDup_cons in Hnd as [Hlt_out Hnd].
  repeat match goal with
    | H : _ ∉ _ :: _ |- _ => apply not_elem_of_cons in H as [? H]
    end.
  assert (r' ∉ ils) as Hr'_out.
  { intros Hin. apply list_elem_of_lookup in Hin as [j Hj].
    destruct (Forall2_lookup_l _ _ _ _ _ Hall Hj) as (li' & _ & Hli').
    apply load_line_item_Some in Hli' as (? & ? & _). congruence. }
  assert (l ≠ lt) as Hllt by (intros ->; done).
  (* run the handler *)
  set (h1 := <[r' := Obj m]> h).
  set (h2 := <[l := Obj (<[key := value]> mi)]> h1).
  assert (Forall2 (λ l li, load_line_item h2 l = Some li) ils
            (<[i := change li]> (ExtractedData.line_items d))) as Hall2.
  { apply items_after_write; [| done | done |].
    - eapply items_frame; [exact Hall |].
      intros l' Hl'. unfold h1. rewrite lookup_insert_ne; [done |]. by intros <-.
    - apply load_line_item_Some. eexists. by rewrite lookup_insert_eq. }
  assert (r' ≠ l) as Hr'l by (intros <-; congruence).
  assert (r' ≠ lt) as Hr'lt by (intros <-; congruence).
  assert (r' ≠ la) as Hr'la by (intros <-; congruence).
  assert (la ≠ l) as Hlal by (by intros ->).
  assert (la ≠ lt) as Hlalt by done.
  assert (h1 !! r' = Some (Obj m)) as H1r by (unfold h1; by rewrite lookup_insert_eq).
  assert (h1 !! la = Some (Arr (VRef <$> ils))) as H1la
    by (unfold h1; by rewrite lookup_insert_ne).
  assert (h1 !! l = Some (Obj mi)) as H1l by (unfold h1; by rewrite lookup_insert_ne).
  assert (h2 !! r' = Some (Obj m)) as H2r by (unfold h2; by rewrite lookup_insert_ne).
  assert (h2 !! la = Some (Arr (VRef <$> ils))) as H2la
    by (unfold h2; by rewrite lookup_insert_ne).
  assert (h2 !! l = Some (Obj (<[key := value]> mi))) as H2l
    by (unfold h2; by rewrite lookup_insert_eq).
  assert (h2 !! lt = Some (Obj mt)) as H2lt.
  { unfold h2, h1. by rewrite !lookup_insert_ne. }
  destruct (recalculate_item h2 r' m la lt ils
              (<[i := change li]> (ExtractedData.line_items d)) i l
              (<[key := value]> mi) (change li) mt (ExtractedData.totals d) key
              H2r Hma Hmt H2la Hall2 Hnd Hl H2l Hmi1 H2lt Ht Hlt_out
              Hr'l Hr'lt Hlal Hlalt)
    as (mi' & mt' & Hrecalc & Hmi' & Hmt').
  eexists. split_and!.
  - unfold handleEditField.
    rewrite (bind_Done get_state _ p p p) by done.
    rewrite Hv. cbn [truthy negb].
    rewrite (bind_Done _ _ p (VRef r') (set_store h1 p))
      by (apply on_store_Done, spread_object, Hr).
    rewrite (bind_Done _ _ (set_store h1 p) tt (set_store h2 (set_store h1 p))).
    2:{ apply on_store_Done. cbn [store set_store].
        by apply (assign_item h1 r' m la ils i l mi key value). }
    rewrite includes_item_path.
    erewrite bind_Done.
    2:{ apply on_store_Done. cbn [store set_store].
        rewrite split_item_path by done. exact Hrecalc. }
    unfold modify. reflexivity.
  - cbn [store editedData setEditedData set_store].
    set (h3 := <[lt := Obj mt']> (<[l := Obj mi']> h2)).
    assert (∀ x, x ≠ lt → x ≠ l → x ≠ r' → h3 !! x = h !! x) as Hframe.
    { intros x ? ? ?. unfold h3, h2, h1. by rewrite !lookup_insert_ne. }
    assert (h3 !! r' = Some (Obj m)) as H3r.
    { unfold h3. by rewrite !lookup_insert_ne. }
    assert (Forall2 (λ l li, load_line_item h3 l = Some li) ils
              (<[i := with_line_total (change li)]>
                 (<[i := change li]> (ExtractedData.line_items d)))) as Hall3.
    { unfold h3. eapply items_frame.
      - apply items_after_write; [exact Hall2 | done | done |].
        apply load_line_item_Some. eexists. by rewrite lookup_insert_eq.
      - intros x Hx. rewrite lookup_insert_ne; [done |]. by intros <-. }
    assert (∀ x, x ∉ ils → x ≠ l) as Hother by (by intros x Hx ->).
    assert (∀ x, is_Some (h !! x) → x ≠ r') as Hold.
    { intros x [o Hx] Heq. rewrite Heq in Hx. congruence. }
    destruct (load_header_addresses h lh mh lb lsh _ Hlh Hb Hs Hhd) as [Hlb Hlsh].
    assert (load_header h3 lh = Some (ExtractedData.header d)) as Hhd3.
    { rewrite <- Hhd. apply (load_header_frame h h3 lh mh lb lsh); try done;
        (apply Hframe; [done | by apply Hother | by apply Hold]). }
    split; [| exists (r' :: lh :: lb :: lsh :: la :: lt :: ils); split].
    2:{ apply (snapshot_locs_Some h3 r' m lh mh lb lsh la ils lt); try done.
        - rewrite Hframe; [done | done | by apply Hother | by apply Hold].
        - rewrite Hframe; [done | done | by apply Hother | by apply Hold]. }
    2:{ apply NoDup_cons. split; [| exact Htree].
        rewrite !not_elem_of_cons. split_and!; try done;
          by apply not_eq_sym, Hold. }
    unfold load_snapshot. cbn [as_ref mbind option_bind].
    unfold object_at at 1. rewrite H3r. cbn [mbind option_bind].
    unfold ref_field. rewrite Hmh, Hma, Hmt. cbn [mbind option_bind].
    rewrite Hhd3. cbn [mbind option_bind].
    rewrite (load_line_items_Some h3 la ils _) by (by rewrite ?Hframe).
    cbn [mbind option_bind].
    unfold load_totals, object_at. unfold h3 at 1. rewrite lookup_insert_eq.
    cbn [mbind option_bind]. rewrite Hmt'. cbn [mbind option_bind].
    unfold recalculated. rewrite (alter_as_insert _ _ _ _ Hli).
    by rewrite list_insert_insert_eq.
  - cbn [store editedData setEditedData set_store]. rewrite Hv. cbn [root_of].
    fold r' h1 h2.
    assert (r ≠ l) as Hrl by (by intros ->).
    rewrite !(lookup_insert_ne _ lt) by done.
    rewrite !(lookup_insert_ne _ l) by done.
    unfold h2, h1. rewrite !(lookup_insert_ne _ l) by done.
    rewrite lookup_insert_eq.
    rewrite lookup_insert_ne; [done |]. intros Heq. rewrite Heq in Hfresh. congruence.
  - done.
Qed.
End edit_results.

Section header_edits.
Implicit Types (h : heap) (l : loc) (m : gmap string val).

Lemma nullable_str_field_Some m k o :
  nullable_str_field m k = Some o ↔ m !! k = Some (from_option VStr VNull o).
Proof.
  unfold nullable_str_field.
  destruct (m !! k) as [[]|], o; simpl; split; intros; by simplify_eq.
Qed.

Lemma header_of_Some h m hd :
  header_of h m = Some hd ↔
    m !! "invoice_number" = Some (VStr (Header.invoice_number hd))
    ∧ m !! "date" = Some (VStr (Header.date hd))
    ∧ m !! "customer_id" = Some (from_option VStr VNull (Header.customer_id hd))
    ∧ m !! "company_name" = Some (VStr (Header.company_name hd))
    ∧ (ref_field m "bill_to" ≫= load_address h) = Some (Header.bill_to hd)
    ∧ (ref_field m "ship_to" ≫= load_address h) = Some (Header.ship_to hd).
Proof.
  unfold header_of.
  rewrite <- !str_field_Some, <- nullable_str_field_Some.
  destruct hd. simpl. split.
  - intros. by simplify_option_eq.
  - intros (-> & -> & -> & -> & -> & ->). done.
Qed.

Lemma header_edit_applies h key s change m hd :
  header_edit key s change →
  header_of h m = Some hd →
  header_of h (<[key := VStr s]> m) = Some (change hd)
  ∧ split "." (header_path key) = ["header"; key]
  ∧ includes "line_items" (header_path key) = false.
Proof.
  intros Hedit Hhd. apply header_of_Some in Hhd as (H1 & H2 & H3 & H4 & H5 & H6).
  split; [| by destruct Hedit].
  apply header_of_Some. unfold ref_field in *.
  destruct Hedit; simpl; split_and!;
    (by rewrite lookup_insert_eq) || (by rewrite lookup_insert_ne).
Qed.

Lemma load_address_frame h h' l :
  h' !! l = h !! l → load_address h' l = load_address h l.
Proof. intros Heq. unfold load_address, object_at. by rewrite Heq. Qed.

Lemma load_totals_frame h h' l :
  h' !! l = h !! l → load_totals h' l = load_totals h l.
Proof. intros Heq. unfold load_totals, object_at. by rewrite Heq. Qed.

Lemma assign_header h r m lh mh key value :
  h !! r = Some (Obj m) →
  m !! "header" = Some (VRef lh) →
  h !! lh = Some (Obj mh) →
  (obj ← walk (VRef r) ["header"; key];
   set_prop obj (last_key ["header"; key]) value) h =
    Done tt (<[lh := Obj (<[key := value]> mh)]> h).
Proof.
  intros Hr Hm Hlh.
  cbn [walk last_key last default from_option id]. unfold mbind, M_bind, bind.
  run_get. unfold mret, M_ret, ret.
  by apply set_prop_object.
Qed.

Lemma handleEditField_header p d key s change :
  snapshot_at (store p) (editedData p) d →
  header_edit key s change →
  ∃ p', handleEditField (header_path key) (VStr s) p = Done tt p'
    ∧ snapshot_at (store p') (editedData p')
        (ExtractedData.mk (change (ExtractedData.header d))
           (ExtractedData.line_items d) (ExtractedData.totals d))
    ∧ store p' !! fresh (dom (store p)) = store p' !! root_of (editedData p)
    ∧ editedData p' = VRef (fresh (dom (store p))).
Proof.
  intros Hsnap Hedit.
  destruct (snapshot_at_inv _ _ _ Hsnap)
    as (r & m & lh & mh & lb & lsh & la & ils & lt & mt & Hv & Hr & Hmh & Hma
        & Hmt & Hlh & Hb & Hs & Hhd & Hla & Hall & Hlt & Ht & Hnd).
  assert (NoDup (lh :: lb :: lsh :: la :: lt :: ils)) as Htree
    by (by apply NoDup_cons in Hnd as [_ ?]).
  assert (∀ x, x ∈ ils → is_Some (store p !! x)) as Hitems.
  { intros x Hx. apply list_elem_of_lookup in Hx as [j Hj].
    destruct (Forall2_lookup_l _ _ _ _ _ Hall Hj) as (li' & _ & Hli').
    apply load_line_item_Some in Hli' as (? & ? & _). by eexists. }
  set (h := store p) in *. set (r' := fresh (dom h)).
  assert (h !! r' = None) as Hfresh by apply fresh_loc_unused.
  assert (∀ x, is_Some (h !! x) → x ≠ r') as Hold.
  { intros x [o Hx] Heq. rewrite Heq in Hx. congruence. }
  destruct (load_header_addresses h lh mh lb lsh _ Hlh Hb Hs Hhd) as [Hlb Hlsh].
  apply NoDup_cons in Hnd as [Hr_out Hnd]. apply NoDup_cons in Hnd as [Hlh_out Hnd].
  repeat match goal with
    | H : _ ∉ _ :: _ |- _ => apply not_elem_of_cons in H as [? H]
    end.
  assert (header_of h mh = Some (ExtractedData.header d)) as Hmhd.
  { unfold load_header, object_at in Hhd. by rewrite Hlh in Hhd. }
  set (h1 := <[r' := Obj m]> h).
  set (h2 := <[lh := Obj (<[key := VStr s]> mh)]> h1).
  assert (∀ x, x ≠ lh → is_Some (h !! x) → h2 !! x = h !! x) as Hframe.
  { intros x Hx Hsome. unfold h2, h1. rewrite lookup_insert_ne by done.
    rewrite lookup_insert_ne; [done |]. intros Heq. by apply (Hold x). }
  destruct (header_edit_applies h2 key s change mh (ExtractedData.header d) Hedit)
    as (Hmhd2 & Hsplit & Hincl).
  { apply header_of_Some in Hmhd as (F1 & F2 & F3 & F4 & F5 & F6).
    apply header_of_Some. unfold ref_field in *. rewrite Hb, Hs in *. simpl in *.
    split_and!; try done.
    - rewrite <- F5. by apply load_address_frame, Hframe.
    - rewrite <- F6. by apply load_address_frame, Hframe. }
  eexists. split_and!.
  - unfold handleEditField.
    rewrite (bind_Done get_state _ p p p) by done.
    rewrite Hv. cbn [truthy negb].
    rewrite (bind_Done _ _ p (VRef r') (set_store h1 p))
      by (apply on_store_Done, spread_object, Hr).
    rewrite (bind_Done _ _ (set_store h1 p) tt (set_store h2 (set_store h1 p))).
    2:{ apply on_store_Done. cbn [store set_store]. rewrite Hsplit.
        apply (assign_header h1 r' m lh mh); [| done |].
        - unfold h1. by rewrite lookup_insert_eq.
        - unfold h1. rewrite lookup_insert_ne; [done |]. by apply not_eq_sym, Hold. }
    rewrite Hincl. unfold mret, M_ret. rewrite (bind_Done (ret tt) _ _ tt _) by done.
    reflexivity.
  - cbn [store editedData setEditedData set_store].
    assert (h2 !! r' = Some (Obj m)) as H2r.
    { unfold h2, h1. rewrite lookup_insert_ne by (by apply Hold).
      by rewrite lookup_insert_eq. }
    assert (h2 !! lh = Some (Obj (<[key := VStr s]> mh))) as H2lh.
    { unfold h2. by rewrite lookup_insert_eq. }
    split; [| exists (r' :: lh :: lb :: lsh :: la :: lt :: ils); split].
    2:{ apply (snapshot_locs_Some h2 r' m lh (<[key := VStr s]> mh) lb lsh la ils lt);
          try done.
        - destruct Hedit; by rewrite lookup_insert_ne.
        - destruct Hedit; by rewrite lookup_insert_ne.
        - by rewrite Hframe. }
    2:{ apply NoDup_cons. split; [| exact Htree].
        rewrite !not_elem_of_cons. split_and!;
          try (by apply not_eq_sym, Hold).
        intros Hin. by apply (Hold r' (Hitems r' Hin)). }
    unfold load_snapshot. cbn [as_ref mbind option_bind].
    unfold object_at at 1. rewrite H2r. cbn [mbind option_bind].
    unfold ref_field. rewrite Hmh, Hma, Hmt. cbn [mbind option_bind].
    unfold load_header, object_at. rewrite H2lh.
    cbn [mbind option_bind]. rewrite Hmhd2. cbn [mbind option_bind].
    rewrite (load_line_items_Some h2 la ils (ExtractedData.line_items d)).
    2:{ by rewrite Hframe. }
    2:{ eapply items_frame; [exact Hall |]. intros x Hx. apply Hframe.
        - by intros ->.
        - apply list_elem_of_lookup in Hx as [j Hj].
          destruct (Forall2_lookup_l _ _ _ _ _ Hall Hj) as (li' & _ & Hli').
          apply load_line_item_Some in Hli' as (? & ? & _). by eexists. }
    cbn [mbind option_bind].
    rewrite (load_totals_frame h h2 lt) by (by apply Hframe).
    assert (load_totals h lt = Some (ExtractedData.totals d)) as ->.
    { apply load_totals_Some. by eexists. }
    done.
  - cbn [store editedData setEditedData set_store]. rewrite Hv. cbn [root_of].
    fold r' h1 h2. rewrite (Hframe r) by (done || by eexists).
    unfold h2, h1. rewrite lookup_insert_ne by (by apply Hold).
    by rewrite lookup_insert_eq.
  - done.
Qed.
End header_edits.

(** *** Successive edits *)

Lemma handleEditField_denotes field value p d d' :
  snapshot_at (store p) (editedData p) d →
  edit_denotes field value d d' →
  ∃ p', handleEditField field value p = Done tt p'
    ∧ snapshot_at (store p') (editedData p') d'.
Proof.
  intros Hsnap Hedit.
  destruct Hedit as [key s change d Hedit|i key value change d Hi Hedit].
  - destruct (handleEditField_header p d key s change Hsnap Hedit)
      as (p' & Hrun & Hsnap' & _). by exists p'.
  - destruct (handleEditField_item p d i key value change Hsnap Hi Hedit)
      as (p' & Hrun & Hsnap' & _). by exists p'.
Qed.

(** The edited invoice stays a tree and follows the changes, whatever the
    number of edits. *)
Lemma handleEdits_denote es : ∀ p d d',
  snapshot_at (store p) (editedData p) d →
  edits_denote es d d' →
  ∃ p', handleEdits es p = Done tt p'
    ∧ snapshot_at (store p') (editedData p') d'.
Proof.
  induction es as [|[field value] es IH]; intros p d d' Hsnap Hes.
  - inversion Hes; subst. by exists p.
  - inversion Hes as [|? ? ? ? d1 ? Hedit Hrest]; subst.
    destruct (handleEditField_denotes field value p d d1 Hsnap Hedit)
      as (p1 & Hrun & Hsnap1).
    destruct (IH p1 d1 d' Hsnap1 Hrest) as (p' & Hrun' & Hsnap').
    exists p'. split; [| done].
    unfold handleEdits. cbn [for_each fst snd].
    by rewrite (bind_Done _ _ p tt p1).
Qed.

Lemma edit_denotes_consistent field value d d' :
  edit_denotes field value d d' → invoice_consistent d → invoice_consistent d'.
Proof.
  intros Hedit [Hlines Htotals].
  destruct Hedit as [key s change d Hedit|i key value change d Hi Hedit].
  - done.
  - split; [| by unfold totals_consistent, recalculated, with_order_totals].
    unfold recalculated. cbn [ExtractedData.line_items].
    apply Forall_alter; [done |]. intros li _ _. reflexivity.
Qed.

Lemma edits_denote_consistent es d d' :
  edits_denote es d d' → invoice_consistent d → invoice_consistent d'.
Proof.
  induction 1 as [|field value es d d1 d' Hedit _ IH]; [done |].
  intros Hd. by eapply IH, edit_denotes_consistent.
Qed.

(** X9.  An invoice whose totals agree with its lines keeps agreeing
    through the edits of the form: after any sequence of edits of header
    fields and of line fields, [editedData] holds the invoice the edits
    describe, still laid out as a tree, every line total is quantity ×
    unit price and the totals are those computed from the lines. *)
Lemma handleEdits_keep_consistent es p d d' :
  snapshot_at (store p) (editedData p) d →
  invoice_consistent d →
  edits_denote es d d' →
  ∃ p', handleEdits es p = Done tt p'
    ∧ snapshot_at (store p') (editedData p') d'
    ∧ invoice_consistent d'.
Proof.
  intros Hsnap Hd Hes.
  destruct (handleEdits_denote es p d d' Hsnap Hes) as (p' & Hrun & Hsnap').
  exists p'. split_and!; [done | done |]. by eapply edits_denote_consistent.
Qed.

(** Without extracted data the handler returns at once. *)
Lemma handleEditField_without_data field value p :
  editedData p = VNull → handleEditField field value p = Done tt p.
Proof.
  intros Hnull. unfold handleEditField.
  rewrite (bind_Done get_state _ p p p) by done. by rewrite Hnull.
Qed.

(** X22.  A line index past the end of the array: [line_items[i]] is
    [undefined], the write to it throws a [TypeError], and
    [setEditedData] is not reached: [editedData] is the reference it was
    and no object that existed before the call has changed. *)
Lemma handleEditField_index_out_of_range p d i key value :
  snapshot_at (store p) (editedData p) d →
  (length (ExtractedData.line_items d) ≤ i)%nat →
  includes "." key = false →
  ∃ p', handleEditField (item_path i key) value p = Throw p'
    ∧ editedData p' = editedData p
    ∧ ∀ l, is_Some (store p !! l) → store p' !! l = store p !! l.
Proof.
  intros Hsnap Hi Hkey.
  destruct (snapshot_at_inv _ _ _ Hsnap)
    as (r & m & lh & mh & lb & lsh & la & ils & lt & mt & Hv & Hr & Hmh & Hma
        & Hmt & Hlh & Hb & Hs & Hhd & Hla & Hall & Hlt & Ht & Hnd).
  set (h := store p) in *. set (r' := fresh (dom h)).
  assert (h !! r' = None) as Hfresh by apply fresh_loc_unused.
  set (h1 := <[r' := Obj m]> h).
  assert (ils !! i = None) as Hnone.
  { apply lookup_ge_None. by rewrite (Forall2_length _ _ _ Hall). }
  exists (set_store h1 p). split_and!.
  - unfold handleEditField.
    rewrite (bind_Done get_state _ p p p) by done.
    rewrite Hv. cbn [truthy negb].
    rewrite (bind_Done _ _ p (VRef r') (set_store h1 p))
      by (apply on_store_Done, spread_object, Hr).
    rewrite split_item_path by done.
    unfold mbind at 1, M_bind at 1, bind at 1.
    unfold on_store at 1. cbn [store set_store].
    cbn [walk last_key last default from_option id]. unfold mbind, M_bind, bind.
    rewrite (get_prop_object h1 r' m) by (unfold h1; by rewrite lookup_insert_eq).
    rewrite Hma. cbn [default from_option id].
    rewrite (get_prop_array h1 la (VRef <$> ils) _ i).
    + rewrite list_lookup_fmap, Hnone. done.
    + unfold h1. rewrite lookup_insert_ne; [done |]. intros Heq.
      rewrite Heq in Hfresh. congruence.
    + apply array_index_string_of_nat.
  - done.
  - intros l [o Hl]. cbn [store set_store]. unfold h1.
    rewrite lookup_insert_ne; [done |]. intros Heq. rewrite <- Heq in Hl. congruence.
Qed.

(** ** The invoice a session installs *)

Section allocation.
Implicit Types (h : heap) (l : loc).

Lemma alloc_line_item li h :
  alloc_json (json_of_line_item li) h =
    Done (VRef (fresh (dom h)))
      (<[fresh (dom h) :=
           Obj (list_to_map
                  [ ("item_number", VStr (LineItem.item_number li));
                    ("description", VStr (LineItem.description li));
                    ("quantity", VNum (LineItem.quantity li));
                    ("unit_price", VNum (LineItem.unit_price li));
                    ("total", VNum (LineItem.total li)) ])]> h).
Proof. reflexivity. Qed.

Lemma line_item_of_json li :
  line_item_of
    (list_to_map
       [ ("item_number", VStr (LineItem.item_number li));
         ("description", VStr (LineItem.description li));
         ("quantity", VNum (LineItem.quantity li));
         ("unit_price", VNum (LineItem.unit_price li));
         ("total", VNum (LineItem.total li)) ]) = Some li.
Proof. apply line_item_of_Some. by split_and!. Qed.


Lemma alloc_fresh_extends h o : h ⊆ <[fresh (dom h) := o]> h.
Proof. apply insert_subseteq, fresh_loc_unused. Qed.

Lemma load_line_item_weaken h h' l li :
  load_line_item h l = Some li → h ⊆ h' → load_line_item h' l = Some li.
Proof.
  intros (m & Hm & Hli)%load_line_item_Some Hsub. apply load_line_item_Some.
  exists m. split; [| done]. by eapply lookup_weaken.
Qed.

(** [JSON.parse] builds the objects of the lines one after the other, each
    at a location not used before. *)
Lemma alloc_line_items items h :
  ∃ ils h',
    traverse alloc_json (json_of_line_item <$> items) h = Done (VRef <$> ils) h'
    ∧ h ⊆ h'
    ∧ NoDup ils
    ∧ (∀ l, l ∈ ils → h !! l = None)
    ∧ (∀ l, is_Some (h' !! l) → is_Some (h !! l) ∨ l ∈ ils)
    ∧ Forall2 (λ l li, load_line_item h' l = Some li) ils items.
Proof.
  revert h. induction items as [|li items IH]; intros h.
  { exists [], h. split_and!; try done.
    - constructor.
    - intros l Hl. by apply elem_of_nil in Hl.
    - intros l Hl. by left. }
  set (l := fresh (dom h)).
  set (h1 := <[l := Obj (list_to_map
                  [ ("item_number", VStr (LineItem.item_number li));
                    ("description", VStr (LineItem.description li));
                    ("quantity", VNum (LineItem.quantity li));
                    ("unit_price", VNum (LineItem.unit_price li));
                    ("total", VNum (LineItem.total li)) ])]> h).
  destruct (IH h1) as (ils & h' & Hrun & Hsub & Hnd & Hnew & Hdom & Hall).
  assert (h ⊆ h1) as Hsub1 by apply alloc_fresh_extends.
  assert (h1 !! l = Some (Obj (list_to_map
                  [ ("item_number", VStr (LineItem.item_number li));
                    ("description", VStr (LineItem.description li));
                    ("quantity", VNum (LineItem.quantity li));
                    ("unit_price", VNum (LineItem.unit_price li));
                    ("total", VNum (LineItem.total li)) ]))) as Hl
    by (unfold h1; by rewrite lookup_insert_eq).
  exists (l :: ils), h'. split_and!.
  - cbn [fmap list_fmap traverse]. unfold mbind, M_bind, bind.
    rewrite alloc_line_item. fold l h1. fold (fmap (M := list) json_of_line_item items).
    by rewrite Hrun.
  - by etrans.
  - constructor; [| done]. intros Hin. apply Hnew in Hin. congruence.
  - intros l' [->|Hin]%elem_of_cons.
    + apply fresh_loc_unused.
    + specialize (Hnew _ Hin). eapply lookup_weaken_None; done.
  - intros l' Hl'. destruct (Hdom _ Hl') as [H1|Hin].
    + unfold h1 in H1. destruct (decide (l' = l)) as [->|Hne].
      * right. apply elem_of_cons; by left.
      * left. by rewrite lookup_insert_ne in H1.
    + right. apply elem_of_cons; by right.
  - constructor; [| done].
    apply load_line_item_Some. eexists. split; [by eapply lookup_weaken |].
    apply line_item_of_json.
Qed.

Lemma fresh_ne h l : is_Some (h !! l) → l ≠ fresh (dom h).
Proof. intros [o Hl] ->. by rewrite fresh_loc_unused in Hl. Qed.

Lemma load_address_weaken h h' l a :
  load_address h l = Some a → h ⊆ h' → load_address h' l = Some a.
Proof.
  unfold load_address, object_at. intros Ha Hsub.
  destruct (h !! l) as [[m|]|] eqn:Hl; try done.
  by rewrite (lookup_weaken _ _ _ _ Hl Hsub).
Qed.

Lemma load_header_weaken h h' l hd :
  load_header h l = Some hd → h ⊆ h' → load_header h' l = Some hd.
Proof.
  unfold load_header, object_at. intros Hhd Hsub.
  destruct (h !! l) as [[m|]|] eqn:Hl; try done.
  rewrite (lookup_weaken _ _ _ _ Hl Hsub). simpl in *.
  apply header_of_Some in Hhd as (F1 & F2 & F3 & F4 & F5 & F6).
  apply header_of_Some. split_and!; try done.
  - destruct (ref_field m "bill_to"); [| done]. by eapply load_address_weaken.
  - destruct (ref_field m "ship_to"); [| done]. by eapply load_address_weaken.
Qed.

Lemma load_totals_weaken h h' l t :
  load_totals h l = Some t → h ⊆ h' → load_totals h' l = Some t.
Proof.
  intros (m & Hm & Ht)%load_totals_Some Hsub. apply load_totals_Some.
  exists m. split; [| done]. by eapply lookup_weaken.
Qed.

(** The header object, after its two address objects. *)
Lemma alloc_header hd h :
  ∃ lh lb lsh mh h',
    alloc_json (json_of_header hd) h = Done (VRef lh) h'
    ∧ h ⊆ h'
    ∧ h' !! lh = Some (Obj mh)
    ∧ mh !! "bill_to" = Some (VRef lb)
    ∧ mh !! "ship_to" = Some (VRef lsh)
    ∧ load_header h' lh = Some hd
    ∧ NoDup [lh; lb; lsh]
    ∧ is_Some (h' !! lb) ∧ is_Some (h' !! lsh).
Proof.
  destruct hd as [inv date cid comp [n1 a1 c1 s1 z1] [n2 a2 c2 s2 z2]].
  set (lb := fresh (dom h)).
  set (h1 := <[lb := Obj (list_to_map
                 [("name", VStr n1); ("address", VStr a1); ("city", VStr c1);
                  ("state", VStr s1); ("zip", VStr z1)])]> h).
  set (lsh := fresh (dom h1)).
  set (h2 := <[lsh := Obj (list_to_map
                 [("name", VStr n2); ("address", VStr a2); ("city", VStr c2);
                  ("state", VStr s2); ("zip", VStr z2)])]> h1).
  set (lh := fresh (dom h2)).
  set (mh := (list_to_map
                 [("invoice_number", VStr inv); ("date", VStr date);
                  ("customer_id", from_option VStr VNull cid);
                  ("company_name", VStr comp);
                  ("bill_to", VRef lb); ("ship_to", VRef lsh)] : gmap string val)).
  set (h3 := <[lh := Obj mh]> h2).
  assert (h ⊆ h1) as S1 by apply alloc_fresh_extends.
  assert (h1 ⊆ h2) as S2 by apply alloc_fresh_extends.
  assert (h2 ⊆ h3) as S3 by apply alloc_fresh_extends.
  assert (is_Some (h1 !! lb)) as Hb1 by (unfold h1; rewrite lookup_insert_eq; by eexists).
  assert (is_Some (h2 !! lsh)) as Hs2 by (unfold h2; rewrite lookup_insert_eq; by eexists).
  assert (is_Some (h2 !! lb)) as Hb2.
  { destruct Hb1 as [o Ho]. exists o. by eapply lookup_weaken. }
  assert (lb ≠ lsh) as Hbs by (by apply fresh_ne).
  assert (lb ≠ lh) as Hbh by (by apply fresh_ne).
  assert (lsh ≠ lh) as Hsh by (by apply fresh_ne).
  exists lh, lb, lsh, mh, h3. split_and!.
  - by destruct cid.
  - by etrans; [| etrans].
  - unfold h3. by rewrite lookup_insert_eq.
  - done.
  - done.
  - assert (load_address h3 lb = Some (Address.mk n1 a1 c1 s1 z1)) as Hab.
    { apply (load_address_weaken h1); [| by etrans].
      unfold load_address, object_at, h1. by rewrite lookup_insert_eq. }
    assert (load_address h3 lsh = Some (Address.mk n2 a2 c2 s2 z2)) as Has.
    { apply (load_address_weaken h2); [| done].
      unfold load_address, object_at, h2. by rewrite lookup_insert_eq. }
    assert (h3 !! lh = Some (Obj mh)) as H3 by (unfold h3; by rewrite lookup_insert_eq).
    unfold load_header, object_at. rewrite H3. cbn [mbind option_bind].
    apply header_of_Some. unfold ref_field. cbn [Header.invoice_number Header.date
      Header.customer_id Header.company_name Header.bill_to Header.ship_to].
    split_and!; try done.
  - apply NoDup_cons. split; [| apply NoDup_cons; split; [| apply NoDup_singleton]].
    + rewrite !not_elem_of_cons. split_and!; [done | done | apply not_elem_of_nil].
    + rewrite !not_elem_of_cons. split_and!; [done | apply not_elem_of_nil].
  - destruct Hb2 as [o Ho]. exists o. by eapply lookup_weaken.
  - destruct Hs2 as [o Ho]. exists o. by eapply lookup_weaken.
Qed.

(** The invoice [JSON.parse] builds from the JSON form of [d] reads back as
    [d] and is laid out as a tree. *)
Lemma alloc_invoice d h :
  ∃ r h', alloc_json (json_of_invoice d) h = Done (VRef r) h'
    ∧ snapshot_at h' (VRef r) d.
Proof.
  destruct d as [hd items t].
  destruct (alloc_header hd h)
    as (lh & lb & lsh & mh & h3 & Hhd_run & S3 & H3lh & Hmb & Hms & Hhd & Hnd3 & H3lb & H3ls).
  destruct (alloc_line_items items h3)
    as (ils & h4 & Hitems_run & S4 & Hnd_ils & Hnew & Hdom4 & Hall).
  set (la := fresh (dom h4)).
  set (h5 := <[la := Arr (VRef <$> ils)]> h4).
  set (lt := fresh (dom h5)).
  set (mt := (list_to_map
                [("subtotal", VNum (Totals.subtotal t));
                 ("tax_rate", VNum (Totals.tax_rate t));
                 ("tax_amount", VNum (Totals.tax_amount t));
                 ("shipping", VNum (Totals.shipping t));
                 ("total", VNum (Totals.total t))] : gmap string val)).
  set (h6 := <[lt := Obj mt]> h5).
  set (r := fresh (dom h6)).
  set (m := (list_to_map
               [("header", VRef lh); ("line_items", VRef la); ("totals", VRef lt)]
             : gmap string val)).
  set (h7 := <[r := Obj m]> h6).
  assert (h4 ⊆ h5) as S5 by apply alloc_fresh_extends.
  assert (h5 ⊆ h6) as S6 by apply alloc_fresh_extends.
  assert (h6 ⊆ h7) as S7 by apply alloc_fresh_extends.
  assert (h3 ⊆ h7) as S37 by (by repeat (etrans; [eassumption |])).
  assert (h4 ⊆ h7) as S47 by (by repeat (etrans; [eassumption |])).
  assert (h5 !! la = Some (Arr (VRef <$> ils))) as H5la
    by (unfold h5; by rewrite lookup_insert_eq).
  assert (h6 !! lt = Some (Obj mt)) as H6lt by (unfold h6; by rewrite lookup_insert_eq).
  assert (h7 !! r = Some (Obj m)) as H7r by (unfold h7; by rewrite lookup_insert_eq).
  assert (∀ l, is_Some (h3 !! l) → is_Some (h4 !! l)) as Up34.
  { intros l [o Ho]. exists o. by eapply lookup_weaken. }
  assert (∀ l, is_Some (h4 !! l) → is_Some (h5 !! l)) as Up45.
  { intros l [o Ho]. exists o. by eapply lookup_weaken. }
  assert (∀ l, is_Some (h5 !! l) → is_Some (h6 !! l)) as Up56.
  { intros l [o Ho]. exists o. by eapply lookup_weaken. }
  assert (∀ l, l ∈ ils → is_Some (h4 !! l)) as Hils4.
  { intros l [j Hj]%list_elem_of_lookup.
    destruct (Forall2_lookup_l _ _ _ _ _ Hall Hj) as (li & _ & Hli).
    apply load_line_item_Some in Hli as (? & ? & _). by eexists. }
  assert (is_Some (h3 !! lh)) as H3lh' by (by eexists).
  exists r, h7. split.
  - unfold json_of_invoice. cbn [alloc_json traverse fst snd].
    cbn [ExtractedData.header ExtractedData.line_items ExtractedData.totals].
    unfold mbind, M_bind, bind. rewrite Hhd_run.
    unfold mret, M_ret, ret. rewrite Hitems_run.
    reflexivity.
  - split.
    + assert (object_at h7 r = Some m) as Or by (by apply object_at_Some).
      assert (ref_field m "header" = Some lh) as Rh by done.
      assert (ref_field m "line_items" = Some la) as Ra by done.
      assert (ref_field m "totals" = Some lt) as Rt by done.
      unfold load_snapshot. cbn [as_ref mbind option_bind].
      rewrite Or. cbn [mbind option_bind]. rewrite Rh, Ra, Rt. cbn [mbind option_bind].
      rewrite (load_header_weaken h3 h7 lh hd Hhd S37). cbn [mbind option_bind].
      rewrite (load_line_items_Some h7 la ils items).
      2:{ eapply lookup_weaken; [exact H5la | by etrans]. }
      2:{ eapply Forall2_impl; [exact Hall |]. intros l li Hli.
          exact (load_line_item_weaken h4 h7 l li Hli S47). }
      cbn [mbind option_bind].
      rewrite (load_totals_weaken h6 h7 lt t); [done | | done].
      apply load_totals_Some. exists mt. split; [done |].
      apply totals_of_Some. by split_and!.
    + exists (r :: lh :: lb :: lsh :: la :: lt :: ils). split.
      * assert (object_at h7 r = Some m) as Or by (by apply object_at_Some).
        assert (object_at h7 lh = Some mh) as Oh.
        { apply object_at_Some. by eapply lookup_weaken. }
        assert (array_at h7 la = Some (VRef <$> ils)) as Oa.
        { apply array_at_Some. eapply lookup_weaken; [exact H5la | by etrans]. }
        assert (ref_field m "header" = Some lh) as Rh by done.
        assert (ref_field m "line_items" = Some la) as Ra by done.
        assert (ref_field m "totals" = Some lt) as Rt by done.
        assert (ref_field mh "bill_to" = Some lb) as Rb by (by apply ref_field_Some).
        assert (ref_field mh "ship_to" = Some lsh) as Rs by (by apply ref_field_Some).
        unfold snapshot_locs. cbn [as_ref mbind option_bind].
        rewrite Or. cbn [mbind option_bind]. rewrite Rh. cbn [mbind option_bind].
        rewrite Oh. cbn [mbind option_bind]. rewrite Rb, Rs, Ra. cbn [mbind option_bind].
        rewrite Oa. cbn [mbind option_bind]. rewrite mapM_as_ref, Rt. done.
      * apply NoDup_cons in Hnd3 as [Hlh_out Hnd3].
        apply NoDup_cons in Hnd3 as [Hlb_out _].
        rewrite !not_elem_of_cons in Hlh_out. rewrite not_elem_of_cons in Hlb_out.
        destruct Hlh_out as (Hlh_lb & Hlh_ls & _). destruct Hlb_out as (Hlb_ls & _).
        assert (∀ l, is_Some (h3 !! l) → l ∉ ils) as Hold_ils.
        { intros l [o Ho] Hin. apply Hnew in Hin. congruence. }
        assert (∀ l, is_Some (h4 !! l) → l ≠ la) as Hla_new by (intros; by apply fresh_ne).
        assert (∀ l, is_Some (h5 !! l) → l ≠ lt) as Hlt_new by (intros; by apply fresh_ne).
        assert (∀ l, is_Some (h6 !! l) → l ≠ r) as Hr_new by (intros; by apply fresh_ne).
        assert (is_Some (h5 !! la)) as Hla5 by (by eexists).
        assert (is_Some (h6 !! lt)) as Hlt6 by (by eexists).
        assert (is_Some (h4 !! lh) ∧ is_Some (h4 !! lb) ∧ is_Some (h4 !! lsh))
          as (Hlh4 & Hlb4 & Hls4) by (split_and!; by apply Up34).
        assert (∀ l, l ∈ ils → l ≠ la) as Hils_la by (intros l Hl; by apply Hla_new, Hils4).
        assert (∀ l, l ∈ ils → l ≠ lt) as Hils_lt
          by (intros l Hl; by apply Hlt_new, Up45, Hils4).
        assert (∀ l, l ∈ ils → l ≠ r) as Hils_r
          by (intros l Hl; by apply Hr_new, Up56, Up45, Hils4).
        assert (∀ x l, (∀ l', l' ∈ ils → l' ≠ x) → l ∈ ils → x ≠ l) as Hflip.
        { intros x l Hx Hl ->. by apply (Hx l). }
        apply NoDup_cons. split.
        { rewrite !not_elem_of_cons. split_and!.
          - apply not_eq_sym, Hr_new, Up56, Up45, Hlh4.
          - apply not_eq_sym, Hr_new, Up56, Up45, Hlb4.
          - apply not_eq_sym, Hr_new, Up56, Up45, Hls4.
          - apply not_eq_sym, Hr_new, Up56, Hla5.
          - apply not_eq_sym, Hr_new, Hlt6.
          - intros Hin. by apply (Hils_r r). }
        apply NoDup_cons. split.
        { rewrite !not_elem_of_cons. split_and!; [done | done | | |].
          - by apply Hla_new.
          - by apply Hlt_new, Up45.
          - by apply Hold_ils. }
        apply NoDup_cons. split.
        { rewrite !not_elem_of_cons. split_and!; [done | | |].
          - by apply Hla_new.
          - by apply Hlt_new, Up45.
          - apply Hold_ils. destruct H3lb as [o Ho]. by exists o. }
        apply NoDup_cons. split.
        { rewrite !not_elem_of_cons. split_and!.
          - by apply Hla_new.
          - by apply Hlt_new, Up45.
          - apply Hold_ils. destruct H3ls as [o Ho]. by exists o. }
        apply NoDup_cons. split.
        { rewrite !not_elem_of_cons. split_and!.
          - by apply Hlt_new.
          - intros Hin. by apply (Hils_la la). }
        apply NoDup_cons. split; [| done].
        intros Hin. by apply (Hils_lt lt).
Qed.


(** Every invoice has a page that edits a fresh copy of it. *)
Lemma snapshot_at_page_editing d :
  snapshot_at (store (page_editing d)) (editedData (page_editing d)) d.
Proof.
  unfold page_editing.
  destruct (alloc_invoice d ∅) as (r & h & -> & Hsnap). exact Hsnap.
Qed.

(** The success result of a session installs such a copy: after a result
    event that carries the invoice [d] (its numbers as [JSON.stringify]
    writes them), [editedData] denotes [d], laid out as a tree. *)
Lemma result_event_installs_invoice d p :
  json_roundtrip (json_of_invoice d) = json_of_invoice d →
  ∃ p',
    handle_data (Some (success_result (json_of_invoice d))) p = Done tt p'
    ∧ snapshot_at (store p') (editedData p') d
    ∧ processingComplete p' = true.
Proof.
  intros Hplain.
  destruct (alloc_invoice d (store p)) as (r & h & Hrun & Hsnap).
  rewrite <- Hplain in Hrun.
  remember (json_of_invoice d) as j eqn:Hj. clear Hj Hplain.
  eexists. split.
  { unfold handle_data, success_result.
    unfold mbind, M_bind, bind, mret, M_ret, ret, modify, json_get, on_store.
    cbn. by rewrite Hrun. }
  split; [exact Hsnap | reflexivity].
Qed.
End allocation.

(** ** The claims about [handleEditField] *)

Lemma recalculated_line i change d li :
  ExtractedData.line_items d !! i = Some li →
  ExtractedData.line_items (recalculated i change d) !! i =
    Some (with_line_total (change li)).
Proof.
  intros Hli. unfold recalculated. cbn [ExtractedData.line_items].
  by rewrite list_lookup_alter_eq, Hli.
Qed.

Lemma recalculated_other_lines i j change d :
  j ≠ i →
  ExtractedData.line_items (recalculated i change d) !! j =
    ExtractedData.line_items d !! j.
Proof.
  intros Hne. unfold recalculated. cbn [ExtractedData.line_items].
  by rewrite list_lookup_alter_ne.
Qed.

Lemma recalculated_consistent i change d :
  totals_consistent (recalculated i change d).
Proof. by unfold totals_consistent, recalculated, with_order_totals. Qed.

(** C1.  An edit of a line item's quantity or unit price, on an invoice laid
    out in the store as [JSON.parse] builds it, ends normally, and the new
    snapshot reads: the edited value in that line, the line total equal to
    quantity × unit price, the subtotal equal to the sum of the line totals
    (added from the left, starting at 0), the tax amount equal to
    subtotal × (tax rate / 100) and the total equal to
    subtotal + tax amount + shipping, in binary64 arithmetic; the tax rate,
    the shipping, the header and the other lines are as before.  With tax
    rate 8, subtotal 100 and shipping 5 the tax amount is 8 and the total
    113. *)
Theorem line_edit_recomputes_totals p d i key x change :
  snapshot_at (store p) (editedData p) d →
  i < length (ExtractedData.line_items d) →
  item_edit key (VNum x) change →
  ∃ p' d' li li',
    handleEditField (item_path i key) (VNum x) p = Done tt p'
    ∧ load_snapshot (store p') (editedData p') = Some d'
    ∧ ExtractedData.line_items d !! i = Some li
    ∧ ExtractedData.line_items d' !! i = Some li'
    ∧ (key = "quantity" ∧ LineItem.quantity li' = x
         ∧ LineItem.unit_price li' = LineItem.unit_price li
       ∨ key = "unit_price" ∧ LineItem.unit_price li' = x
         ∧ LineItem.quantity li' = LineItem.quantity li)
    ∧ line_consistent li'
    ∧ totals_consistent d'
    ∧ Totals.tax_rate (ExtractedData.totals d') = Totals.tax_rate (ExtractedData.totals d)
    ∧ Totals.shipping (ExtractedData.totals d') = Totals.shipping (ExtractedData.totals d)
    ∧ ExtractedData.header d' = ExtractedData.header d
    ∧ (∀ j, j ≠ i → ExtractedData.line_items d' !! j = ExtractedData.line_items d !! j)
    ∧ (Totals.tax_rate (ExtractedData.totals d') = 8%float →
       Totals.subtotal (ExtractedData.totals d') = 100%float →
       Totals.shipping (ExtractedData.totals d') = 5%float →
       Totals.tax_amount (ExtractedData.totals d') = 8%float
       ∧ Totals.total (ExtractedData.totals d') = 113%float).
Proof.
  intros Hsnap Hi Hedit.
  destruct (handleEditField_item p d i key (VNum x) change Hsnap Hi Hedit)
    as (p' & Hrun & [Hload _] & _).
  destruct (lookup_lt_is_Some_2 _ _ Hi) as [li Hli].
  exists p', (recalculated i change d), li, (with_line_total (change li)).
  split_and!; try done.
  - by apply recalculated_line.
  - inversion Hedit; subst; [left | right]; done.
  - intros j Hj. by apply recalculated_other_lines.
  - pose proof (recalculated_consistent i change d) as (Hsub & Htax & Htot).
    intros Hrate Hsubtotal Hship.
    rewrite Htot, Htax, Hrate, Hsubtotal, Hship. by vm_compute.
Qed.

Lemma line_edit_recomputes_totals_witness :
  ∃ p' d' li li',
    handleEditField (item_path 1 "quantity") (VNum 2%float)
      (page_editing draft_invoice) = Done tt p'
    ∧ load_snapshot (store p') (editedData p') = Some d'
    ∧ ExtractedData.line_items draft_invoice !! 1 = Some li
    ∧ ExtractedData.line_items d' !! 1 = Some li'
    ∧ ("quantity" = "quantity" ∧ LineItem.quantity li' = 2%float
         ∧ LineItem.unit_price li' = LineItem.unit_price li
       ∨ "quantity" = "unit_price" ∧ LineItem.unit_price li' = 2%float
         ∧ LineItem.quantity li' = LineItem.quantity li)
    ∧ line_consistent li'
    ∧ totals_consistent d'
    ∧ Totals.tax_rate (ExtractedData.totals d') =
        Totals.tax_rate (ExtractedData.totals draft_invoice)
    ∧ Totals.shipping (ExtractedData.totals d') =
        Totals.shipping (ExtractedData.totals draft_invoice)
    ∧ ExtractedData.header d' = ExtractedData.header draft_invoice
    ∧ (∀ j, j ≠ 1 →
         ExtractedData.line_items d' !! j = ExtractedData.line_items draft_invoice !! j)
    ∧ (Totals.tax_rate (ExtractedData.totals d') = 8%float →
       Totals.subtotal (ExtractedData.totals d') = 100%float →
       Totals.shipping (ExtractedData.totals d') = 5%float →
       Totals.tax_amount (ExtractedData.totals d') = 8%float
       ∧ Totals.total (ExtractedData.totals d') = 113%float).
Proof.
  apply (line_edit_recomputes_totals (page_editing draft_invoice) draft_invoice 1
           "quantity" 2%float (set_quantity 2%float)).
  - split; [by vm_compute |].
    eexists. split; [by vm_compute |].
    apply (bool_decide_unpack _). by vm_compute.
  - simpl. lia.
  - constructor.
Defined.

(** The edit of the draft, evaluated: the second line becomes 2 × 25 = 50,
    the subtotal 100, the tax 8 and the total 113. *)
Example draft_quantity_edit :
  ∃ p', handleEditField (item_path 1 "quantity") (VNum 2%float)
          (page_editing draft_invoice) = Done tt p'
    ∧ load_snapshot (store p') (editedData p') = Some sample_invoice.
Proof. eexists. split; by vm_compute. Qed.

Lemma load_snapshot_same_root h l l' :
  h !! l = h !! l' → load_snapshot h (VRef l) = load_snapshot h (VRef l').
Proof. intros Heq. unfold load_snapshot, object_at. simpl. by rewrite Heq. Qed.

Lemma sum_totals_insert_same items i li li' :
  items !! i = Some li →
  LineItem.total li' = LineItem.total li →
  sum_totals (<[i := li']> items) = sum_totals items.
Proof.
  intros Hli Htotal. unfold sum_totals.
  assert (∀ xs acc,
            fold_left (λ sum li, PrimFloat.add sum (LineItem.total li)) xs acc =
            fold_left PrimFloat.add (LineItem.total <$> xs) acc) as Hfold.
  { induction xs as [|y ys IH]; intros acc; [done | apply IH]. }
  rewrite !Hfold, list_fmap_insert, Htotal.
  rewrite list_insert_id; [done |]. by rewrite list_lookup_fmap, Hli.
Qed.

(** C5 (as amended).  An edit of a header field applies the text verbatim
    and recomputes nothing: the line items and the totals read as before.
    An edit of a line item's description or item number applies the text
    verbatim and leaves quantity and unit price as they were, but it runs
    the same recalculation as an edit of the quantity: the line total
    becomes quantity × unit price and subtotal, tax amount and total are
    recomputed from the line totals.  The line total and the totals are
    unchanged when they already satisfied these equations. *)
Theorem other_edits_apply_verbatim p d :
  snapshot_at (store p) (editedData p) d →
  (∀ key s change,
     header_edit key s change →
     ∃ p' d',
       handleEditField (header_path key) (VStr s) p = Done tt p'
       ∧ load_snapshot (store p') (editedData p') = Some d'
       ∧ ExtractedData.header d' = change (ExtractedData.header d)
       ∧ ExtractedData.line_items d' = ExtractedData.line_items d
       ∧ ExtractedData.totals d' = ExtractedData.totals d)
  ∧ (∀ i key s change li,
       item_edit key (VStr s) change →
       ExtractedData.line_items d !! i = Some li →
       ∃ p' d',
         handleEditField (item_path i key) (VStr s) p = Done tt p'
         ∧ load_snapshot (store p') (editedData p') = Some d'
         ∧ ExtractedData.header d' = ExtractedData.header d
         ∧ ExtractedData.line_items d' =
             <[i := with_line_total (change li)]> (ExtractedData.line_items d)
         ∧ LineItem.quantity (change li) = LineItem.quantity li
         ∧ LineItem.unit_price (change li) = LineItem.unit_price li
         ∧ ExtractedData.totals d' =
             with_order_totals (ExtractedData.line_items d') (ExtractedData.totals d)
         ∧ (line_consistent li → totals_consistent d →
            ExtractedData.line_items d' = <[i := change li]> (ExtractedData.line_items d)
            ∧ LineItem.total (change li) = LineItem.total li
            ∧ ExtractedData.totals d' = ExtractedData.totals d)).
Proof.
  intros Hsnap. split.
  - intros key s change Hedit.
    destruct (handleEditField_header p d key s change Hsnap Hedit)
      as (p' & Hrun & [Hload _] & _).
    by eexists _, _.
  - intros i key s change li Hedit Hli.
    assert (i < length (ExtractedData.line_items d)) as Hi
      by (by eapply lookup_lt_Some).
    destruct (handleEditField_item p d i key (VStr s) change Hsnap Hi Hedit)
      as (p' & Hrun & [Hload _] & _).
    exists p', (recalculated i change d).
    assert (ExtractedData.line_items (recalculated i change d) =
            <[i := with_line_total (change li)]> (ExtractedData.line_items d)) as Hitems.
    { unfold recalculated. cbn [ExtractedData.line_items].
      exact (alter_as_insert _ _ _ _ Hli). }
    assert (LineItem.quantity (change li) = LineItem.quantity li
            ∧ LineItem.unit_price (change li) = LineItem.unit_price li
            ∧ LineItem.total (change li) = LineItem.total li) as (Hq & Hp & Ht).
    { by inversion Hedit. }
    split_and!; try done.
    intros Hline (Hsub & Htax & Htot).
    assert (with_line_total (change li) = change li) as Hsame.
    { unfold with_line_total, line_consistent in *.
      destruct (change li) as [a b cq cp ct]. simpl in *. subst cq cp ct.
      by rewrite Hline. }
    rewrite Hitems, Hsame. split_and!; [done | done |].
    unfold recalculated. cbn [ExtractedData.totals].
    rewrite (alter_as_insert _ _ _ _ Hli), Hsame.
    unfold with_order_totals.
    rewrite (sum_totals_insert_same _ _ li) by done.
    rewrite <- Hsub, <- Htax, <- Htot. by destruct (ExtractedData.totals d).
Qed.

Lemma other_edits_apply_verbatim_witness :
  (∀ key s change,
     header_edit key s change →
     ∃ p' d',
       handleEditField (header_path key) (VStr s) (page_editing sample_invoice) = Done tt p'
       ∧ load_snapshot (store p') (editedData p') = Some d'
       ∧ ExtractedData.header d' = change (ExtractedData.header sample_invoice)
       ∧ ExtractedData.line_items d' = ExtractedData.line_items sample_invoice
       ∧ ExtractedData.totals d' = ExtractedData.totals sample_invoice)
  ∧ (∀ i key s change li,
       item_edit key (VStr s) change →
       ExtractedData.line_items sample_invoice !! i = Some li →
       ∃ p' d',
         handleEditField (item_path i key) (VStr s) (page_editing sample_invoice) = Done tt p'
         ∧ load_snapshot (store p') (editedData p') = Some d'
         ∧ ExtractedData.header d' = ExtractedData.header sample_invoice
         ∧ ExtractedData.line_items d' =
             <[i := with_line_total (change li)]> (ExtractedData.line_items sample_invoice)
         ∧ LineItem.quantity (change li) = LineItem.quantity li
         ∧ LineItem.unit_price (change li) = LineItem.unit_price li
         ∧ ExtractedData.totals d' =
             with_order_totals (ExtractedData.line_items d') (ExtractedData.totals sample_invoice)
         ∧ (line_consistent li → totals_consistent sample_invoice →
            ExtractedData.line_items d' = <[i := change li]> (ExtractedData.line_items sample_invoice)
            ∧ LineItem.total (change li) = LineItem.total li
            ∧ ExtractedData.totals d' = ExtractedData.totals sample_invoice)).
Proof.
  apply (other_edits_apply_verbatim (page_editing sample_invoice) sample_invoice).
  split; [by vm_compute |].
  eexists. split; [by vm_compute |].
  apply (bool_decide_unpack _). by vm_compute.
Defined.

(** C5 fails as stated: the extraction gave line 1 the total 45.00 for 5 at
    10.00; editing the description of that line makes the line total 50,
    the subtotal 100, the tax amount 10 and the total 115. *)
Lemma description_edit_counterexample :
  (∃ p', handleEditField (item_path 0 "description") (VStr "Widget, blue")
           (page_editing inconsistent_invoice) = Done tt p'
     ∧ load_snapshot (store p') (editedData p') =
         Some (ExtractedData.mk sample_header
                 [ LineItem.mk "A-1" "Widget, blue" 5%float 10%float 50%float;
                   LineItem.mk "B-2" "Gadget" 2%float 25%float 50%float ]
                 (Totals.mk 100%float 10%float 10%float 5%float 115%float)))
  ∧ ¬ leaves_totals_unchanged (item_path 0 "description") (VStr "Widget, blue")
        (page_editing inconsistent_invoice).
Proof.
  split; [eexists; split; by vm_compute |].
  intros H.
  destruct (H inconsistent_invoice) as (p' & d' & Hrun & Hload & _ & Ht);
    [by vm_compute |].
  vm_compute in Hrun. injection Hrun as <-.
  vm_compute in Hload. injection Hload as <-.
  apply (f_equal (λ t, PrimFloat.eqb (Totals.subtotal t) 100%float)) in Ht.
  vm_compute in Ht. discriminate Ht.
Qed.

(** C4, at a failing input.  After the invoice number of the sample invoice
    is edited, the snapshot the caller held before the call reads the new
    number too: [{ ...editedData }] copies the top-level object only, and
    the header object written to is shared with the original. *)
Theorem header_edit_mutates_original_snapshot :
  ∃ p', handleEditField (header_path "invoice_number") (VStr "INV-2")
          (page_editing sample_invoice) = Done tt p'
    ∧ editedData p' ≠ editedData (page_editing sample_invoice)
    ∧ load_snapshot (store (page_editing sample_invoice))
        (editedData (page_editing sample_invoice)) = Some sample_invoice
    ∧ load_snapshot (store p') (editedData (page_editing sample_invoice)) =
        Some (ExtractedData.mk (set_invoice_number "INV-2" sample_header)
                (ExtractedData.line_items sample_invoice)
                (ExtractedData.totals sample_invoice))
    ∧ ¬ leaves_original_untouched (header_path "invoice_number") (VStr "INV-2")
          (page_editing sample_invoice).
Proof.
  eexists. split_and!; [by vm_compute | by vm_compute | by vm_compute | by vm_compute |].
  intros H. specialize (H _ eq_refl). vm_compute in H. discriminate H.
Qed.

(** The same through a line: after the quantity of line 2 of the draft is
    edited, the caller's old snapshot reads the new quantity, line total
    and totals. *)
Lemma quantity_edit_mutates_original_snapshot :
  ∃ p', handleEditField (item_path 1 "quantity") (VNum 2%float)
          (page_editing draft_invoice) = Done tt p'
    ∧ load_snapshot (store (page_editing draft_invoice))
        (editedData (page_editing draft_invoice)) = Some draft_invoice
    ∧ load_snapshot (store p') (editedData (page_editing draft_invoice)) =
        Some sample_invoice.
Proof. eexists. split_and!; by vm_compute. Qed.

(** In general: after an edit of a line, the caller's old reference and
    the new one read the same invoice. *)
Lemma edit_shows_through_original_snapshot p d i key value change :
  snapshot_at (store p) (editedData p) d →
  i < length (ExtractedData.line_items d) →
  item_edit key value change →
  ∃ p', handleEditField (item_path i key) value p = Done tt p'
    ∧ load_snapshot (store p') (editedData p) = Some (recalculated i change d)
    ∧ load_snapshot (store p') (editedData p') = Some (recalculated i change d).
Proof.
  intros Hsnap Hi Hedit.
  destruct (handleEditField_item p d i key value change Hsnap Hi Hedit)
    as (p' & Hrun & [Hload _] & Hroot & Hnew).
  exists p'. split_and!; [done | | done].
  destruct (snapshot_at_inv _ _ _ Hsnap) as (r & ? & ? & ? & ? & ? & ? & ? & ? & ? & Hv & _).
  rewrite Hv in *. cbn [root_of] in Hroot. rewrite Hnew in Hload.
  by rewrite <- (load_snapshot_same_root _ _ _ Hroot).
Qed.

(** * Further properties *)

(** ** The upload session *)

Section session_frames.
Variable JSON_parse : string → option json.

(** The state variables no frame writes. *)
Lemma handle_data_frame data p :
  match handle_data data p with
  | Done _ p' | Throw p' =>
      file p' = file p ∧ isLoading p' = isLoading p
      ∧ saveToDb p' = saveToDb p
      ∧ showProcessingModal p' = showProcessingModal p
  | Unmodelled => True
  end.
Proof.
  unfold handle_data, json_get, on_store. unfold_monad.
  repeat (case_match; simplify_eq/=; try done).
Qed.

Lemma handle_line_frame line p :
  match handle_line JSON_parse line p with
  | Done _ p' =>
      file p' = file p ∧ isLoading p' = isLoading p
      ∧ saveToDb p' = saveToDb p
      ∧ showProcessingModal p' = showProcessingModal p
  | Throw _ => False
  | Unmodelled => True
  end.
Proof.
  unfold handle_line. destruct (String.prefix _ _); [| done].
  unfold_monad. destruct (JSON_parse _); [| done].
  pose proof (handle_data_frame (Some j) p) as H.
  by destruct (handle_data _ p).
Qed.

Lemma for_each_frame ls : ∀ p,
  match for_each (handle_line JSON_parse) ls p with
  | Done _ p' =>
      file p' = file p ∧ isLoading p' = isLoading p
      ∧ saveToDb p' = saveToDb p
      ∧ showProcessingModal p' = showProcessingModal p
  | Throw _ => False
  | Unmodelled => True
  end.
Proof.
  induction ls as [|l ls IH]; intros p; [done |].
  simpl. unfold_monad.
  pose proof (handle_line_frame l p) as Hl.
  destruct (handle_line JSON_parse l p) as [[] p1|p1|]; [| done | done].
  pose proof (IH p1) as Hls.
  destruct (for_each _ ls p1) as [[] p2|p2|]; [| done | done].
  destruct Hl as (<- & <- & <- & <-). exact Hls.
Qed.

(** X7.  No exception leaves [handleUpload]: what the request, the reads
    and the frames throw is caught.  Without a file the call changes
    nothing; with a file, when it returns, [isLoading] is false again, the
    processing dialog is open and the file is still selected. *)
Theorem handleUpload_catches_every_exception t p :
  (∀ q, handleUpload JSON_parse t p ≠ Throw q)
  ∧ (file p = None → handleUpload JSON_parse t p = Done tt p)
  ∧ (∀ p', is_Some (file p) →
       handleUpload JSON_parse t p = Done tt p' →
       isLoading p' = false ∧ showProcessingModal p' = true ∧ file p' = file p).
Proof.
  split_and!.
  - intros q. unfold handleUpload. unfold_monad.
    destruct (file p); [| done]. unfold consume. unfold_monad.
    destruct t as [| |chunks ending]; [done | done |].
    rewrite read_loop_frames. unfold_monad.
    destruct (for_each _ _ _) as [[] p1|p1|]; [| done | done].
    by destruct ending.
  - intros Hf. unfold handleUpload. unfold_monad. by rewrite Hf.
  - intros p' [f Hf] Hrun. rewrite (handleUpload_begin _ _ _ f Hf) in Hrun.
    unfold consume in Hrun. unfold_monad.
    destruct t as [| |chunks ending].
    + by injection Hrun as <-.
    + by injection Hrun as <-.
    + rewrite read_loop_frames in Hrun. unfold_monad.
      pose proof (for_each_frame (frames chunks "") (begin_session p)) as Hfr.
      destruct (for_each _ _ _) as [[] p1|p1|]; [| done | done].
      destruct Hfr as (Hfile & _ & _ & Hmodal).
      destruct ending; injection Hrun as <-; simpl; by rewrite Hfile, Hmodal.
Qed.

(** A frame that is no success result leaves the extracted invoice, the
    store and the completion flag as they are. *)
Lemma handle_data_keeps_invoice j p :
  well_typed j = true →
  from_option is_success false (event_of j) = false →
  ∃ p', (handle_data (Some j) p = Done tt p' ∨ handle_data (Some j) p = Throw p')
    ∧ editedData p' = editedData p
    ∧ store p' = store p
    ∧ processingComplete p' = processingComplete p
    ∧ stats_requests p' = stats_requests p.
Proof.
  unfold well_typed, is_step, event_of, is_result, step_args.
  unfold handle_data, json_get, on_store. unfold_monad.
  intros Ht Hs.
  repeat (case_match; simplify_eq/=; try done);
    try (eexists; split_and!; [by (left + right) | done..]).
Qed.

Lemma handle_line_keeps_invoice line p :
  frame_typed JSON_parse line →
  from_option is_success false (frame_event JSON_parse line) = false →
  ∃ p', handle_line JSON_parse line p = Done tt p'
    ∧ editedData p' = editedData p
    ∧ store p' = store p
    ∧ processingComplete p' = processingComplete p
    ∧ stats_requests p' = stats_requests p.
Proof.
  unfold frame_typed, frame_event, payload, handle_line.
  destruct (String.prefix _ _); [| by eexists].
  unfold_monad. destruct (JSON_parse _) as [j|]; [| by eexists].
  intros Ht Hs.
  destruct (handle_data_keeps_invoice j p Ht Hs) as (p' & [-> | ->] & ?);
    by eexists.
Qed.

Lemma for_each_keeps_invoice ls : ∀ p,
  Forall (frame_typed JSON_parse) ls →
  Forall (λ e, is_success e = false) (omap (frame_event JSON_parse) ls) →
  ∃ p', for_each (handle_line JSON_parse) ls p = Done tt p'
    ∧ editedData p' = editedData p
    ∧ store p' = store p
    ∧ processingComplete p' = processingComplete p
    ∧ stats_requests p' = stats_requests p.
Proof.
  induction ls as [|l ls IH]; intros p Hty Hs; [by eexists |].
  apply Forall_cons in Hty as [Hl Hty]. cbn [omap list_omap] in Hs.
  assert (from_option is_success false (frame_event JSON_parse l) = false
          ∧ Forall (λ e, is_success e = false) (omap (frame_event JSON_parse) ls))
    as [Hl' Hs'].
  { destruct (frame_event JSON_parse l); [by apply Forall_cons in Hs | done]. }
  destruct (handle_line_keeps_invoice l p Hl Hl') as (p1 & Hrun1 & E1 & S1 & C1 & R1).
  destruct (IH p1 Hty Hs') as (p2 & Hrun2 & E2 & S2 & C2 & R2).
  exists p2. simpl. unfold_monad. rewrite Hrun1, Hrun2.
  split_and!; [done | congruence..].
Qed.

(** X4.  An upload whose stream brings no success result leaves the
    invoice of the previous session in [editedData]: the reference and the
    store are the ones before the call, the completion flag is false and
    [fetchStats] is not called.  This holds as well when the request or a
    read fails. *)
Theorem upload_without_success_keeps_editedData t p :
  is_Some (file p) →
  stream_typed JSON_parse t →
  without_success JSON_parse t →
  ∃ p', handleUpload JSON_parse t p = Done tt p'
    ∧ editedData p' = editedData p
    ∧ store p' = store p
    ∧ processingComplete p' = false
    ∧ stats_requests p' = stats_requests p.
Proof.
  intros [f Hf] Hty Hs. rewrite (handleUpload_begin _ _ _ f Hf).
  unfold consume. unfold_monad.
  destruct t as [| |chunks ending]; [by eexists | by eexists |].
  rewrite read_loop_frames. unfold_monad.
  destruct (for_each_keeps_invoice (frames chunks "") (begin_session p) Hty Hs)
    as (p1 & -> & E & S & C & R).
  destruct ending; by eexists.
Qed.
End session_frames.

(** *** Frames and frame boundaries *)

Lemma prefix_blank_line c s :
  String.prefix blank_line (String c s) = true →
  String.prefix line_feed (String c s) = true ∧ String.prefix line_feed s = true.
Proof.
  unfold blank_line, line_feed. cbn [String.prefix].
  destruct (ascii_dec "010" c); [| done]. rewrite prefix_empty.
  destruct s as [|c' s]; [done |]. by destruct (ascii_dec "010" c').
Qed.

Lemma without_line_feed_cons c s :
  without_line_feed (String c s) →
  String.prefix line_feed (String c s) = false ∧ without_line_feed s.
Proof.
  unfold without_line_feed. cbn [includes]. intros H.
  by apply orb_false_elim in H.
Qed.

Lemma split_without_line_feed tail :
  without_line_feed tail → split blank_line tail = [tail].
Proof.
  unfold split. induction tail as [|c tail IH]; intros Htail; [done |].
  apply without_line_feed_cons in Htail as [Hc Htail].
  cbn [split_go]. destruct (String.prefix blank_line _) eqn:Hp.
  { apply prefix_blank_line in Hp as [Hp _]. congruence. }
  by rewrite IH.
Qed.

(** A piece that holds no blank line holds none either when a text
    without line feed follows it. *)
Lemma split_piece_tail piece tail :
  split blank_line piece = [piece] →
  without_line_feed tail →
  split blank_line (piece +:+ tail) = [piece +:+ tail].
Proof.
  unfold split. intros Hpiece Htail.
  induction piece as [|c piece IH].
  { by apply split_without_line_feed. }
  cbn [split_go] in Hpiece.
  destruct (String.prefix blank_line (String c piece)) eqn:Hp.
  { injection Hpiece as _ Hnil. by apply split_go_not_nil in Hnil. }
  destruct (split_go blank_line 0 piece) as [|x xs] eqn:Hx.
  { by apply split_go_not_nil in Hx. }
  injection Hpiece as -> ->.
  rewrite append_cons. cbn [split_go].
  destruct (String.prefix blank_line (String c (piece +:+ tail))) eqn:Hp'.
  - exfalso. rewrite <- append_cons in Hp'.
    pose proof (prefix_app_inv blank_line _ _ Hp' Hp) as Hlen.
    destruct piece as [|c' piece]; [| simpl in Hlen; lia].
    rewrite append_cons, append_nil_l in Hp'.
    apply prefix_blank_line in Hp' as [_ Hp'].
    destruct tail as [|c' tail]; [done |].
    apply without_line_feed_cons in Htail as [Htail _]. congruence.
  - by rewrite IH.
Qed.

Lemma received_app chunks chunks' :
  received (chunks ++ chunks') = received chunks +:+ received chunks'.
Proof.
  induction chunks as [|c chunks IH]; [done |].
  cbn [app received foldr]. fold (received (chunks ++ chunks')).
  fold (received chunks). by rewrite IH, append_assoc.
Qed.

Lemma frames_with_tail chunks tail :
  without_line_feed tail →
  frames (chunks ++ [tail]) "" = frames chunks "".
Proof.
  intros Htail. rewrite !frames_of_stream, received_app.
  cbn [received foldr]. rewrite append_nil_r, split_app.
  rewrite (split_piece_tail _ _ (split_last_piece _ _) Htail).
  by rewrite removelast_last.
Qed.

(** X2.  Text that follows the last blank line is never handled: a final
    chunk without line feed, such as a frame whose closing blank line did
    not arrive, leaves the outcome of the upload as it is without that
    chunk. *)
Theorem unterminated_tail_is_not_processed JSON_parse chunks tail ending p :
  without_line_feed tail →
  handleUpload JSON_parse (streams (chunks ++ [tail]) ending) p =
    handleUpload JSON_parse (streams chunks ending) p.
Proof.
  intros Htail. unfold handleUpload, consume. unfold_monad.
  destruct (file p); [| done].
  by rewrite !read_loop_frames, (frames_with_tail _ _ Htail).
Qed.

(** X3.  A frame that does not start with [data: ], such as a comment or
    a frame that opens with an [event:] line, is passed over without a
    log entry: the upload ends as on the stream without that frame. *)
Theorem frame_without_data_prefix_is_ignored
    JSON_parse chunks chunks' ending pre other post p :
  frames chunks "" = pre ++ other :: post →
  frames chunks' "" = pre ++ post →
  String.prefix "data: " other = false →
  handleUpload JSON_parse (streams chunks ending) p =
    handleUpload JSON_parse (streams chunks' ending) p.
Proof.
  intros Hfr Hfr' Hother. unfold handleUpload, consume. unfold_monad.
  destruct (file p); [| done].
  rewrite !read_loop_frames. unfold_monad.
  rewrite Hfr, Hfr', !for_each_app. unfold_monad.
  destruct (for_each _ pre _) as [[] p1|p1|]; [| done | done].
  cbn [for_each]. unfold_monad. unfold handle_line at 1. by rewrite Hother.
Qed.

Section session_results.
Variable JSON_parse : string → option json.

(** What a success result that carries an invoice does. *)
Lemma handle_data_success j inv p v h :
  is_result j = true →
  json_truthy (json_field j "success") = true →
  extracted_invoice j = Some inv →
  alloc_json (json_roundtrip inv) (store p) = Done v h →
  handle_data (Some j) p =
    Done tt
      (fetchStats
         (setProcessingComplete true
            (setEditedData v
               (set_store h (setResult (Some (Success (json_field j "data"))) p))))).
Proof.
  unfold is_result, extracted_invoice. intros Hres Hsucc Hinv Halloc.
  unfold handle_data, json_get, on_store. unfold_monad.
  destruct j; try done. rewrite Hres, Hsucc.
  destruct (json_field (JObj fields) "data") as [payload|]; [| done].
  cbn [mbind option_bind] in Hinv.
  destruct payload; try done.
  destruct (json_field (JObj fields0) "extraction") as [extraction|]; [| done].
  cbn [mbind option_bind] in Hinv.
  destruct extraction; try done. rewrite Hinv.
  cbn [store setResult]. by rewrite Halloc.
Qed.

(** X5.  The last success result of a stream decides what is edited: when
    it carries the invoice [d] (its numbers as [JSON.stringify] writes
    them) and the frames after it bring no other success result,
    [editedData] holds after the upload a copy of [d] laid out as a tree,
    and the completion flag is set, also when a later read fails. *)
Theorem upload_installs_extracted_invoice chunks ending pre line post d p :
  is_Some (file p) →
  stream_typed JSON_parse (streams chunks ending) →
  frames chunks "" = pre ++ line :: post →
  carries_invoice JSON_parse line d →
  json_roundtrip (json_of_invoice d) = json_of_invoice d →
  Forall (λ e, is_success e = false) (omap (frame_event JSON_parse) post) →
  ∃ p', handleUpload JSON_parse (streams chunks ending) p = Done tt p'
    ∧ snapshot_at (store p') (editedData p') d
    ∧ processingComplete p' = true.
Proof.
  intros [f Hf] Hty Hfr Hline Hplain Hpost.
  rewrite (handleUpload_begin _ _ _ f Hf).
  unfold consume. unfold_monad. rewrite read_loop_frames. unfold_monad.
  simpl in Hty. rewrite Hfr in *. apply Forall_app in Hty as [Hpre Hty].
  apply Forall_cons in Hty as [_ Hty]. rewrite for_each_app. unfold_monad.
  destruct (for_each_events JSON_parse pre (begin_session p) Hpre) as (p1 & -> & _).
  cbn [for_each]. unfold_monad.
  destruct Hline as (j & Hline & Hres & Hsucc & Hinv).
  destruct (alloc_invoice d (store p1)) as (v & h & Halloc & Hsnap).
  rewrite <- Hplain in Halloc.
  pose proof (handle_data_success j _ p1 (VRef v) h Hres Hsucc Hinv Halloc) as Hrun.
  match type of Hrun with _ = Done tt ?q => set (p2 := q) in * end.
  assert (processingComplete p2 = true) as Hc by done.
  assert (handle_line JSON_parse line p1 = Done tt p2) as ->.
  { unfold payload in Hline. unfold handle_line.
    destruct (String.prefix _ _); [| done].
    assert (JSON_parse (slice 6 line) = Some j) as -> by congruence.
    unfold_monad. by rewrite Hrun. }
  destruct (for_each_keeps_invoice JSON_parse post p2 Hty Hpost)
    as (p3 & -> & E & S & C & _).
  destruct ending; eexists; (split_and!; [done | | ]); simpl;
    by rewrite ?E, ?S, ?C.
Qed.

(** X6.  A success result without [data.extraction.data] is stored as a
    successful result, and reading the missing invoice throws inside the
    [try]: the frame is logged as a parse failure, and neither
    [editedData] nor the completion flag changes. *)
Theorem success_without_invoice_is_logged line j p :
  payload JSON_parse line = Some (Some j) →
  is_result j = true →
  json_truthy (json_field j "success") = true →
  extracted_invoice j = None →
  handle_line JSON_parse line p =
    Done tt (console_error (setResult (Some (Success (json_field j "data"))) p)).
Proof.
  unfold payload, handle_line, is_result, extracted_invoice.
  destruct (String.prefix _ _); [| done]. intros Hj Hres Hsucc Hnone.
  assert (JSON_parse (slice 6 line) = Some j) as -> by congruence.
  unfold handle_data, json_get, on_store. unfold_monad.
  destruct j; try done. rewrite Hres, Hsucc.
  repeat (case_match; simplify_eq/=; try done);
    match goal with
    | H : ?x = Some _, Hn : ?x ≫= _ = None |- _ =>
        rewrite H in Hn; simpl in Hn; congruence
    end.
Qed.
End session_results.

Lemma upload_depends_on_received_text_witness :
  handleUpload more_parse (streams successful_stream stream_ends) page_with_file =
    handleUpload more_parse (streams successful_stream_recut stream_ends)
      page_with_file.
Proof.
  apply (upload_depends_on_received_text more_parse successful_stream
           successful_stream_recut stream_ends page_with_file).
  by vm_compute.
Defined.

Lemma unterminated_tail_is_not_processed_witness :
  handleUpload sample_parse
    (streams (failing_stream ++ ["data: " +:+ truncated_text]) stream_ends)
    page_with_file =
  handleUpload sample_parse (streams failing_stream stream_ends) page_with_file.
Proof.
  apply (unterminated_tail_is_not_processed sample_parse failing_stream
           ("data: " +:+ truncated_text) stream_ends page_with_file).
  by vm_compute.
Defined.

Lemma frame_without_data_prefix_is_ignored_witness :
  handleUpload more_parse (streams successful_stream_with_comment stream_ends)
    page_with_file =
  handleUpload more_parse (streams successful_stream stream_ends) page_with_file.
Proof.
  apply (frame_without_data_prefix_is_ignored more_parse
           successful_stream_with_comment successful_stream stream_ends
           ["data: " +:+ step_text "upload" "active"]
           keep_alive
           ["data: " +:+ sample_result_text;
            "data: " +:+ step_text "save" "active"]
           page_with_file).
  - by vm_compute.
  - by vm_compute.
  - by vm_compute.
Defined.

Lemma upload_without_success_keeps_editedData_witness :
  ∃ p', handleUpload sample_parse (streams failing_stream stream_ends)
          page_with_earlier_invoice = Done tt p'
    ∧ editedData p' = editedData page_with_earlier_invoice
    ∧ store p' = store page_with_earlier_invoice
    ∧ processingComplete p' = false
    ∧ stats_requests p' = stats_requests page_with_earlier_invoice.
Proof.
  apply (upload_without_success_keeps_editedData sample_parse
           (streams failing_stream stream_ends) page_with_earlier_invoice).
  - by eexists.
  - vm_compute. repeat constructor.
  - vm_compute. repeat constructor.
Defined.

Lemma upload_installs_extracted_invoice_witness :
  ∃ p', handleUpload more_parse (streams successful_stream stream_ends)
          page_with_file = Done tt p'
    ∧ snapshot_at (store p') (editedData p') sample_invoice
    ∧ processingComplete p' = true.
Proof.
  apply (upload_installs_extracted_invoice more_parse successful_stream
           stream_ends
           ["data: " +:+ step_text "upload" "active"]
           ("data: " +:+ sample_result_text)
           ["data: " +:+ step_text "save" "active"]
           sample_invoice page_with_file).
  - by eexists.
  - vm_compute. repeat constructor.
  - by vm_compute.
  - exists sample_result_json. split_and!; by vm_compute.
  - by vm_compute.
  - vm_compute. repeat constructor.
Defined.

Lemma success_without_invoice_is_logged_witness :
  handle_line more_parse ("data: " +:+ bare_success_text)
    page_with_earlier_invoice =
  Done tt (console_error
             (setResult (Some (Success None)) page_with_earlier_invoice)).
Proof.
  apply (success_without_invoice_is_logged more_parse
           ("data: " +:+ bare_success_text) bare_success_json
           page_with_earlier_invoice).
  - by vm_compute.
  - by vm_compute.
  - by vm_compute.
  - by vm_compute.
Defined.

(** ** Processing steps *)

Lemma or_str_assoc a b c : or_str a (or_str b c) = or_str (or_str a b) c.
Proof.
  unfold or_str.
  destruct (truthy_str a) eqn:Ha, (truthy_str b) eqn:Hb; by rewrite ?Ha, ?Hb.
Qed.

Lemma or_str_idemp a : or_str a a = a.
Proof. unfold or_str. by destruct (truthy_str a). Qed.

(** X8.  Two updates of one step in a row act as one: the later status
    with the later message, or the earlier message when the later one is
    absent or empty.  A step event delivered twice in a row therefore
    changes nothing the second time. *)
Theorem updateStep_fuses_repeats x st1 m1 st2 m2 prev :
  updateStep x st2 m2 (updateStep x st1 m1 prev) =
    updateStep x st2 (or_str m2 m1) prev
  ∧ updateStep x st1 m1 (updateStep x st1 m1 prev) = updateStep x st1 m1 prev.
Proof.
  assert (∀ sa ma sb mb,
            updateStep x sb mb (updateStep x sa ma prev) =
              updateStep x sb (or_str mb ma) prev) as Hfuse.
  { intros sa ma sb mb.
    destruct (List.find (λ s, bool_decide (Step.id s = x)) prev) as [s0|] eqn:Hf.
    - assert (x ∈ Step.id <$> prev) as Hin.
      { destruct (decide (x ∈ Step.id <$> prev)) as [|Hn]; [done |].
        apply find_step_None in Hn. congruence. }
      assert (x ∈ Step.id <$> updateStep x sa ma prev) as Hin'.
      { rewrite updateStep_ids. by rewrite decide_True. }
      unfold updateStep at 1.
      destruct (List.find _ (updateStep x sa ma prev)) eqn:Hf'.
      2:{ apply find_step_None in Hf'. contradiction. }
      unfold updateStep. rewrite Hf. rewrite map_map.
      apply map_ext. intros s. destruct (decide (Step.id s = x)) as [Hs|Hs].
      + rewrite (bool_decide_eq_true_2 _ Hs). simpl.
        rewrite (bool_decide_eq_true_2 _ Hs). by rewrite or_str_assoc.
      + rewrite (bool_decide_eq_false_2 _ Hs).
        by rewrite (bool_decide_eq_false_2 _ Hs).
    - pose proof Hf as Hn. apply find_step_None in Hn.
      unfold updateStep at 2 3. rewrite Hf.
      unfold updateStep.
      destruct (List.find _ (prev ++ _)) eqn:Hf'.
      2:{ apply find_step_None in Hf'. exfalso. apply Hf'.
          rewrite fmap_app. apply elem_of_app. right. simpl. by left. }
      rewrite map_app. simpl. rewrite bool_decide_eq_true_2 by done.
      f_equal. rewrite <- (map_id prev) at 2. apply map_ext_in.
      intros s Hs. case_bool_decide as Hid; [| done].
      exfalso. apply Hn. subst x. apply list_elem_of_fmap. exists s.
      split; [done |]. by apply list_elem_of_In. }
  split; [apply Hfuse |]. by rewrite Hfuse, or_str_idemp.
Qed.

(** ** The edit engine *)

Ltac sample_snapshot :=
  split; [by vm_compute |];
  eexists; split; [by vm_compute |];
  apply (bool_decide_unpack _); by vm_compute.

Lemma handleEdits_keep_consistent_witness :
  ∃ p', handleEdits [ (item_path 1 "quantity", VNum 3%float);
                      (header_path "date", VStr "2024-02-01") ]
          (page_editing sample_invoice) = Done tt p'
    ∧ snapshot_at (store p') (editedData p')
        (with_header (set_date "2024-02-01")
           (recalculated 1 (set_quantity 3%float) sample_invoice))
    ∧ invoice_consistent
        (with_header (set_date "2024-02-01")
           (recalculated 1 (set_quantity 3%float) sample_invoice)).
Proof.
  apply (handleEdits_keep_consistent _ (page_editing sample_invoice) sample_invoice).
  - sample_snapshot.
  - split; [repeat constructor | by vm_compute].
  - eapply denote_cons; [| eapply denote_cons; [| apply denote_nil]].
    + apply denotes_item; [simpl; lia | constructor].
    + apply denotes_header. constructor.
Defined.

Lemma handleEditField_index_out_of_range_witness :
  ∃ p', handleEditField (item_path 2 "quantity") (VNum 1%float)
          (page_editing sample_invoice) = Throw p'
    ∧ editedData p' = editedData (page_editing sample_invoice)
    ∧ ∀ l, is_Some (store (page_editing sample_invoice) !! l) →
           store p' !! l = store (page_editing sample_invoice) !! l.
Proof.
  apply (handleEditField_index_out_of_range (page_editing sample_invoice)
           sample_invoice 2 "quantity" (VNum 1%float)).
  - sample_snapshot.
  - simpl. lia.
  - by vm_compute.
Defined.

(** *** Edits one after the other *)

Lemma with_order_totals_twice items items' t :
  with_order_totals items (with_order_totals items' t) = with_order_totals items t.
Proof. done. Qed.

Lemma recalculated_commute i j c1 c2 d :
  i ≠ j →
  recalculated j c2 (recalculated i c1 d) = recalculated i c1 (recalculated j c2 d).
Proof.
  intros Hne. unfold recalculated.
  cbn [ExtractedData.header ExtractedData.line_items ExtractedData.totals].
  rewrite !with_order_totals_twice. by rewrite (list_alter_alter_ne _ _ _ j i).
Qed.

Lemma recalculated_length i c d :
  length (ExtractedData.line_items (recalculated i c d)) =
    length (ExtractedData.line_items d).
Proof. unfold recalculated. cbn [ExtractedData.line_items]. apply length_alter. Qed.

(** X10.  Edits of two different lines commute: made in either order they
    leave the same invoice in [editedData]. *)
Theorem edits_of_distinct_lines_commute p d i j key1 v1 c1 key2 v2 c2 :
  snapshot_at (store p) (editedData p) d →
  i ≠ j →
  i < length (ExtractedData.line_items d) →
  j < length (ExtractedData.line_items d) →
  item_edit key1 v1 c1 →
  item_edit key2 v2 c2 →
  ∃ p1 p2,
    handleEdits [(item_path i key1, v1); (item_path j key2, v2)] p = Done tt p1
    ∧ handleEdits [(item_path j key2, v2); (item_path i key1, v1)] p = Done tt p2
    ∧ load_snapshot (store p1) (editedData p1) =
        Some (recalculated j c2 (recalculated i c1 d))
    ∧ load_snapshot (store p2) (editedData p2) =
        Some (recalculated j c2 (recalculated i c1 d)).
Proof.
  intros Hsnap Hne Hi Hj H1 H2.
  destruct (handleEdits_denote [(item_path i key1, v1); (item_path j key2, v2)]
              p d (recalculated j c2 (recalculated i c1 d)) Hsnap)
    as (p1 & Hrun1 & Hload1 & _).
  { eapply denote_cons; [by apply denotes_item |].
    eapply denote_cons; [| apply denote_nil].
    apply denotes_item; [by rewrite recalculated_length | done]. }
  destruct (handleEdits_denote [(item_path j key2, v2); (item_path i key1, v1)]
              p d (recalculated i c1 (recalculated j c2 d)) Hsnap)
    as (p2 & Hrun2 & Hload2 & _).
  { eapply denote_cons; [by apply denotes_item |].
    eapply denote_cons; [| apply denote_nil].
    apply denotes_item; [by rewrite recalculated_length | done]. }
  rewrite <- (recalculated_commute i j) in Hload2 by done.
  exists p1, p2. by split_and!.
Qed.

Lemma edits_of_distinct_lines_commute_witness :
  ∃ p1 p2,
    handleEdits [ (item_path 0 "quantity", VNum 4%float);
                  (item_path 1 "unit_price", VNum 20%float) ]
      (page_editing sample_invoice) = Done tt p1
    ∧ handleEdits [ (item_path 1 "unit_price", VNum 20%float);
                    (item_path 0 "quantity", VNum 4%float) ]
        (page_editing sample_invoice) = Done tt p2
    ∧ load_snapshot (store p1) (editedData p1) =
        Some (recalculated 1 (set_unit_price 20%float)
                (recalculated 0 (set_quantity 4%float) sample_invoice))
    ∧ load_snapshot (store p2) (editedData p2) =
        Some (recalculated 1 (set_unit_price 20%float)
                (recalculated 0 (set_quantity 4%float) sample_invoice)).
Proof.
  apply (edits_of_distinct_lines_commute (page_editing sample_invoice)
           sample_invoice 0 1 "quantity" (VNum 4%float) (set_quantity 4%float)
           "unit_price" (VNum 20%float) (set_unit_price 20%float)).
  - sample_snapshot.
  - lia.
  - simpl. lia.
  - simpl. lia.
  - constructor.
  - constructor.
Defined.

Lemma item_edit_overwrites key v1 c1 v2 c2 li :
  item_edit key v1 c1 →
  item_edit key v2 c2 →
  with_line_total (c2 (with_line_total (c1 li))) = with_line_total (c2 li).
Proof. intros H1 H2. destruct H1; inversion H2; by subst. Qed.

(** X11.  The last value of a field counts: two edits of the same field of
    a line, one after the other as the keystrokes of one entry make them,
    leave the invoice that the second edit alone leaves. *)
Theorem later_edit_of_a_field_overwrites p d i key v1 c1 v2 c2 :
  snapshot_at (store p) (editedData p) d →
  i < length (ExtractedData.line_items d) →
  item_edit key v1 c1 →
  item_edit key v2 c2 →
  ∃ p1 p2,
    handleEdits [(item_path i key, v1); (item_path i key, v2)] p = Done tt p1
    ∧ handleEditField (item_path i key) v2 p = Done tt p2
    ∧ load_snapshot (store p1) (editedData p1) = Some (recalculated i c2 d)
    ∧ load_snapshot (store p2) (editedData p2) = Some (recalculated i c2 d).
Proof.
  intros Hsnap Hi H1 H2.
  destruct (handleEdits_denote [(item_path i key, v1); (item_path i key, v2)]
              p d (recalculated i c2 (recalculated i c1 d)) Hsnap)
    as (p1 & Hrun1 & Hload1 & _).
  { eapply denote_cons; [by apply denotes_item |].
    eapply denote_cons; [| apply denote_nil].
    apply denotes_item; [by rewrite recalculated_length | done]. }
  destruct (handleEditField_item p d i key v2 c2 Hsnap Hi H2)
    as (p2 & Hrun2 & [Hload2 _] & _).
  exists p1, p2. split_and!; [done | done | | done].
  rewrite Hload1. f_equal. unfold recalculated.
  cbn [ExtractedData.header ExtractedData.line_items ExtractedData.totals].
  rewrite with_order_totals_twice, list_alter_alter_eq.
  assert (alter ((λ li, with_line_total (c2 li)) ∘ (λ li, with_line_total (c1 li))) i
            (ExtractedData.line_items d) =
          alter (λ li, with_line_total (c2 li)) i (ExtractedData.line_items d)) as ->.
  { apply list_alter_ext; [| done]. intros li _. simpl.
    by apply (item_edit_overwrites key v1 c1 v2 c2). }
  done.
Qed.

Lemma later_edit_of_a_field_overwrites_witness :
  ∃ p1 p2,
    handleEdits [ (item_path 1 "quantity", VNum 1%float);
                  (item_path 1 "quantity", VNum 12%float) ]
      (page_editing sample_invoice) = Done tt p1
    ∧ handleEditField (item_path 1 "quantity") (VNum 12%float)
        (page_editing sample_invoice) = Done tt p2
    ∧ load_snapshot (store p1) (editedData p1) =
        Some (recalculated 1 (set_quantity 12%float) sample_invoice)
    ∧ load_snapshot (store p2) (editedData p2) =
        Some (recalculated 1 (set_quantity 12%float) sample_invoice).
Proof.
  apply (later_edit_of_a_field_overwrites (page_editing sample_invoice)
           sample_invoice 1 "quantity" (VNum 1%float) (set_quantity 1%float)
           (VNum 12%float) (set_quantity 12%float)).
  - sample_snapshot.
  - simpl. lia.
  - constructor.
  - constructor.
Defined.

(** X12.  An edit is visible through the previous snapshot.  The call
    installs a new reference in [editedData], and the reference held
    before reads the edited invoice as well: the copy made of the snapshot
    is shallow, and the header, the lines and the totals are written in
    place. *)
Theorem edit_is_visible_through_previous_snapshot field value p d d' :
  snapshot_at (store p) (editedData p) d →
  edit_denotes field value d d' →
  ∃ p', handleEditField field value p = Done tt p'
    ∧ editedData p' ≠ editedData p
    ∧ load_snapshot (store p') (editedData p') = Some d'
    ∧ load_snapshot (store p') (editedData p) = Some d'.
Proof.
  intros Hsnap Hedit.
  destruct (snapshot_at_inv _ _ _ Hsnap)
    as (r & m & ? & ? & ? & ? & ? & ? & ? & ? & Hv & Hr & _).
  assert (∃ p', handleEditField field value p = Done tt p'
            ∧ load_snapshot (store p') (editedData p') = Some d'
            ∧ store p' !! fresh (dom (store p)) = store p' !! root_of (editedData p)
            ∧ editedData p' = VRef (fresh (dom (store p))))
    as (p' & Hrun & Hload & Hroot & Hnew).
  { destruct Hedit as [key s change d Hedit|i key value change d Hi Hedit].
    - destruct (handleEditField_header p d key s change Hsnap Hedit)
        as (p' & ? & [? _] & ? & ?). by exists p'.
    - destruct (handleEditField_item p d i key value change Hsnap Hi Hedit)
        as (p' & ? & [? _] & ? & ?). by exists p'. }
  exists p'. split_and!; [done | | done |].
  - rewrite Hnew, Hv. intros [= Heq].
    pose proof (fresh_loc_unused (store p)) as Hfresh. congruence.
  - rewrite Hv in *. cbn [root_of] in Hroot. rewrite Hnew in Hload.
    by rewrite <- (load_snapshot_same_root _ _ _ Hroot).
Qed.

Lemma edit_is_visible_through_previous_snapshot_witness :
  ∃ p', handleEditField (header_path "company_name") (VStr "Acme Ltd")
          (page_editing sample_invoice) = Done tt p'
    ∧ editedData p' ≠ editedData (page_editing sample_invoice)
    ∧ load_snapshot (store p') (editedData p') =
        Some (with_header (set_company_name "Acme Ltd") sample_invoice)
    ∧ load_snapshot (store p') (editedData (page_editing sample_invoice)) =
        Some (with_header (set_company_name "Acme Ltd") sample_invoice).
Proof.
  apply (edit_is_visible_through_previous_snapshot
           (header_path "company_name") (VStr "Acme Ltd")
           (page_editing sample_invoice) sample_invoice).
  - sample_snapshot.
  - apply denotes_header. constructor.
Defined.

(** X13.  The path the form builds for a field of line [i] leads back to
    that line: [split] yields the three keys, [parseInt] of the second is
    [i], which as a property key is the array index [i], the last key is
    the field, and the path is one that triggers the recalculation. *)
Theorem item_path_addresses_its_line i key :
  includes "." key = false →
  split "." (item_path i key) = ["line_items"; string_of_nat i; key]
  ∧ parseInt (default "undefined" (split "." (item_path i key) !! 1)) =
      Some (Z.of_nat i)
  ∧ array_index
      (string_of_index
         (parseInt (default "undefined" (split "." (item_path i key) !! 1)))) =
      Some i
  ∧ last_key (split "." (item_path i key)) = key
  ∧ includes "line_items" (item_path i key) = true.
Proof.
  intros Hkey. rewrite (split_item_path i key Hkey).
  cbn [lookup list_lookup default from_option id].
  rewrite parseInt_string_of_nat, string_of_index_nat, array_index_string_of_nat.
  by split_and!.
Qed.

Lemma item_path_addresses_its_line_witness :
  split "." (item_path 12 "unit_price") = ["line_items"; "12"; "unit_price"]
  ∧ parseInt (default "undefined" (split "." (item_path 12 "unit_price") !! 1)) =
      Some 12%Z
  ∧ array_index
      (string_of_index
         (parseInt
            (default "undefined" (split "." (item_path 12 "unit_price") !! 1)))) =
      Some 12
  ∧ last_key (split "." (item_path 12 "unit_price")) = "unit_price"
  ∧ includes "line_items" (item_path 12 "unit_price") = true.
Proof. apply (item_path_addresses_its_line 12 "unit_price"). by vm_compute. Defined.

(** X14.  A quantity box that is empty, or whose text does not start with
    a number, sets the quantity to 0: [parseInt] yields [NaN], the handler
    is called with 0, and the line total and the totals are recomputed
    from it. *)
Theorem quantity_text_falls_back_to_zero p d i text :
  snapshot_at (store p) (editedData p) d →
  i < length (ExtractedData.line_items d) →
  parseInt text = None →
  ∃ p', onQuantityChange i text p = Done tt p'
    ∧ load_snapshot (store p') (editedData p') =
        Some (recalculated i (set_quantity PrimFloat.zero) d).
Proof.
  intros Hsnap Hi Htext. unfold onQuantityChange, parseInt_or_zero. rewrite Htext.
  destruct (handleEditField_item p d i "quantity" (VNum PrimFloat.zero)
              (set_quantity PrimFloat.zero) Hsnap Hi (edit_quantity _))
    as (p' & Hrun & [Hload _] & _).
  by exists p'.
Qed.

Lemma quantity_text_falls_back_to_zero_witness :
  ∃ p', onQuantityChange 0 "" (page_editing sample_invoice) = Done tt p'
    ∧ load_snapshot (store p') (editedData p') =
        Some (recalculated 0 (set_quantity PrimFloat.zero) sample_invoice).
Proof.
  apply (quantity_text_falls_back_to_zero (page_editing sample_invoice)
           sample_invoice 0 "").
  - sample_snapshot.
  - simpl. lia.
  - by vm_compute.
Defined.

(** ** Saving the edits *)

Section save_facts.
Implicit Types (h : heap) (l : loc) (m : gmap string val).

Lemma insert_fresh_lookup h o l :
  is_Some (h !! l) → <[fresh (dom h) := o]> h !! l = h !! l.
Proof.
  intros [x Hl]. rewrite lookup_insert_ne; [done |].
  intros Heq. rewrite <- Heq, fresh_loc_unused in Hl. done.
Qed.

Lemma insert_fresh_is_Some h o l :
  is_Some (h !! l) → is_Some (<[fresh (dom h) := o]> h !! l).
Proof. intros Hl. by rewrite insert_fresh_lookup. Qed.

Lemma extend_object h l m k v :
  h !! l = Some (Obj m) →
  extend (VRef l) k v h =
    Done (VRef (fresh (dom h))) (<[fresh (dom h) := Obj (<[k := v]> m)]> h).
Proof.
  intros Hl. unfold extend. unfold mbind, M_bind, bind.
  rewrite (spread_object h l m Hl).
  erewrite set_prop_object by apply lookup_insert_eq.
  unfold mret, M_ret, ret. by rewrite insert_insert_eq.
Qed.

Lemma read_cons h l m k v keys :
  h !! l = Some (Obj m) → m !! k = Some v →
  read h (VRef l) (k :: keys) = read h v keys.
Proof. intros Hl Hk. cbn [read]. by rewrite Hl, Hk. Qed.

(** The objects the updater of [handleSaveEdits] builds. *)
Lemma saved_result_run h edited data oid r m ld md le me :
  h !! r = Some (Obj m) →
  m !! "data" = Some (VRef ld) →
  h !! ld = Some (Obj md) →
  md !! "extraction" = Some (VRef le) →
  h !! le = Some (Obj me) →
  SaveEdits.reports_order data oid →
  ∃ l1 l2 l3 l4 h',
    SaveEdits.saved_result edited data (VRef r) h = Done (VRef l4) h'
    ∧ h' !! l4 = Some (Obj (<["data" := VRef l3]> m))
    ∧ h' !! l3 =
        Some (Obj (<["database" := VRef l2]> (<["extraction" := VRef l1]> md)))
    ∧ h' !! l2 =
        Some (Obj (list_to_map [("saved", VBool true); ("order_id", oid)]))
    ∧ h' !! l1 = Some (Obj (<["data" := edited]> me))
    ∧ (h !! l1 = None ∧ h !! l2 = None ∧ h !! l3 = None ∧ h !! l4 = None)
    ∧ ∀ l, is_Some (h !! l) → h' !! l = h !! l.
Proof.
  intros Hr Hmd Hld Hme Hle (Hsucc & rd & Hrd & Hnull & Hoid).
  set (l1 := fresh (dom h)).
  set (h1 := <[l1 := Obj (<["data" := edited]> me)]> h).
  set (l2 := fresh (dom h1)).
  set (h2 := <[l2 := Obj (list_to_map [("saved", VBool true); ("order_id", oid)])]> h1).
  set (l3 := fresh (dom h2)).
  set (h3 := <[l3 := Obj md]> h2).
  set (h3' := <[l3 := Obj (<["extraction" := VRef l1]> md)]> h3).
  set (h3'' := <[l3 := Obj (<["database" := VRef l2]> (<["extraction" := VRef l1]> md))]> h3').
  set (l4 := fresh (dom h3'')).
  set (h4 := <[l4 := Obj (<["data" := VRef l3]> m)]> h3'').
  assert (∀ l, is_Some (h !! l) → h1 !! l = h !! l) as F1
    by (intros; by apply insert_fresh_lookup).
  assert (∀ l, is_Some (h1 !! l) → h2 !! l = h1 !! l) as F2
    by (intros; by apply insert_fresh_lookup).
  assert (∀ l, is_Some (h2 !! l) → h3'' !! l = h2 !! l) as F3.
  { intros l Hl. unfold h3'', h3', h3. rewrite !insert_insert_eq.
    by apply insert_fresh_lookup. }
  assert (∀ l, is_Some (h3'' !! l) → h4 !! l = h3'' !! l) as F4
    by (intros; by apply insert_fresh_lookup).
  assert (h1 !! l1 = Some (Obj (<["data" := edited]> me))) as H1
    by apply lookup_insert_eq.
  assert (h2 !! l2 = Some (Obj (list_to_map [("saved", VBool true); ("order_id", oid)])))
    as H2 by apply lookup_insert_eq.
  assert (h3'' !! l3 =
          Some (Obj (<["database" := VRef l2]> (<["extraction" := VRef l1]> md))))
    as H3 by apply lookup_insert_eq.
  assert (∀ l, is_Some (h !! l) → h4 !! l = h !! l) as Hframe.
  { intros l Hl.
    rewrite F4, F3, F2, F1; [done | done | | |];
      rewrite ?F3, ?F2, ?F1; try done; rewrite ?F2, ?F1; try done;
      rewrite ?F1; done. }
  exists l1, l2, l3, l4, h4. split_and!.
  - unfold SaveEdits.saved_result. cbn [truthy negb].
    unfold mbind, M_bind, bind.
    rewrite (get_prop_object h r m "data" Hr), Hmd. cbn [default from_option id].
    rewrite (get_prop_object h ld md "extraction" Hld), Hme.
    cbn [default from_option id].
    rewrite (extend_object h le me "data" edited Hle). fold l1 h1.
    assert (∃ fields, data = JObj fields) as [fields ->].
    { destruct data; try done. by eexists. }
    cbn [json_get]. unfold mret, M_ret, ret. rewrite Hrd.
    assert (json_get (Some rd) "order_id" h1 = Done (json_field rd "order_id") h1)
      as ->.
    { by destruct rd. }
    rewrite Hoid. unfold alloc. fold l2 h2.
    rewrite (spread_object h2 ld md).
    2:{ rewrite F2, F1; [done | by eexists |]. rewrite F1; by eexists. }
    fold l3 h3.
    rewrite (set_prop_object h3 l3 md "extraction") by apply lookup_insert_eq.
    fold h3'.
    rewrite (set_prop_object h3' l3 (<["extraction" := VRef l1]> md) "database")
      by apply lookup_insert_eq.
    fold h3''.
    rewrite (extend_object h3'' r m "data" (VRef l3)). 2:{
      rewrite F3, F2, F1; [done | by eexists | |].
      - rewrite F1; by eexists.
      - rewrite F2, F1; [by eexists | by eexists |]. rewrite F1; by eexists. }
    done.
  - apply lookup_insert_eq.
  - rewrite F4; [done | by eexists].
  - rewrite F4, F3; [done | by eexists |]. rewrite F3; by eexists.
  - rewrite F4, F3, F2; [done | by eexists | |].
    + rewrite F2; by eexists.
    + rewrite F3, F2; [by eexists | by eexists |]. rewrite F2; by eexists.
  - apply fresh_loc_unused.
  - destruct (h !! l2) eqn:Hl2; [| done].
    assert (is_Some (h1 !! l2)) as [x Hx] by (rewrite F1; by eexists).
    pose proof (fresh_loc_unused h1) as Hfresh. fold l2 in Hfresh. congruence.
  - destruct (h !! l3) eqn:Hl3; [| done].
    assert (is_Some (h2 !! l3)) as [x Hx].
    { rewrite F2, F1; [by eexists | by eexists |]. rewrite F1; by eexists. }
    pose proof (fresh_loc_unused h2) as Hfresh. fold l3 in Hfresh. congruence.
  - destruct (h !! l4) eqn:Hl4; [| done].
    assert (is_Some (h3'' !! l4)) as [x Hx].
    { rewrite F3, F2, F1; [by eexists | by eexists | |].
      - rewrite F1; by eexists.
      - rewrite F2, F1; [by eexists | by eexists |]. rewrite F1; by eexists. }
    pose proof (fresh_loc_unused h3'') as Hfresh. fold l4 in Hfresh. congruence.
  - exact Hframe.
Qed.
End save_facts.

Lemma handleSaveEdits_success s data oid :
  truthy (SaveEdits.editedData s) = true →
  SaveEdits.holds_extraction (SaveEdits.store s) (SaveEdits.result s) →
  SaveEdits.reports_order data oid →
  ∃ s',
    SaveEdits.handleSaveEdits (SaveEdits.replies data) s = Done tt s'
    ∧ read (SaveEdits.store s') (SaveEdits.result s') ["data"; "extraction"; "data"] =
        Some (SaveEdits.editedData s)
    ∧ read (SaveEdits.store s') (SaveEdits.result s') ["data"; "database"; "saved"] =
        Some (VBool true)
    ∧ read (SaveEdits.store s') (SaveEdits.result s') ["data"; "database"; "order_id"] =
        Some oid
    ∧ (∀ k, k ≠ "data" →
         read (SaveEdits.store s') (SaveEdits.result s') [k] =
           read (SaveEdits.store s) (SaveEdits.result s) [k])
    ∧ (∀ k, k ≠ "extraction" → k ≠ "database" →
         read (SaveEdits.store s') (SaveEdits.result s') ["data"; k] =
           read (SaveEdits.store s) (SaveEdits.result s) ["data"; k])
    ∧ (∀ k, k ≠ "data" →
         read (SaveEdits.store s') (SaveEdits.result s') ["data"; "extraction"; k] =
           read (SaveEdits.store s) (SaveEdits.result s) ["data"; "extraction"; k])
    ∧ (∀ l, is_Some (SaveEdits.store s !! l) →
         SaveEdits.store s' !! l = SaveEdits.store s !! l)
    ∧ SaveEdits.result s' ≠ SaveEdits.result s
    ∧ SaveEdits.holds_extraction (SaveEdits.store s') (SaveEdits.result s')
    ∧ SaveEdits.editedData s' = SaveEdits.editedData s
    ∧ SaveEdits.isLoading s' = false
    ∧ SaveEdits.showEditModal s' = false
    ∧ SaveEdits.showResultsModal s' = true
    ∧ SaveEdits.stats_requests s' = S (SaveEdits.stats_requests s)
    ∧ SaveEdits.console_errors s' = SaveEdits.console_errors s.
Proof.
  intros Hedited (r & m & ld & md & le & me & Hv & Hr & Hmd & Hld & Hme & Hle) Hreply.
  destruct (saved_result_run (SaveEdits.store s) (SaveEdits.editedData s) data oid
              r m ld md le me Hr Hmd Hld Hme Hle Hreply)
    as (l1 & l2 & l3 & l4 & h' & Hrun & H4 & H3 & H2 & H1 & (_ & _ & _ & Hnew)
        & Hframe).
  destruct Hreply as (Hsucc & _).
  assert (∃ fields, data = JObj fields) as [fields ->].
  { destruct data; try done. by eexists. }
  eexists. split.
  { unfold SaveEdits.handleSaveEdits. unfold_monad. rewrite Hedited. cbn [negb].
    cbn [json_get]. unfold_monad. rewrite Hsucc.
    unfold at_render, SaveEdits.on_store. cbn [SaveEdits.store SaveEdits.setIsLoading].
    cbn [SaveEdits.editedData SaveEdits.result]. rewrite Hv, Hrun. reflexivity. }
  cbn [SaveEdits.store SaveEdits.result SaveEdits.editedData SaveEdits.isLoading
       SaveEdits.showEditModal SaveEdits.showResultsModal SaveEdits.stats_requests
       SaveEdits.console_errors SaveEdits.setIsLoading SaveEdits.setResult
       SaveEdits.setShowEditModal SaveEdits.setShowResultsModal SaveEdits.fetchStats
       SaveEdits.set_store].
  assert (h' !! ld = Some (Obj md)) as Hld' by (rewrite Hframe; [done | by eexists]).
  assert (h' !! le = Some (Obj me)) as Hle' by (rewrite Hframe; [done | by eexists]).
  split_and!; try done.
  - rewrite (read_cons _ _ _ _ (VRef l3) _ H4) by apply lookup_insert_eq.
    rewrite (read_cons _ _ _ _ (VRef l1) _ H3)
      by (rewrite lookup_insert_ne by done; apply lookup_insert_eq).
    by rewrite (read_cons _ _ _ _ (SaveEdits.editedData s) _ H1)
      by apply lookup_insert_eq.
  - rewrite (read_cons _ _ _ _ (VRef l3) _ H4) by apply lookup_insert_eq.
    rewrite (read_cons _ _ _ _ (VRef l2) _ H3) by apply lookup_insert_eq.
    by rewrite (read_cons _ _ _ _ (VBool true) _ H2).
  - rewrite (read_cons _ _ _ _ (VRef l3) _ H4) by apply lookup_insert_eq.
    rewrite (read_cons _ _ _ _ (VRef l2) _ H3) by apply lookup_insert_eq.
    by rewrite (read_cons _ _ _ _ oid _ H2).
  - intros k Hk. rewrite Hv. cbn [read]. rewrite H4, Hr.
    by rewrite lookup_insert_ne.
  - intros k Hk1 Hk2. rewrite Hv.
    rewrite (read_cons _ _ _ _ (VRef l3) _ H4) by apply lookup_insert_eq.
    rewrite (read_cons _ _ _ _ (VRef ld) _ Hr) by done.
    cbn [read]. rewrite H3, Hld. by rewrite !lookup_insert_ne.
  - intros k Hk. rewrite Hv.
    rewrite (read_cons _ _ _ _ (VRef l3) _ H4) by apply lookup_insert_eq.
    rewrite (read_cons _ _ _ _ (VRef l1) _ H3)
      by (rewrite lookup_insert_ne by done; apply lookup_insert_eq).
    rewrite (read_cons _ _ _ _ (VRef ld) _ Hr) by done.
    rewrite (read_cons _ _ _ _ (VRef le) _ Hld) by done.
    cbn [read]. rewrite H1, Hle. by rewrite lookup_insert_ne.
  - rewrite Hv. intros [= ->]. congruence.
  - exists l4, (<["data" := VRef l3]> m), l3,
      (<["database" := VRef l2]> (<["extraction" := VRef l1]> md)), l1,
      (<["data" := SaveEdits.editedData s]> me).
    split_and!; try done.
    + apply lookup_insert_eq.
    + rewrite lookup_insert_ne by done. apply lookup_insert_eq.
Qed.

(** X15.  A save that the server confirms: the new result holds
    [database.saved = true] with the order id of the reply, and its
    [extraction.data] is the very object in [editedData]; every other
    member of the result, of its data and of its extraction is kept, and no
    object of the previous result is written.  The edit dialog closes, the
    results dialog opens, [fetchStats] is called once and [isLoading] is
    false again. *)
Theorem confirmed_save_records_order s data oid :
  truthy (SaveEdits.editedData s) = true →
  SaveEdits.holds_extraction (SaveEdits.store s) (SaveEdits.result s) →
  SaveEdits.reports_order data oid →
  ∃ s',
    SaveEdits.handleSaveEdits (SaveEdits.replies data) s = Done tt s'
    ∧ read (SaveEdits.store s') (SaveEdits.result s') ["data"; "extraction"; "data"] =
        Some (SaveEdits.editedData s)
    ∧ read (SaveEdits.store s') (SaveEdits.result s') ["data"; "database"; "saved"] =
        Some (VBool true)
    ∧ read (SaveEdits.store s') (SaveEdits.result s') ["data"; "database"; "order_id"] =
        Some oid
    ∧ (∀ k, k ≠ "data" →
         read (SaveEdits.store s') (SaveEdits.result s') [k] =
           read (SaveEdits.store s) (SaveEdits.result s) [k])
    ∧ (∀ k, k ≠ "extraction" → k ≠ "database" →
         read (SaveEdits.store s') (SaveEdits.result s') ["data"; k] =
           read (SaveEdits.store s) (SaveEdits.result s) ["data"; k])
    ∧ (∀ k, k ≠ "data" →
         read (SaveEdits.store s') (SaveEdits.result s') ["data"; "extraction"; k] =
           read (SaveEdits.store s) (SaveEdits.result s) ["data"; "extraction"; k])
    ∧ (∀ l, is_Some (SaveEdits.store s !! l) →
         SaveEdits.store s' !! l = SaveEdits.store s !! l)
    ∧ SaveEdits.isLoading s' = false
    ∧ SaveEdits.showEditModal s' = false
    ∧ SaveEdits.showResultsModal s' = true
    ∧ SaveEdits.stats_requests s' = S (SaveEdits.stats_requests s).
Proof.
  intros Hedited Hresult Hreply.
  destruct (handleSaveEdits_success s data oid Hedited Hresult Hreply)
    as (s' & ? & ? & ? & ? & ? & ? & ? & ? & _ & _ & _ & ? & ? & ? & ? & _).
  exists s'. by split_and!.
Qed.

Ltac sample_extraction :=
  eexists _, _, _, _, _, _; split_and!; vm_compute; reflexivity.

Ltac sample_order :=
  split; [by vm_compute |];
  eexists; split_and!; [by vm_compute | done | by vm_compute].

Lemma confirmed_save_records_order_witness :
  ∃ s',
    SaveEdits.handleSaveEdits (SaveEdits.replies (SaveEdits.saved_reply 7%float))
      (SaveEdits.after_extraction sample_invoice) = Done tt s'
    ∧ read (SaveEdits.store s') (SaveEdits.result s') ["data"; "extraction"; "data"] =
        Some (SaveEdits.editedData (SaveEdits.after_extraction sample_invoice))
    ∧ read (SaveEdits.store s') (SaveEdits.result s') ["data"; "database"; "saved"] =
        Some (VBool true)
    ∧ read (SaveEdits.store s') (SaveEdits.result s') ["data"; "database"; "order_id"] =
        Some (VNum 7%float)
    ∧ (∀ k, k ≠ "data" →
         read (SaveEdits.store s') (SaveEdits.result s') [k] =
           read (SaveEdits.store (SaveEdits.after_extraction sample_invoice))
             (SaveEdits.result (SaveEdits.after_extraction sample_invoice)) [k])
    ∧ (∀ k, k ≠ "extraction" → k ≠ "database" →
         read (SaveEdits.store s') (SaveEdits.result s') ["data"; k] =
           read (SaveEdits.store (SaveEdits.after_extraction sample_invoice))
             (SaveEdits.result (SaveEdits.after_extraction sample_invoice))
             ["data"; k])
    ∧ (∀ k, k ≠ "data" →
         read (SaveEdits.store s') (SaveEdits.result s') ["data"; "extraction"; k] =
           read (SaveEdits.store (SaveEdits.after_extraction sample_invoice))
             (SaveEdits.result (SaveEdits.after_extraction sample_invoice))
             ["data"; "extraction"; k])
    ∧ (∀ l, is_Some (SaveEdits.store (SaveEdits.after_extraction sample_invoice) !! l) →
         SaveEdits.store s' !! l =
           SaveEdits.store (SaveEdits.after_extraction sample_invoice) !! l)
    ∧ SaveEdits.isLoading s' = false
    ∧ SaveEdits.showEditModal s' = false
    ∧ SaveEdits.showResultsModal s' = true
    ∧ SaveEdits.stats_requests s' =
        S (SaveEdits.stats_requests (SaveEdits.after_extraction sample_invoice)).
Proof.
  apply (confirmed_save_records_order (SaveEdits.after_extraction sample_invoice)
           (SaveEdits.saved_reply 7%float) (VNum 7%float)).
  - by vm_compute.
  - sample_extraction.
  - sample_order.
Defined.

(** X16.  A save that does not go through is silent: when the request or
    the reading of the body fails, or the reply does not report success,
    the result, [editedData], the store, the two dialog flags and the
    number of [fetchStats] calls are as before, and [isLoading] is false
    again.  A failure is logged with [console.error]; a reply that reports
    no success is not even logged. *)
Theorem refused_save_changes_nothing s r :
  truthy (SaveEdits.editedData s) = true →
  SaveEdits.refused r →
  SaveEdits.handleSaveEdits r s =
    Done tt
      (SaveEdits.mkState false (SaveEdits.result s) (SaveEdits.editedData s)
         (SaveEdits.showEditModal s) (SaveEdits.showResultsModal s)
         (SaveEdits.store s)
         (SaveEdits.errors_logged r + SaveEdits.console_errors s)
         (SaveEdits.stats_requests s)).
Proof.
  intros Hedited Hr. unfold SaveEdits.handleSaveEdits. unfold_monad.
  rewrite Hedited. cbn [negb].
  destruct r as [| |data]; [done | done |].
  destruct Hr as [-> | Hfalsy]; [done |].
  destruct data; try done. cbn [json_get]. unfold_monad. by rewrite Hfalsy.
Qed.

Lemma refused_save_changes_nothing_witness :
  SaveEdits.handleSaveEdits (SaveEdits.replies SaveEdits.refusal)
    (SaveEdits.after_extraction sample_invoice) =
  Done tt
    (SaveEdits.mkState false
       (SaveEdits.result (SaveEdits.after_extraction sample_invoice))
       (SaveEdits.editedData (SaveEdits.after_extraction sample_invoice))
       (SaveEdits.showEditModal (SaveEdits.after_extraction sample_invoice))
       (SaveEdits.showResultsModal (SaveEdits.after_extraction sample_invoice))
       (SaveEdits.store (SaveEdits.after_extraction sample_invoice))
       (SaveEdits.errors_logged (SaveEdits.replies SaveEdits.refusal)
        + SaveEdits.console_errors (SaveEdits.after_extraction sample_invoice))
       (SaveEdits.stats_requests (SaveEdits.after_extraction sample_invoice))).
Proof.
  apply (refused_save_changes_nothing (SaveEdits.after_extraction sample_invoice)
           (SaveEdits.replies SaveEdits.refusal)).
  - by vm_compute.
  - right. by vm_compute.
Defined.

(** X17.  The handler does not look at the [saved] flag: on a result
    that is already saved it sends the data again, and a second
    confirmation replaces the order id of the first. *)
Theorem saved_result_is_saved_again s data1 oid1 data2 oid2 :
  truthy (SaveEdits.editedData s) = true →
  SaveEdits.holds_extraction (SaveEdits.store s) (SaveEdits.result s) →
  SaveEdits.reports_order data1 oid1 →
  SaveEdits.reports_order data2 oid2 →
  ∃ s1 s2,
    SaveEdits.handleSaveEdits (SaveEdits.replies data1) s = Done tt s1
    ∧ read (SaveEdits.store s1) (SaveEdits.result s1) ["data"; "database"; "saved"] =
        Some (VBool true)
    ∧ read (SaveEdits.store s1) (SaveEdits.result s1) ["data"; "database"; "order_id"] =
        Some oid1
    ∧ SaveEdits.handleSaveEdits (SaveEdits.replies data2) s1 = Done tt s2
    ∧ read (SaveEdits.store s2) (SaveEdits.result s2) ["data"; "database"; "order_id"] =
        Some oid2
    ∧ SaveEdits.stats_requests s2 = S (S (SaveEdits.stats_requests s)).
Proof.
  intros Hedited Hresult Hreply1 Hreply2.
  destruct (handleSaveEdits_success s data1 oid1 Hedited Hresult Hreply1)
    as (s1 & Hrun1 & _ & Hsaved & Hoid1 & _ & _ & _ & _ & _ & Hresult1 & Hedited1
        & _ & _ & _ & Hstats1 & _).
  rewrite <- Hedited1 in Hedited.
  destruct (handleSaveEdits_success s1 data2 oid2 Hedited Hresult1 Hreply2)
    as (s2 & Hrun2 & _ & _ & Hoid2 & _ & _ & _ & _ & _ & _ & _ & _ & _ & _ & Hstats2 & _).
  exists s1, s2. split_and!; try done. by rewrite Hstats2, Hstats1.
Qed.

Lemma saved_result_is_saved_again_witness :
  ∃ s1 s2,
    SaveEdits.handleSaveEdits (SaveEdits.replies (SaveEdits.saved_reply 7%float))
      (SaveEdits.after_extraction sample_invoice) = Done tt s1
    ∧ read (SaveEdits.store s1) (SaveEdits.result s1) ["data"; "database"; "saved"] =
        Some (VBool true)
    ∧ read (SaveEdits.store s1) (SaveEdits.result s1) ["data"; "database"; "order_id"] =
        Some (VNum 7%float)
    ∧ SaveEdits.handleSaveEdits (SaveEdits.replies (SaveEdits.saved_reply 8%float))
        s1 = Done tt s2
    ∧ read (SaveEdits.store s2) (SaveEdits.result s2) ["data"; "database"; "order_id"] =
        Some (VNum 8%float)
    ∧ SaveEdits.stats_requests s2 =
        S (S (SaveEdits.stats_requests (SaveEdits.after_extraction sample_invoice))).
Proof.
  apply (saved_result_is_saved_again (SaveEdits.after_extraction sample_invoice)
           (SaveEdits.saved_reply 7%float) (VNum 7%float)
           (SaveEdits.saved_reply 8%float) (VNum 8%float)).
  - by vm_compute.
  - sample_extraction.
  - sample_order.
  - sample_order.
Defined.

(** ** The invoices listing *)

Section orders_facts.
Variable server : Orders.request → Orders.reply.

Ltac orders_simpl :=
  cbn [Orders.orders Orders.pagination Orders.page Orders.isLoading Orders.stats
       Orders.expandedOrder Orders.orderDetails Orders.loadingDetails
       Orders.console_errors Orders.requests
       Orders.setOrders Orders.setPagination Orders.setPage Orders.setIsLoading
       Orders.setStats Orders.setExpandedOrder Orders.setOrderDetails
       Orders.setLoadingDetails Orders.console_error Orders.sent] in *.

(** One click on an order row: it returns, and what is loaded stays and
    is not asked for. *)
Lemma fetchOrderDetails_step orderId s :
  ∃ s' new,
    Orders.fetchOrderDetails server orderId s = Done tt s'
    ∧ Orders.requests s' = Orders.requests s ++ new
    ∧ Orders.loadingDetails s' =
        (if json_truthy (Orders.details_of s orderId)
         then Orders.loadingDetails s else None)
    ∧ ∀ id, json_truthy (Orders.details_of s id) = true →
        Orders.orderDetails s' !! id = Orders.orderDetails s !! id
        ∧ Orders.details id ∉ new.
Proof.
  unfold Orders.fetchOrderDetails. unfold_monad.
  destruct (json_truthy (Orders.details_of s orderId)) eqn:Hloaded.
  { eexists _, []. split_and!; [done | by rewrite app_nil_r | done |].
    intros id _. split; [done | apply not_elem_of_nil]. }
  assert (∀ id, json_truthy (Orders.details_of s id) = true → id ≠ orderId) as Hne.
  { intros id Hid ->. congruence. }
  assert (∀ id, id ≠ orderId → Orders.details id ∉ [Orders.details orderId]) as Hnew.
  { intros id Hid Hin. apply list_elem_of_singleton in Hin. congruence. }
  unfold Orders.fetch_json, json_get. unfold_monad.
  repeat (case_match; simplify_eq/=; try done);
    (eexists _, [Orders.details orderId]; split_and!; [done | done | done |];
     intros id Hid; split; [| by apply Hnew, Hne];
     simpl; rewrite ?lookup_insert_ne; [done | by apply not_eq_sym, Hne]) ||
    (eexists _, [Orders.details orderId]; split_and!; [done | done | done |];
     intros id Hid; split; [done | by apply Hnew, Hne]).
Qed.

Lemma row_clicks_keep_loaded ids : ∀ s,
  ∃ s' new,
    Orders.row_clicks server ids s = Done tt s'
    ∧ Orders.requests s' = Orders.requests s ++ new
    ∧ ∀ id, json_truthy (Orders.details_of s id) = true →
        Orders.orderDetails s' !! id = Orders.orderDetails s !! id
        ∧ Orders.details id ∉ new.
Proof.
  induction ids as [|id0 ids IH]; intros s.
  { exists s, []. split_and!; [done | by rewrite app_nil_r |].
    intros id _. split; [done | apply not_elem_of_nil]. }
  destruct (fetchOrderDetails_step id0 s) as (s1 & new1 & Hrun1 & Hreq1 & _ & Hkeep1).
  destruct (IH s1) as (s2 & new2 & Hrun2 & Hreq2 & Hkeep2).
  exists s2, (new1 ++ new2). split_and!.
  - unfold Orders.row_clicks in *. cbn [for_each]. unfold_monad.
    by rewrite Hrun1, Hrun2.
  - by rewrite Hreq2, Hreq1, app_assoc.
  - intros id Hid. destruct (Hkeep1 id Hid) as [Hd1 Hn1].
    assert (json_truthy (Orders.details_of s1 id) = true) as Hid1.
    { unfold Orders.details_of in *. by rewrite Hd1. }
    destruct (Hkeep2 id Hid1) as [Hd2 Hn2]. split; [congruence |].
    rewrite elem_of_app. by intros [|].
Qed.

(** X18.  Details that are loaded are kept for good: whatever rows are
    clicked afterwards and whatever the server answers, the details of a
    loaded order stay the ones first received, and none of the clicks asks
    the server for them again. *)
Theorem loaded_details_are_never_requested_again ids s id items :
  Orders.orderDetails s !! id = Some (Some items) →
  json_truthy (Some items) = true →
  ∃ s', Orders.row_clicks server ids s = Done tt s'
    ∧ Orders.orderDetails s' !! id = Some (Some items)
    ∧ Orders.details id ∉ Orders.requests_since s s'.
Proof.
  intros Hid Hitems.
  destruct (row_clicks_keep_loaded ids s) as (s' & new & Hrun & Hreq & Hkeep).
  destruct (Hkeep id) as [Hd Hn].
  { unfold Orders.details_of. by rewrite Hid. }
  exists s'. split_and!; [done | congruence |].
  unfold Orders.requests_since. by rewrite Hreq, drop_app_length.
Qed.

(** X19.  The first click on an order row asks the server for the details,
    stores them and expands the row; the second click collapses the row
    without a request. *)
Theorem first_click_loads_second_collapses s order items :
  json_truthy (Orders.details_of s order) = false →
  Orders.delivers (server (Orders.details order)) items →
  json_truthy (Some items) = true →
  ∃ s1 s2,
    Orders.fetchOrderDetails server order s = Done tt s1
    ∧ Orders.expandedOrder s1 = Some order
    ∧ Orders.details_of s1 order = Some items
    ∧ Orders.loadingDetails s1 = None
    ∧ Orders.fetchOrderDetails server order s1 = Done tt s2
    ∧ Orders.expandedOrder s2 = None
    ∧ Orders.details_of s2 order = Some items
    ∧ Orders.requests_since s s2 = [Orders.details order].
Proof.
  intros Hnew (data & payload & Hreply & Hsucc & Hdata & Hpayload & Hitems) Htruthy.
  assert (∃ fields, data = JObj fields) as [fields ->].
  { destruct data; try done. by eexists. }
  assert (json_get (Some payload) "items" =
          (mret (Some items) : M Orders.state (option json))) as Hget.
  { unfold json_get. destruct payload; try done; by rewrite Hitems. }
  eexists _, _. split.
  { unfold Orders.fetchOrderDetails, Orders.fetch_json. unfold_monad.
    rewrite Hnew, Hreply. cbn [json_get]. unfold_monad. rewrite Hsucc, Hdata, Hpayload.
    rewrite Hget. unfold_monad. reflexivity. }
  split_and!; [done | | done | | |  |].
  - unfold Orders.details_of. orders_simpl. by rewrite lookup_insert_eq.
  - unfold Orders.fetchOrderDetails. unfold_monad.
    unfold Orders.details_of at 1. orders_simpl.
    rewrite lookup_insert_eq. cbn [default from_option id]. rewrite Htruthy.
    reflexivity.
  - orders_simpl. by rewrite bool_decide_eq_true_2.
  - unfold Orders.details_of. orders_simpl. by rewrite lookup_insert_eq.
  - unfold Orders.requests_since. orders_simpl. by rewrite drop_app_length.
Qed.

(** X20.  A load of details that fails is silent and is tried again: the
    row stays as it was, nothing is stored, the loading mark is cleared,
    and the next click on the row sends the request once more. *)
Theorem failed_details_load_is_retried s order :
  json_truthy (Orders.details_of s order) = false →
  Orders.refused (server (Orders.details order)) →
  ∃ s1 s2,
    Orders.fetchOrderDetails server order s = Done tt s1
    ∧ Orders.orderDetails s1 = Orders.orderDetails s
    ∧ Orders.expandedOrder s1 = Orders.expandedOrder s
    ∧ Orders.loadingDetails s1 = None
    ∧ Orders.fetchOrderDetails server order s1 = Done tt s2
    ∧ Orders.requests_since s s2 = [Orders.details order; Orders.details order].
Proof.
  intros Hnew Href.
  assert (∀ s0, Orders.orderDetails s0 = Orders.orderDetails s →
            ∃ s', Orders.fetchOrderDetails server order s0 = Done tt s'
              ∧ Orders.orderDetails s' = Orders.orderDetails s0
              ∧ Orders.expandedOrder s' = Orders.expandedOrder s0
              ∧ Orders.loadingDetails s' = None
              ∧ Orders.requests s' = Orders.requests s0 ++ [Orders.details order])
    as Hstep.
  { intros s0 Hs0.
    assert (json_truthy (Orders.details_of s0 order) = false) as Hnew0.
    { unfold Orders.details_of in *. by rewrite Hs0. }
    unfold Orders.fetchOrderDetails, Orders.fetch_json. unfold_monad.
    rewrite Hnew0. unfold Orders.refused in Href.
    destruct (server (Orders.details order)) as [| |data]; [by eexists | by eexists |].
    destruct data; cbn [json_get]; unfold_monad; try (by eexists).
    destruct Href as [-> | Hdata]; [by eexists |].
    destruct (json_truthy (json_field (JObj fields) "success")); [| by eexists].
    rewrite Hdata. by eexists. }
  destruct (Hstep s eq_refl) as (s1 & Hrun1 & Hd1 & He1 & Hl1 & Hr1).
  destruct (Hstep s1 Hd1) as (s2 & Hrun2 & _ & _ & _ & Hr2).
  exists s1, s2. split_and!; try done.
  unfold Orders.requests_since. rewrite Hr2, Hr1, <- app_assoc.
  by rewrite drop_app_length.
Qed.

Lemma fetchStats_run s :
  ∃ s', Orders.fetchStats server s = Done tt s'
    ∧ Orders.orders s' = Orders.orders s
    ∧ Orders.pagination s' = Orders.pagination s
    ∧ Orders.page s' = Orders.page s
    ∧ Orders.isLoading s' = Orders.isLoading s
    ∧ Orders.requests s' = Orders.requests s ++ [Orders.stats_request].
Proof.
  unfold Orders.fetchStats, Orders.fetch_json, json_get. unfold_monad.
  repeat (case_match; simplify_eq/=; try done); by eexists.
Qed.

Lemma fetchOrders_run s :
  ∃ s', Orders.fetchOrders server s = Done tt s'
    ∧ Orders.page s' = Orders.page s
    ∧ Orders.isLoading s' = false
    ∧ Orders.requests s' = Orders.requests s ++ [Orders.orders_page (Orders.page s)]
    ∧ (Orders.refused (server (Orders.orders_page (Orders.page s))) →
       Orders.orders s' = Orders.orders s
       ∧ Orders.pagination s' = Orders.pagination s).
Proof.
  unfold Orders.fetchOrders, Orders.fetch_json, Orders.refused, json_get.
  unfold_monad. cbn [Orders.page Orders.setIsLoading].
  repeat (case_match; simplify_eq/=; try done);
    (eexists; split_and!; [done..|]; intros Href;
     first
       [ done
       | destruct Href as [Href|Href];
         first
           [ congruence
           | match goal with
             | H : ?x = Some _, Hr : json_truthy ?x = false |- _ =>
                 rewrite H in Hr; simpl in Hr; congruence
             end ] ]).
Qed.

Lemma click_next_run s :
  ∃ s', Orders.click server InvoicesPage.Next s = Done tt s'
    ∧ Orders.page s' = (Orders.page s + 1)%Z
    ∧ Orders.isLoading s' = false
    ∧ Orders.requests s' =
        Orders.requests s
        ++ [Orders.orders_page (Orders.page s + 1); Orders.stats_request]
    ∧ (Orders.refused (server (Orders.orders_page (Orders.page s + 1))) →
       Orders.orders s' = Orders.orders s
       ∧ Orders.pagination s' = Orders.pagination s).
Proof.
  unfold Orders.click, Orders.page_effect. unfold_monad.
  cbn [InvoicesPage.setPage]. rewrite bool_decide_eq_false_2 by lia.
  destruct (fetchOrders_run (Orders.setPage (λ _, (Orders.page s + 1)%Z) s))
    as (s1 & -> & Hp1 & Hl1 & Hr1 & Hkeep1).
  destruct (fetchStats_run s1) as (s2 & -> & Ho2 & Hg2 & Hp2 & Hl2 & Hr2).
  exists s2. cbn [Orders.page Orders.setPage Orders.requests] in *.
  split_and!; [done | congruence | congruence | |].
  - by rewrite Hr2, Hr1, <- app_assoc.
  - intros Href. destruct (Hkeep1 Href) as [Ho1 Hg1].
    cbn [Orders.orders Orders.pagination Orders.setPage] in *.
    split; congruence.
Qed.

(** X21.  A page of the listing that fails to load is passed over.  The
    click on [Next] has moved the page number on although the orders and
    the pagination shown are still those of the page before, so the next
    click on [Next] asks for the page after the one that failed. *)
Theorem failed_page_is_passed_over s :
  Orders.refused (server (Orders.orders_page (Orders.page s + 1))) →
  ∃ s1 s2,
    Orders.click server InvoicesPage.Next s = Done tt s1
    ∧ Orders.page s1 = (Orders.page s + 1)%Z
    ∧ Orders.orders s1 = Orders.orders s
    ∧ Orders.pagination s1 = Orders.pagination s
    ∧ Orders.isLoading s1 = false
    ∧ Orders.click server InvoicesPage.Next s1 = Done tt s2
    ∧ Orders.page s2 = (Orders.page s + 2)%Z
    ∧ Orders.requests_since s s2 =
        [ Orders.orders_page (Orders.page s + 1); Orders.stats_request;
          Orders.orders_page (Orders.page s + 2); Orders.stats_request ].
Proof.
  intros Href.
  destruct (click_next_run s) as (s1 & Hrun1 & Hp1 & Hl1 & Hr1 & Hkeep1).
  destruct (Hkeep1 Href) as [Ho1 Hg1].
  destruct (click_next_run s1) as (s2 & Hrun2 & Hp2 & Hl2 & Hr2 & _).
  exists s1, s2. split_and!; try done.
  - rewrite Hp2, Hp1. lia.
  - unfold Orders.requests_since. rewrite Hr2, Hr1, <- app_assoc.
    rewrite drop_app_length, Hp1. cbn [app].
    by replace (Orders.page s + 1 + 1)%Z with (Orders.page s + 2)%Z by lia.
Qed.
End orders_facts.

Lemma loaded_details_are_never_requested_again_witness :
  ∃ s', Orders.row_clicks OrdersSample.server [71%Z; 5%Z; 71%Z]
          OrdersSample.with_details = Done tt s'
    ∧ Orders.orderDetails s' !! 71%Z =
        Some (Some (JArr [ JObj [ ("SalesOrderDetailID", JNum 1%float) ] ]))
    ∧ Orders.details 71 ∉ Orders.requests_since OrdersSample.with_details s'.
Proof.
  apply (loaded_details_are_never_requested_again OrdersSample.server
           [71%Z; 5%Z; 71%Z] OrdersSample.with_details 71%Z).
  - by vm_compute.
  - by vm_compute.
Defined.

Lemma first_click_loads_second_collapses_witness :
  ∃ s1 s2,
    Orders.fetchOrderDetails OrdersSample.server 71 OrdersSample.loaded = Done tt s1
    ∧ Orders.expandedOrder s1 = Some 71%Z
    ∧ Orders.details_of s1 71 =
        Some (JArr [ JObj [ ("SalesOrderDetailID", JNum 1%float) ] ])
    ∧ Orders.loadingDetails s1 = None
    ∧ Orders.fetchOrderDetails OrdersSample.server 71 s1 = Done tt s2
    ∧ Orders.expandedOrder s2 = None
    ∧ Orders.details_of s2 71 =
        Some (JArr [ JObj [ ("SalesOrderDetailID", JNum 1%float) ] ])
    ∧ Orders.requests_since OrdersSample.loaded s2 = [Orders.details 71].
Proof.
  apply (first_click_loads_second_collapses OrdersSample.server
           OrdersSample.loaded 71%Z).
  - by vm_compute.
  - eexists _, _. split_and!; vm_compute; reflexivity.
  - by vm_compute.
Defined.

Lemma failed_details_load_is_retried_witness :
  ∃ s1 s2,
    Orders.fetchOrderDetails OrdersSample.server 5 OrdersSample.loaded = Done tt s1
    ∧ Orders.orderDetails s1 = Orders.orderDetails OrdersSample.loaded
    ∧ Orders.expandedOrder s1 = Orders.expandedOrder OrdersSample.loaded
    ∧ Orders.loadingDetails s1 = None
    ∧ Orders.fetchOrderDetails OrdersSample.server 5 s1 = Done tt s2
    ∧ Orders.requests_since OrdersSample.loaded s2 =
        [Orders.details 5; Orders.details 5].
Proof.
  apply (failed_details_load_is_retried OrdersSample.server OrdersSample.loaded 5%Z).
  - by vm_compute.
  - by vm_compute.
Defined.

Lemma failed_page_is_passed_over_witness :
  ∃ s1 s2,
    Orders.click OrdersSample.server InvoicesPage.Next OrdersSample.loaded = Done tt s1
    ∧ Orders.page s1 = (Orders.page OrdersSample.loaded + 1)%Z
    ∧ Orders.orders s1 = Orders.orders OrdersSample.loaded
    ∧ Orders.pagination s1 = Orders.pagination OrdersSample.loaded
    ∧ Orders.isLoading s1 = false
    ∧ Orders.click OrdersSample.server InvoicesPage.Next s1 = Done tt s2
    ∧ Orders.page s2 = (Orders.page OrdersSample.loaded + 2)%Z
    ∧ Orders.requests_since OrdersSample.loaded s2 =
        [ Orders.orders_page (Orders.page OrdersSample.loaded + 1);
          Orders.stats_request;
          Orders.orders_page (Orders.page OrdersSample.loaded + 2);
          Orders.stats_request ].
Proof.
  apply (failed_page_is_passed_over OrdersSample.server OrdersSample.loaded).
  by vm_compute.
Defined.

(** ** Edits after a save *)

Section edits_after_save.
Implicit Types (h : heap) (l : loc) (m : gmap string val).

Lemma snapshot_at_intro h r m lh mh lb lsh la ils lt mt d :
  h !! r = Some (Obj m) →
  m !! "header" = Some (VRef lh) →
  m !! "line_items" = Some (VRef la) →
  m !! "totals" = Some (VRef lt) →
  h !! lh = Some (Obj mh) →
  mh !! "bill_to" = Some (VRef lb) →
  mh !! "ship_to" = Some (VRef lsh) →
  load_header h lh = Some (ExtractedData.header d) →
  h !! la = Some (Arr (VRef <$> ils)) →
  Forall2 (λ l li, load_line_item h l = Some li) ils (ExtractedData.line_items d) →
  h !! lt = Some (Obj mt) →
  totals_of mt = Some (ExtractedData.totals d) →
  NoDup (r :: lh :: lb :: lsh :: la :: lt :: ils) →
  snapshot_at h (VRef r) d.
Proof.
  intros Hr Hmh Hma Hmt Hlh Hb Hs Hhd Hla Hall Hlt Ht Hnd. split.
  - unfold load_snapshot. cbn [as_ref mbind option_bind].
    unfold object_at at 1. rewrite Hr. cbn [mbind option_bind].
    unfold ref_field. rewrite Hmh, Hma, Hmt. cbn [mbind option_bind].
    rewrite Hhd. cbn [mbind option_bind].
    rewrite (load_line_items_Some h la ils _ Hla Hall). cbn [mbind option_bind].
    assert (load_totals h lt = Some (ExtractedData.totals d)) as ->.
    { apply load_totals_Some. by eexists. }
    cbn [mbind option_bind]. by destruct d.
  - exists (r :: lh :: lb :: lsh :: la :: lt :: ils). split; [| done].
    by apply (snapshot_locs_Some h r m lh mh lb lsh la ils lt).
Qed.

(** An invoice stays what it is when objects are added to the store. *)
Lemma snapshot_at_weaken h h' v d :
  snapshot_at h v d → h ⊆ h' → snapshot_at h' v d.
Proof.
  intros Hsnap Hsub.
  destruct (snapshot_at_inv _ _ _ Hsnap)
    as (r & m & lh & mh & lb & lsh & la & ils & lt & mt & -> & Hr & Hmh & Hma
        & Hmt & Hlh & Hb & Hs & Hhd & Hla & Hall & Hlt & Ht & Hnd).
  apply (snapshot_at_intro h' r m lh mh lb lsh la ils lt mt d); try done.
  - by eapply lookup_weaken.
  - by eapply lookup_weaken.
  - by eapply load_header_weaken.
  - by eapply lookup_weaken.
  - eapply Forall2_impl; [exact Hall |]. intros l li Hli.
    exact (load_line_item_weaken h h' l li Hli Hsub).
  - by eapply lookup_weaken.
Qed.

(** The store after an edit of a header field. *)
Lemma handleEditField_header_store p r m lh mh key s change :
  editedData p = VRef r →
  store p !! r = Some (Obj m) →
  m !! "header" = Some (VRef lh) →
  store p !! lh = Some (Obj mh) →
  header_edit key s change →
  ∃ p', handleEditField (header_path key) (VStr s) p = Done tt p'
    ∧ store p' =
        <[lh := Obj (<[key := VStr s]> mh)]>
          (<[fresh (dom (store p)) := Obj m]> (store p)).
Proof.
  intros Hv Hr Hm Hlh Hedit.
  assert (split "." (header_path key) = ["header"; key]
          ∧ includes "line_items" (header_path key) = false) as [Hsplit Hincl].
  { by destruct Hedit. }
  set (h := store p) in *. set (r' := fresh (dom h)).
  assert (h !! r' = None) as Hfresh by apply fresh_loc_unused.
  set (h1 := <[r' := Obj m]> h).
  eexists. split.
  - unfold handleEditField.
    rewrite (bind_Done get_state _ p p p) by done.
    rewrite Hv. cbn [truthy negb].
    rewrite (bind_Done _ _ p (VRef r') (set_store h1 p))
      by (apply on_store_Done, spread_object, Hr).
    rewrite (bind_Done _ _ (set_store h1 p) tt
               (set_store (<[lh := Obj (<[key := VStr s]> mh)]> h1) (set_store h1 p))).
    2:{ apply on_store_Done. cbn [store set_store]. rewrite Hsplit.
        apply (assign_header h1 r' m lh mh); [| done |].
        - unfold h1. by rewrite lookup_insert_eq.
        - unfold h1. rewrite lookup_insert_ne; [done |].
          intros Heq. rewrite <- Heq in Hlh. congruence. }
    rewrite Hincl. unfold mret, M_ret. rewrite (bind_Done (ret tt) _ _ tt _) by done.
    reflexivity.
  - done.
Qed.

(** X23.  After a confirmed save the result shares the invoice with the
    edit form: a header field edited afterwards shows in
    [result.data.extraction.data], next to [database.saved = true],
    although that value was never sent to the server. *)
Theorem saved_result_shows_later_edits s data oid d key text change :
  snapshot_at (SaveEdits.store s) (SaveEdits.editedData s) d →
  SaveEdits.holds_extraction (SaveEdits.store s) (SaveEdits.result s) →
  SaveEdits.reports_order data oid →
  header_edit key text change →
  ∃ s1 s2 v,
    SaveEdits.handleSaveEdits (SaveEdits.replies data) s = Done tt s1
    ∧ handleEditField_after_save (header_path key) (VStr text) s1 = Done tt s2
    ∧ SaveEdits.result s2 = SaveEdits.result s1
    ∧ read (SaveEdits.store s2) (SaveEdits.result s2) ["data"; "database"; "saved"] =
        Some (VBool true)
    ∧ read (SaveEdits.store s2) (SaveEdits.result s2) ["data"; "extraction"; "data"] =
        Some v
    ∧ load_snapshot (SaveEdits.store s2) v = Some (with_header change d).
Proof.
  intros Hsnap (r0 & m0 & ld & md & le & me & Hv0 & Hr0 & Hmd & Hld & Hme & Hle)
    Hreply Hedit.
  destruct (snapshot_at_inv _ _ _ Hsnap)
    as (r & m & lh & mh & lb & lsh & la & ils & lt & mt & Hv & Hr & Hmh & _
        & _ & Hlh & _).
  set (h := SaveEdits.store s) in *.
  destruct (saved_result_run h (SaveEdits.editedData s) data oid
              r0 m0 ld md le me Hr0 Hmd Hld Hme Hle Hreply)
    as (l1 & l2 & l3 & l4 & h' & Hrun & H4 & H3 & H2 & H1 & (N1 & N2 & N3 & N4)
        & Hframe).
  assert (h ⊆ h') as Hsub.
  { apply map_subseteq_spec. intros l o Hl. rewrite Hframe; [done | by eexists]. }
  destruct Hreply as (Hsucc & _).
  assert (∃ fields, data = JObj fields) as [fields ->].
  { destruct data; try done. by eexists. }
  (* the save *)
  set (s1 := SaveEdits.setIsLoading false
               (SaveEdits.fetchStats
                  (SaveEdits.setShowResultsModal true
                     (SaveEdits.setShowEditModal false
                        (SaveEdits.setResult (VRef l4)
                           (SaveEdits.set_store h'
                              (SaveEdits.setIsLoading true s))))))).
  assert (SaveEdits.handleSaveEdits (SaveEdits.replies (JObj fields)) s = Done tt s1)
    as Hrun1.
  { unfold SaveEdits.handleSaveEdits. unfold_monad. rewrite Hv. cbn [truthy negb].
    cbn [json_get]. unfold_monad. rewrite Hsucc.
    unfold at_render, SaveEdits.on_store.
    cbn [SaveEdits.store SaveEdits.setIsLoading SaveEdits.editedData SaveEdits.result].
    fold h. rewrite Hv0, <- Hv, Hrun. reflexivity. }
  (* the edit *)
  set (p1 := page_of_save_state s1).
  assert (snapshot_at (store p1) (editedData p1) d) as Hsnap1.
  { unfold p1, s1. cbn [page_of_save_state store editedData SaveEdits.store
                        SaveEdits.editedData].
    by apply (snapshot_at_weaken h). }
  destruct (handleEditField_header p1 d key text change Hsnap1 Hedit)
    as (p2 & Hrun2 & [Hload2 _] & Hroot2 & Hnew2).
  destruct (handleEditField_header_store p1 r m lh mh key text change)
    as (p2' & Hrun2' & Hstore2); try done.
  { unfold p1, s1. cbn. by eapply lookup_weaken. }
  { unfold p1, s1. cbn. by eapply lookup_weaken. }
  assert (p2' = p2) as -> by congruence.
  assert (store p1 = h') as Hp1 by done. rewrite Hp1 in *.
  assert (editedData p1 = VRef r) as Hed1 by (by rewrite <- Hv).
  rewrite Hed1 in *. cbn [root_of] in Hroot2.
  assert (∀ l, h !! l = None → is_Some (h' !! l) → store p2 !! l = h' !! l) as Hkeep.
  { intros l Hl Hsome. rewrite Hstore2.
    rewrite lookup_insert_ne by (intros <-; congruence).
    rewrite lookup_insert_ne; [done |].
    intros <-. rewrite fresh_loc_unused in Hsome. by destruct Hsome. }
  exists s1, (edited_save_state p2 s1), (VRef r). split; [exact Hrun1 |].
  split.
  { unfold handleEditField_after_save. fold p1. by rewrite Hrun2. }
  cbn [edited_save_state SaveEdits.result SaveEdits.store].
  assert (store p2 !! l4 = Some (Obj (<["data" := VRef l3]> m0))) as K4
    by (rewrite Hkeep; [done | done | by eexists]).
  assert (store p2 !! l3 = Some (Obj (<["database" := VRef l2]>
                                       (<["extraction" := VRef l1]> md)))) as K3
    by (rewrite Hkeep; [done | done | by eexists]).
  assert (store p2 !! l2 = Some (Obj (list_to_map [("saved", VBool true);
                                                    ("order_id", oid)]))) as K2
    by (rewrite Hkeep; [done | done | by eexists]).
  assert (store p2 !! l1 = Some (Obj (<["data" := SaveEdits.editedData s]> me))) as K1
    by (rewrite Hkeep; [done | done | by eexists]).
  split_and!; [done | | |].
  - rewrite (read_cons _ _ _ _ (VRef l3) _ K4) by apply lookup_insert_eq.
    rewrite (read_cons _ _ _ _ (VRef l2) _ K3) by apply lookup_insert_eq.
    by rewrite (read_cons _ _ _ _ (VBool true) _ K2).
  - rewrite (read_cons _ _ _ _ (VRef l3) _ K4) by apply lookup_insert_eq.
    rewrite (read_cons _ _ _ _ (VRef l1) _ K3)
      by (rewrite lookup_insert_ne by done; apply lookup_insert_eq).
    rewrite (read_cons _ _ _ _ (SaveEdits.editedData s) _ K1)
      by apply lookup_insert_eq.
    by rewrite Hv.
  - rewrite Hnew2 in Hload2.
    by rewrite <- (load_snapshot_same_root _ _ _ Hroot2).
Qed.
End edits_after_save.

Lemma saved_result_shows_later_edits_witness :
  ∃ s1 s2 v,
    SaveEdits.handleSaveEdits (SaveEdits.replies (SaveEdits.saved_reply 7%float))
      (SaveEdits.after_extraction sample_invoice) = Done tt s1
    ∧ handleEditField_after_save (header_path "invoice_number") (VStr "INV-2") s1 =
        Done tt s2
    ∧ SaveEdits.result s2 = SaveEdits.result s1
    ∧ read (SaveEdits.store s2) (SaveEdits.result s2) ["data"; "database"; "saved"] =
        Some (VBool true)
    ∧ read (SaveEdits.store s2) (SaveEdits.result s2) ["data"; "extraction"; "data"] =
        Some v
    ∧ load_snapshot (SaveEdits.store s2) v =
        Some (with_header (set_invoice_number "INV-2") sample_invoice).
Proof.
  apply (saved_result_shows_later_edits (SaveEdits.after_extraction sample_invoice)
           (SaveEdits.saved_reply 7%float) (VNum 7%float) sample_invoice
           "invoice_number" "INV-2").
  - sample_snapshot.
  - sample_extraction.
  - sample_order.
  - constructor.
Defined.
